(** * Kritis: image security policy evaluation and admission review

    A shallow embedding of
    - [securitypolicy.ValidateImageSecurityPolicy] and its helpers
      (package [securitypolicy]),
    - [review.Reviewer.Review] and its helpers (package [review]),
    - the test double [testutil.MockMetadataClient],
    followed by the properties the specification states about them.

    Go values are embedded as follows.  A slice is a [list] (the nil slice
    and the empty slice are both [[]]); a [(value, error)] result is a pair
    whose second component is an [option error] ([None] is the nil error); a
    [map[string]string] is a [gmap string string], a missing key reading as
    the empty string; calls to collaborators that live outside the process
    (metadata backend, binary authorization, cluster, violation strategy)
    are state transformers over an abstract world, and every such call is
    appended to a log. *)

From Stdlib Require Import ZArith Bool List Ascii String Sorted.
From stdpp Require Import base option list strings gmap.
Import ListNotations.

Local Open Scope Z_scope.
Local Open Scope string_scope.
Local Open Scope list_scope.

(** ** Errors *)

(** [fmt.Errorf] / [errors.New] build a leaf, [errors.Wrap] and
    [errors.Wrapf] put a message in front of a cause. *)
Inductive error : Type :=
| errorString (msg : string)
| withMessage (cause : error) (msg : string).

(** [err.Error()]. *)
Fixpoint Error (e : error) : string :=
  match e with
  | errorString msg => msg
  | withMessage cause msg => msg +:+ ": " +:+ Error cause
  end.

(** [errors.Wrapf err msg]: nil when [err] is nil. *)
Definition Wrapf (err : option error) (msg : string) : option error :=
  option_map (fun e => withMessage e msg) err.

(** ** Data model *)

Module metadata.
Record Vulnerability : Type := {
  Severity : string;
  HasFixAvailable : bool;
  CVE : string
}.

Record PGPAttestation : Type := {
  Signature : string;
  KeyID : string;
  OccID : string
}.

(** The part of a V1 occurrence the evaluator reads: the note name and
    the compact JWTs of its attestation.  The nil cases of the generated
    types (an occurrence without attestation, a nil JWT) are left out. *)
Record OccurenceV1 : Type := {
  NoteName : string;
  Jwts : list string
}.
End metadata.
Export metadata.

Module v1beta1.
Record PackageVulnerabilityRequirements : Type := {
  MaximumSeverity : string;
  MaximumFixUnavailableSeverity : string;
  WhitelistCVEs : list string
}.

(** The name and namespace of the object and the fields of its [Spec],
    side by side. *)
Record ImageSecurityPolicy : Type := {
  Name : string;
  Namespace : string;
  ImageWhitelist : list string;
  PackageVulnerabilityRequirements_ : PackageVulnerabilityRequirements;
  BuiltProjectIDs : list string;
  RequireAttestationsBy : list string;
  AttestationAuthorityNames : list string
}.

Record AttestationAuthority : Type := {
  AuthorityName : string;
  NoteReference : string;
  PrivateKeySecretName : string;
  PublicKeyData : string
}.
End v1beta1.
Export v1beta1.

Module policy.
Inductive ViolationType : Type :=
| UnqualifiedImageViolation
| FixUnavailableViolation
| SeverityViolation
| ArkCISignatureViolation
| BuildProjectIDViolation
| RequiredAttestationViolation.

Definition ViolationType_eqb (a b : ViolationType) : bool :=
  match a, b with
  | UnqualifiedImageViolation, UnqualifiedImageViolation
  | FixUnavailableViolation, FixUnavailableViolation
  | SeverityViolation, SeverityViolation
  | ArkCISignatureViolation, ArkCISignatureViolation
  | BuildProjectIDViolation, BuildProjectIDViolation
  | RequiredAttestationViolation, RequiredAttestationViolation => true
  | _, _ => false
  end.
End policy.
Export policy.

(** Modelled from the spec: the [Violation] struct of package
    [securitypolicy] is declared in a file that is not modelled; the spec gives
    it a kind, a human-readable reason and an optional vulnerability. *)
Record Violation : Type := {
  vulnerability : option Vulnerability;
  vType : ViolationType;
  reason : string
}.

Definition NewViolation (vuln : option Vulnerability) (t : ViolationType)
    (r : string) : Violation :=
  {| vulnerability := vuln; vType := t; reason := r |}.

Module constants.
(** Modelled from the spec: the two sentinel thresholds of package
    [constants], whose file is not modelled.  The evaluator itself spells
    the default no-fix threshold ["ALLOW_ALL"]. *)
Definition BlockAll : string := "BLOCK_ALL".
Definition AllowAll : string := "ALLOW_ALL".
End constants.

(** ** Functions imported from other packages

    Pure functions of packages that are not modelled.  Nothing is assumed
    about them. *)
Class Imports : Type := {
  (** [vulnerability.Severity_value], the name-to-number table of the
      generated severity enum. *)
  Severity_value : string -> option Z;
  (** [resolve.FullyQualifiedImage]. *)
  FullyQualifiedImage : string -> bool;
  (** The [%q] verb of [fmt]. *)
  quote : string -> string;
  (** [fmt.Sprintf] of a format string without operands. *)
  Sprintf0 : string -> string;
  (** Reason builders of package [securitypolicy]. *)
  UnqualifiedImageReason : string -> string;
  FixUnavailableReason :
    string -> Vulnerability -> ImageSecurityPolicy -> string;
  SeverityReason : string -> Vulnerability -> ImageSecurityPolicy -> string;
  (** [policy.ViolationType.ToString]. *)
  ToString : ViolationType -> string;
  (** [os.Getenv]. *)
  Getenv : string -> string;
  (** [container.NewAtomicContainerSig image {}]: the error, if any.  The
      signature object is determined by the image, which stands for it
      below. *)
  NewAtomicContainerSig : string -> option error;
  (** [sig.VerifyAttestationSignature publicKey signature] for the
      signature object of an image. *)
  VerifyAttestationSignature : string -> string -> string -> option error;
  (** [util.RemoveGloballyWhitelistedImages]. *)
  RemoveGloballyWhitelistedImages : list string -> list string;
  (** [base64.StdEncoding.DecodeString], the bytes read as a string. *)
  DecodeString : string -> string * option error;
  (** [secrets.NewPgpKey "" "" publicKey] followed by [Fingerprint]: the
      fingerprint of the parsed key, or the error of parsing it. *)
  NewPgpKey : string -> string * option error
}.

(** ** Severity thresholds *)

Section Severity.
Context `{Imports}.

Definition severityWithinThreshold (maxSeverity severity : string)
    : bool * option error :=
  if String.eqb maxSeverity constants.BlockAll then (false, None)
  else if String.eqb maxSeverity constants.AllowAll then (true, None)
  else match Severity_value maxSeverity with
       | None => (false, Some (errorString
                    ("invalid max severity level: " +:+ maxSeverity)))
       | Some rmax =>
         match Severity_value severity with
         | None => (false, Some (errorString
                      ("invalid severity level: " +:+ severity)))
         | Some r => ((r <=? rmax)%Z, None)
         end
       end.
End Severity.

(** ** External calls

    Every call that leaves the process is logged. *)

Record Note : Type := { NoteName_ : string }.
Record PGPSigningSecret : Type := { SecretName : string }.
Record Pod : Type := { PodName : string }.

Record AttestorPublicKey : Type := {
  ID : string; (* ID = Fingerprint *)
  AsciiArmor : string
}.

Record Attestor : Type := {
  AttestorName : string;
  PublicKeys : list AttestorPublicKey
}.

Inductive Call : Type :=
| Call_Vulnerabilities (image : string)
| Call_OccurencesV1 (image : string)
| Call_Attestations (image : string)
| Call_AttestationNote (aa : option AttestationAuthority)
| Call_CreateAttestationNote (aa : option AttestationAuthority)
| Call_CreateAttestationOccurence (n : option Note) (image : string)
    (s : option PGPSigningSecret)
| Call_GetAttestor (name : string)
| Call_KMSVerfiyKeyfunc (keyPath : string)
| Call_jwt_Parse (compactJwt : string)
| Call_Validate (isp : ImageSecurityPolicy) (image : string)
| Call_Secret (namespace name : string)
| Call_Auths (namespace name : string)
| Call_HandleAttestation (image : string) (pod : option Pod) (isAttested : bool)
| Call_HandleViolation (image : string) (pod : option Pod)
    (violations : list Violation)
| Call_ClusterWhitelistedImagesRemover (images : list string).

(** A computation either returns or panics (a nil dereference). *)
Inductive outcome (A : Type) : Type :=
| Done (a : A)
| Panic.
Arguments Done {A} a.
Arguments Panic {A}.

(** What a collaborator does to the world of type [W]. *)
Definition Effect (W A : Type) : Type := W -> outcome A * W.

Record State (W : Type) : Type := mkState {
  world : W;
  calls : list Call
}.
Arguments mkState {W} world calls.
Arguments world {W} s.
Arguments calls {W} s.

Definition M (W A : Type) : Type := State W -> outcome A * State W.

#[global] Instance M_ret {W} : MRet (M W) :=
  fun A a st => (Done a, st).

#[global] Instance M_bind {W} : MBind (M W) :=
  fun A B k m st =>
    match m st with
    | (Done a, st') => k a st'
    | (Panic, st') => (Panic, st')
    end.

Definition panic {W A} : M W A := fun st => (Panic, st).

(** Log a call, then run the computation that stands for it. *)
Definition invoke {W A} (c : Call) (m : M W A) : M W A :=
  fun st => m (mkState (world st) (calls st ++ [c])).

(** Run a collaborator's method and log the call. *)
Definition perform {W A} (c : Call) (e : Effect W A) : M W A :=
  fun st =>
    let (r, w) := e (world st) in
    (r, mkState w (calls st ++ [c])).

(** The interface [metadata.Fetcher]. *)
Record Fetcher (W : Type) : Type := {
  Vulnerabilities : string -> Effect W (list Vulnerability * option error);
  OccurencesV1 : string -> Effect W (list OccurenceV1 * option error);
  Attestations : string -> Effect W (list PGPAttestation * option error);
  AttestationNote :
    option AttestationAuthority -> Effect W (option Note * option error);
  CreateAttestationNote :
    option AttestationAuthority -> Effect W (option Note * option error);
  CreateAttestationOccurence :
    option Note -> string -> option PGPSigningSecret ->
    Effect W (option string * option error)
}.
Arguments Vulnerabilities {W} f image.
Arguments OccurencesV1 {W} f image.
Arguments Attestations {W} f image.
Arguments AttestationNote {W} f aa.
Arguments CreateAttestationNote {W} f aa.
Arguments CreateAttestationOccurence {W} f n image s.

(** The interface [securitypolicy.AttestorFetcher]. *)
Record AttestorFetcher (W : Type) : Type := {
  GetAttestor : string -> Effect W (option Attestor * option error)
}.
Arguments GetAttestor {W} a name.

(** The part of a binary authorization attestor that [GetAttestor] reads:
    the public keys of its user-owned note, when it has one, as pairs of an
    id and an ASCII-armored key. *)
Record BinauthzAttestor : Type := {
  UserOwnedGrafeasNote : option (list (string * string))
}.

(** The interface [binauthz.Client]. *)
Record BinauthzClient (W : Type) : Type := {
  ClientGetAttestor :
    string -> Effect W (option BinauthzAttestor * option error)
}.
Arguments ClientGetAttestor {W} b name.

(** [binauthzAttestorFetcher.GetAttestor].  An attestor without a
    user-owned note is answered by wrapping the nil error of the call, which
    is nil: no attestor and no error. *)
Definition binauthzGetAttestor {W} (client : BinauthzClient W) (name : string)
    : Effect W (option Attestor * option error) :=
  fun w =>
    match ClientGetAttestor client name w with
    | (Panic, w') => (Panic, w')
    | (Done (_, Some err), w') =>
      (Done (None, Wrapf (Some err) ("failed to get an attestor: " +:+ name)),
       w')
    | (Done (None, None), w') => (Panic, w')
    | (Done (Some a, None), w') =>
      match UserOwnedGrafeasNote a with
      | None =>
        (Done (None,
               Wrapf None
                 ("attestor doesn't have UserOwnedDrydockNote: " +:+ name)),
         w')
      | Some pubKeys =>
        (Done (Some {| AttestorName := name;
                       PublicKeys :=
                         map (fun pubKey =>
                                {| ID := fst pubKey;
                                   AsciiArmor := snd pubKey |})
                           pubKeys |},
               None), w')
      end
    end.

Definition binauthzAttestorFetcher {W} (client : BinauthzClient W)
    : AttestorFetcher W :=
  {| GetAttestor := binauthzGetAttestor client |}.

(** A parsed JWT: its validity flag and, when the claims are a
    [jwt.MapClaims], the claims. *)
Inductive ClaimValue : Type :=
| ClaimString (s : string)
| ClaimOther.

Record Token : Type := {
  Valid : bool;
  Claims : option (gmap string ClaimValue)
}.

(** Package-level functions that talk to the outside: the KMS key function
    of [gcpjwt] and [jwt.Parse] run with the RS256-only key callback of
    [verifyArkSignature] for the key of a given path. *)
Class Services (W : Type) : Type := {
  KMSVerfiyKeyfunc : string -> Effect W (option error);
  jwt_Parse : string -> string -> Effect W (Token * option error)
}.

(** ** Package [securitypolicy] *)

(** [strings.Join]. *)
Definition Join (elems : list string) (sep : string) : string :=
  String.concat sep elems.

Definition imageInWhitelist (isp : ImageSecurityPolicy) (image : string)
    : bool :=
  existsb (fun i => String.eqb i image) (ImageWhitelist isp).

Definition imageInGCR (projectID image : string) : bool :=
  let prefixes := ["gcr.io"; "asia.gcr.io"; "eu.gcr.io"; "us.gcr.io"] in
  existsb
    (fun p =>
       let fullPrefix := p +:+ "/" +:+ projectID +:+ "/" in
       String.prefix fullPrefix image)
    prefixes.

Definition cveInWhitelist (isp : ImageSecurityPolicy) (cve : string) : bool :=
  existsb (fun w => String.eqb w cve)
    (WhitelistCVEs (PackageVulnerabilityRequirements_ isp)).

Section Evaluator.
Context `{Imports} {W : Type} `{Services W}.

(** The body of [verifyArkSignature]: only the first JWT of the
    occurrence is ever looked at. *)
Definition verifyArkSignature (occ : OccurenceV1)
    : M W (option Token * option error) :=
  let keyPath := Getenv "ARKCI_KMS_SIGNER_KEY" in
  err ← perform (Call_KMSVerfiyKeyfunc keyPath) (KMSVerfiyKeyfunc keyPath);
  match err with
  | Some err => mret (None, Some err)
  | None =>
    match Jwts occ with
    | j :: _ =>
      '(token, err) ← perform (Call_jwt_Parse j) (jwt_Parse keyPath j);
      match err with
      | Some err => mret (None, Some err)
      | None =>
        if negb (Valid token)
        then mret (None, Some (errorString "token is not valid"))
        else mret (Some token, None)
      end
    | [] => mret (None, Some (errorString "no jwt found"))
    end
  end.

(** The loop over the fetched vulnerabilities (the [for _, v := range
    vulnz] of [ValidateImageSecurityPolicy]). *)
Fixpoint vulnzLoop (isp : ImageSecurityPolicy) (image : string)
    (maxSev maxNoFixSev : string) (vulnz : list Vulnerability)
    (violations : list Violation) : list Violation * option error :=
  match vulnz with
  | [] => (violations, None)
  | v :: vulnz' =>
    (* First, check if the vulnerability is whitelisted *)
    if cveInWhitelist isp (CVE v)
    then vulnzLoop isp image maxSev maxNoFixSev vulnz' violations
    else if negb (HasFixAvailable v) then
      match severityWithinThreshold maxNoFixSev (Severity v) with
      | (_, Some err) => (violations, Some err)
      | (true, None) =>
        vulnzLoop isp image maxSev maxNoFixSev vulnz' violations
      | (false, None) =>
        vulnzLoop isp image maxSev maxNoFixSev vulnz'
          (violations ++
           [{| vulnerability := Some v;
               vType := FixUnavailableViolation;
               reason := FixUnavailableReason image v isp |}])
      end
    else
      match severityWithinThreshold maxSev (Severity v) with
      | (_, Some err) => (violations, Some err)
      | (true, None) =>
        vulnzLoop isp image maxSev maxNoFixSev vulnz' violations
      | (false, None) =>
        vulnzLoop isp image maxSev maxNoFixSev vulnz'
          (violations ++
           [{| vulnerability := Some v;
               vType := SeverityViolation;
               reason := SeverityReason image v isp |}])
      end
  end.

(** The loop over the V1 occurrences: ArkCI signatures. *)
Fixpoint occsLoop (occs : list OccurenceV1) (violations : list Violation)
    (signedProjectID : string) : M W (list Violation * string) :=
  match occs with
  | [] => mret (violations, signedProjectID)
  | occ :: occs' =>
    if String.eqb (NoteName occ) (Getenv "ARKCI_SIGNATURE_NOTE") then
      '(token, err) ← verifyArkSignature occ;
      match err with
      | Some err =>
        occsLoop occs'
          (violations ++
           [NewViolation None ArkCISignatureViolation
              ("failed to verify ArkCI signature: " +:+ Error err)])
          signedProjectID
      | None =>
        match token with
        | None => panic
        | Some token =>
          match Claims token with
          | Some claims =>
            occsLoop occs' violations
              (match claims !! "gcp_project" with
               | Some (ClaimString s) => s
               | _ => ""
               end)
          | None => occsLoop occs' violations signedProjectID
          end
        end
      end
    else occsLoop occs' violations signedProjectID
  end.

(** The loop over [isp.Spec.BuiltProjectIDs]. *)
Fixpoint hasBuildProjectID (projectIDs : list string)
    (signedProjectID image : string) : bool :=
  match projectIDs with
  | [] => false
  | projectID :: projectIDs' =>
    if String.eqb projectID signedProjectID || imageInGCR projectID image
    then true
    else hasBuildProjectID projectIDs' signedProjectID image
  end.

(** The block "Check image namespace against BuiltProjectIDs". *)
Definition checkBuiltProjectIDs (isp : ImageSecurityPolicy) (image : string)
    (signedProjectID : string) (violations : list Violation)
    : list Violation :=
  if (0 <? length (BuiltProjectIDs isp))%nat then
    if negb (hasBuildProjectID (BuiltProjectIDs isp) signedProjectID image)
    then
      violations ++
      [NewViolation None BuildProjectIDViolation
         (quote image +:+ " doesn't come from a permitted GCR: [" +:+
          Join (BuiltProjectIDs isp) "," +:+ "]")]
    else violations
  else violations.

(** The inner loop of [hasRequiredAttestation], over the public keys of
    the attestor; [break] leaves it with [verified] set. *)
Fixpoint pubKeysLoop (image : string) (attestation : PGPAttestation)
    (pubKeys : list AttestorPublicKey) (verified : bool) : bool :=
  match pubKeys with
  | [] => verified
  | pubKey :: pubKeys' =>
    if String.eqb (ID pubKey) (KeyID attestation) then
      match VerifyAttestationSignature image (AsciiArmor pubKey)
              (Signature attestation) with
      | None => true
      | Some _ => pubKeysLoop image attestation pubKeys' verified
      end
    else pubKeysLoop image attestation pubKeys' verified
  end.

Fixpoint attestationsLoop (image : string) (attestor : Attestor)
    (attestations : list PGPAttestation) (verified : bool) : bool :=
  match attestations with
  | [] => verified
  | attestation :: attestations' =>
    attestationsLoop image attestor attestations'
      (pubKeysLoop image attestation (PublicKeys attestor) verified)
  end.

Definition hasRequiredAttestation (image : string) (attestor : Attestor)
    (attestations : list PGPAttestation) : bool * option error :=
  match NewAtomicContainerSig image with
  | Some err =>
    (false,
     Some (withMessage err
             ("failed to initialize attestation signature: " +:+ image)))
  | None => (attestationsLoop image attestor attestations false, None)
  end.

Definition requiredAttestationViolation (image required : string)
    : Violation :=
  NewViolation None RequiredAttestationViolation
    (quote image +:+ " doesn't have a required attestation: [" +:+
     required +:+ "]").

(** The loop over [isp.Spec.RequireAttestationsBy]. *)
Fixpoint requiredLoop (image : string) (attestorFetcher : AttestorFetcher W)
    (attestations : list PGPAttestation) (requireds : list string)
    (violations : list Violation) : M W (list Violation * option error) :=
  match requireds with
  | [] => mret (violations, None)
  | required :: requireds' =>
    '(requiredAttestor, err) ←
      perform (Call_GetAttestor required)
        (GetAttestor attestorFetcher required);
    match err with
    | Some err =>
      mret ([], Some (withMessage err
                        ("failed to get an attestor: " +:+ required)))
    | None =>
      match requiredAttestor with
      | None =>
        mret ([], Some (errorString ("attestor not found: " +:+ required)))
      | Some requiredAttestor =>
        match hasRequiredAttestation image requiredAttestor attestations with
        | (_, Some err) =>
          mret ([], Some (withMessage err
                   ("failed to check if required attestation exist: " +:+
                    image +:+ ", " +:+ required)))
        | (ok, None) =>
          requiredLoop image attestorFetcher attestations requireds'
            (if ok then violations
             else violations ++ [requiredAttestationViolation image required])
        end
      end
    end
  end.

(** The block "Check required attestations" at the end of
    [ValidateImageSecurityPolicy]. *)
Definition checkRequiredAttestations (isp : ImageSecurityPolicy)
    (image : string) (metadataFetcher : Fetcher W)
    (attestorFetcher : AttestorFetcher W) (violations : list Violation)
    : M W (list Violation * option error) :=
  if (0 <? length (RequireAttestationsBy isp))%nat then
    '(attestations, err) ←
      perform (Call_Attestations image)
        (Attestations metadataFetcher image);
    match err with
    | Some err => mret ([], Some err)
    | None =>
      requiredLoop image attestorFetcher attestations
        (RequireAttestationsBy isp) violations
    end
  else mret (violations, None).

(** What [ValidateImageSecurityPolicy] does once the loop over the
    vulnerabilities has ended without an error: the blocks "Check if
    image has ArkCI signature", "Check image namespace against
    BuiltProjectIDs" and "Check required attestations". *)
Definition checkProvenance (isp : ImageSecurityPolicy) (image : string)
    (metadataFetcher : Fetcher W) (attestorFetcher : AttestorFetcher W)
    (violations : list Violation) : M W (list Violation * option error) :=
  (* the error of the fetch is assigned and never read *)
  '(occs, _) ←
    perform (Call_OccurencesV1 image) (OccurencesV1 metadataFetcher image);
  '(violations, signedProjectID) ← occsLoop occs violations "";
  let violations :=
    checkBuiltProjectIDs isp image signedProjectID violations in
  checkRequiredAttestations isp image metadataFetcher attestorFetcher
    violations.

(** [ValidateImageSecurityPolicy] checks if an image satisfies ISP
    requirements. *)
Definition ValidateImageSecurityPolicy (isp : ImageSecurityPolicy)
    (image : string) (metadataFetcher : Fetcher W)
    (attestorFetcher : AttestorFetcher W)
    : M W (list Violation * option error) :=
  (* First, check if image is whitelisted *)
  if imageInWhitelist isp image then mret ([], None)
  else
    let violations : list Violation := [] in
    (* Next, check if image in qualified *)
    if negb (FullyQualifiedImage image) then
      mret (violations ++
            [{| vulnerability := None;
                vType := UnqualifiedImageViolation;
                reason := UnqualifiedImageReason image |}], None)
    else
      (* Now, check vulnz in the image *)
      '(vulnz, err) ←
        perform (Call_Vulnerabilities image)
          (Vulnerabilities metadataFetcher image);
      match err with
      | Some err => mret ([], Some err)
      | None =>
        let maxSev :=
          MaximumSeverity (PackageVulnerabilityRequirements_ isp) in
        let maxSev := if String.eqb maxSev "" then "CRITICAL" else maxSev in
        let maxNoFixSev :=
          MaximumFixUnavailableSeverity
            (PackageVulnerabilityRequirements_ isp) in
        let maxNoFixSev :=
          if String.eqb maxNoFixSev "" then "ALLOW_ALL" else maxNoFixSev in
        match vulnzLoop isp image maxSev maxNoFixSev vulnz violations with
        | (violations, Some err) => mret (violations, Some err)
        | (violations, None) =>
          checkProvenance isp image metadataFetcher attestorFetcher
            violations
        end
      end.
End Evaluator.

(** ** Package [review] *)

(** The interface [violation.Strategy]. *)
Record Strategy (W : Type) : Type := {
  HandleViolation :
    string -> option Pod -> list Violation -> Effect W (option error);
  HandleAttestation : string -> option Pod -> bool -> Effect W (option error)
}.
Arguments HandleViolation {W} s image pod violations.
Arguments HandleAttestation {W} s image pod isAttested.

Record Config (W : Type) : Type := {
  Validate :
    ImageSecurityPolicy -> string -> Fetcher W -> AttestorFetcher W ->
    M W (list Violation * option error);
  Secret :
    string -> string -> Effect W (option PGPSigningSecret * option error);
  Auths :
    string -> string -> Effect W (option AttestationAuthority * option error);
  Attestors : AttestorFetcher W;
  Strategy_ : Strategy W;
  ClusterWhitelistedImagesRemover :
    list string -> Effect W (list string * option error);
  IsWebhook : bool
}.
Arguments Validate {W} c isp image metadataFetcher attestorFetcher.
Arguments Secret {W} c namespace name.
Arguments Auths {W} c namespace name.
Arguments Attestors {W} c.
Arguments Strategy_ {W} c.
Arguments ClusterWhitelistedImagesRemover {W} c images.
Arguments IsWebhook {W} c.

Record Reviewer (W : Type) : Type := {
  config : Config W;
  client : Fetcher W
}.
Arguments config {W} r.
Arguments client {W} r.

Definition New {W} (client : Fetcher W) (c : Config W) : Reviewer W :=
  {| client := client; config := c |}.

Definition newline : string := String "010"%char EmptyString.

Section Review.
Context `{Imports} {W : Type}.

(** [fingerprint] returns the fingerprint and key from the base64
    encoded public key data. *)
Definition fingerprint (publicKeyData : string)
    : string * string * option error :=
  let '(publicData, err) := DecodeString publicKeyData in
  match err with
  | Some err => ("", "", Some err)
  | None =>
    let '(s, err) := NewPgpKey publicData in
    match err with
    | Some err => ("", "", Some err)
    | None => (publicData, s, None)
    end
  end.

(** [keys[fingerprint] = key] for every authority whose key parses. *)
Fixpoint keysByFingerprint (auths : list AttestationAuthority)
    (keys : gmap string string) : gmap string string :=
  match auths with
  | [] => keys
  | auth :: auths' =>
    let '(key, fp, err) := fingerprint (PublicKeyData auth) in
    match err with
    | Some _ => keysByFingerprint auths' keys
    | None => keysByFingerprint auths' (<[fp := key]> keys)
    end
  end.

Fixpoint verifyLoop (image : string) (keys : gmap string string)
    (attestations : list PGPAttestation) : bool :=
  match attestations with
  | [] => false
  | a :: attestations' =>
    match VerifyAttestationSignature image
            (default "" (keys !! KeyID a)) (Signature a) with
    | Some _ => verifyLoop image keys attestations'
    | None => true
    end
  end.

(** [hasValidImageAttestations] return true if any one image attestation
    is verified. *)
Definition hasValidImageAttestations (image : string)
    (attestations : list PGPAttestation)
    (auths : list AttestationAuthority) : bool :=
  match NewAtomicContainerSig image with
  | Some _ => false
  | None =>
    let keys := keysByFingerprint auths ∅ in
    verifyLoop image keys attestations
  end.

Definition getUnAttested (auths : list AttestationAuthority)
    (keys : gmap string string) (atts : list PGPAttestation)
    : list AttestationAuthority :=
  let m : gmap string bool :=
    fold_left (fun m a => <[KeyID a := true]> m) atts ∅ in
  fold_left
    (fun l a =>
       match m !! default "" (keys !! AuthorityName a) with
       | Some _ => l
       | None => l ++ [a]
       end)
    auths [].

(** [keys[auth.Name] = fingerprint] for every authority whose key
    parses. *)
Fixpoint fingerprintsByName (auths : list AttestationAuthority)
    (keys : gmap string string) : gmap string string :=
  match auths with
  | [] => keys
  | auth :: auths' =>
    let '(_, fp, err) := fingerprint (PublicKeyData auth) in
    match err with
    | Some _ => fingerprintsByName auths' keys
    | None => fingerprintsByName auths' (<[AuthorityName auth := fp]> keys)
    end
  end.

(** Modelled from the spec: [util.GetOrCreateAttestationNote], whose file
    is not modelled; it gets the backend note of the authority and creates
    it when there is none to get. *)
Definition GetOrCreateAttestationNote (c : Fetcher W)
    (a : option AttestationAuthority) : M W (option Note * option error) :=
  '(n, err) ← perform (Call_AttestationNote a) (AttestationNote c a);
  match err with
  | None => mret (n, None)
  | Some _ =>
    perform (Call_CreateAttestationNote a) (CreateAttestationNote c a)
  end.

Variable r : Reviewer W.

Fixpoint authoritiesLoop (isp : ImageSecurityPolicy) (names : list string)
    (auths : list AttestationAuthority)
    : M W (list AttestationAuthority * option error) :=
  match names with
  | [] => mret (auths, None)
  | aName :: names' =>
    '(a, err) ←
      perform (Call_Auths (Namespace isp) aName)
        (Auths (config r) (Namespace isp) aName);
    match err with
    | Some err =>
      mret ([], Some (withMessage err "faild to get attestation authorities"))
    | None =>
      match a with
      | None => panic
      | Some a => authoritiesLoop isp names' (auths ++ [a])
      end
    end
  end.

Definition getAttestationAuthoritiesForISP (isp : ImageSecurityPolicy)
    : M W (list AttestationAuthority * option error) :=
  authoritiesLoop isp (AttestationAuthorityNames isp) [].

Definition fetchAndVerifyAttestations (image : string)
    (auths : list AttestationAuthority) (pod : option Pod)
    : M W (bool * list PGPAttestation) :=
  '(attestations, err) ←
    perform (Call_Attestations image) (Attestations (client r) image);
  match err with
  | Some _ => mret (false, attestations)
  | None =>
    let isAttested := hasValidImageAttestations image attestations auths in
    _ ← perform (Call_HandleAttestation image pod isAttested)
          (HandleAttestation (Strategy_ (config r)) image pod isAttested);
    mret (isAttested, attestations)
  end.

Definition handleViolations (image : string) (pod : option Pod)
    (violations : list Violation) : M W error :=
  let violationSummaries := replicate (length violations) "" in
  let violationSummaries :=
    fold_left
      (fun l v => l ++ [ToString (vType v) +:+ ": " +:+ reason v])
      violations violationSummaries in
  let joinedSummaries :=
    newline +:+ Join violationSummaries ("," +:+ newline) +:+ newline in
  let errMsg :=
    "found violations in " +:+ quote image +:+ " (" +:+ joinedSummaries
    +:+ ")" in
  err ← perform (Call_HandleViolation image pod violations)
          (HandleViolation (Strategy_ (config r)) image pod violations);
  match err with
  | Some err =>
    mret (withMessage err ("failed to handle violation: " +:+ errMsg))
  | None => mret (errorString (Sprintf0 errMsg))
  end.

Definition appendErr (errMsgs : list string) (err : option error)
    : list string :=
  match err with
  | Some err => errMsgs ++ [Error err]
  | None => errMsgs
  end.

Fixpoint issueLoop (image : string) (isp : ImageSecurityPolicy)
    (u : list AttestationAuthority) (errMsgs : list string)
    : M W (list string) :=
  match u with
  | [] => mret errMsgs
  | a :: u' =>
    (* Get or Create Note for this this Authority *)
    '(n, err) ← GetOrCreateAttestationNote (client r) (Some a);
    let errMsgs := appendErr errMsgs err in
    (* Get secret for this Authority *)
    '(s, err) ←
      perform (Call_Secret (Namespace isp) (PrivateKeySecretName a))
        (Secret (config r) (Namespace isp) (PrivateKeySecretName a));
    let errMsgs := appendErr errMsgs err in
    (* Create Attestation Signature *)
    '(_, err) ←
      perform (Call_CreateAttestationOccurence n image s)
        (CreateAttestationOccurence (client r) n image s);
    let errMsgs := appendErr errMsgs err in
    issueLoop image isp u' errMsgs
  end.

Definition addAttestations (image : string) (atts : list PGPAttestation)
    (isp : ImageSecurityPolicy) : M W (option error) :=
  (* Get all AttestationAuthorities in this policy. *)
  '(auths, err) ← getAttestationAuthoritiesForISP isp;
  match err with
  | Some err => mret (Some err)
  | None =>
    if (length auths =? 0)%nat then
      mret (Some (errorString
        ("no attestation authorities configured for security policy "
         +:+ quote (Name isp))))
    else
      let keys := fingerprintsByName auths ∅ in
      (* Get all AttestationAuthorities which have not attested the
         image. *)
      let u := getUnAttested auths keys atts in
      if (length u =? 0)%nat then mret None
      else
        errMsgs ← issueLoop image isp u [];
        if (length errMsgs =? 0)%nat then mret None
        else
          mret (Some (errorString
            ("one or more errors adding attestations: [" +:+
             Join errMsgs " " +:+ "]")))
  end.

(** The loop over the images of [Review] for one policy.  [Some err]
    stands for [return err] out of [Review], [None] for the end of the
    loop. *)
Fixpoint imagesLoop (isp : ImageSecurityPolicy)
    (auths : list AttestationAuthority) (pod : option Pod)
    (images : list string) : M W (option error) :=
  match images with
  | [] => mret None
  | image :: images' =>
    '(isAttested, attestations) ←
      fetchAndVerifyAttestations image auths pod;
    (* Skip check for Webhook if attestations found. *)
    if isAttested && IsWebhook (config r)
    then imagesLoop isp auths pod images'
    else
      '(violations, err) ←
        invoke (Call_Validate isp image)
          (Validate (config r) isp image (client r) (Attestors (config r)));
      match err with
      | Some err =>
        mret (Some (withMessage err
                      "failed validating image security policy"))
      | None =>
        if negb (length violations =? 0)%nat then
          err ← handleViolations image pod violations;
          mret (Some err)
        else
          _ ← (if IsWebhook (config r)
               then addAttestations image attestations isp
               else mret None);
          imagesLoop isp auths pod images'
      end
  end.

Fixpoint ispsLoop (images : list string) (pod : option Pod)
    (isps : list ImageSecurityPolicy) : M W (option error) :=
  match isps with
  | [] => mret None
  | isp :: isps' =>
    (* Get all AttestationAuthorities in this policy. *)
    '(auths, err) ← getAttestationAuthoritiesForISP isp;
    match err with
    | Some err => mret (Some err)
    | None =>
      ret ← imagesLoop isp auths pod images;
      match ret with
      | Some err => mret (Some err)
      | None => ispsLoop images pod isps'
      end
    end
  end.

(** [Review] reviews a set of images against a set of policies. *)
Definition Review (images : list string) (isps : list ImageSecurityPolicy)
    (pod : option Pod) : M W (option error) :=
  if (length isps =? 0)%nat then mret None
  else
    let images := RemoveGloballyWhitelistedImages images in
    if (length images =? 0)%nat then mret None
    else
      '(images, err) ←
        perform (Call_ClusterWhitelistedImagesRemover images)
          (ClusterWhitelistedImagesRemover (config r) images);
      match err with
      | Some err => mret (Some err)
      | None =>
        if (length images =? 0)%nat then mret None
        else ispsLoop images pod isps
      end.
End Review.

(** ** Package [testutil] *)

(** The test double of the metadata backend.  Its field [Build] and its
    method [Builds], which nothing above calls, are left out; [Occ] is
    [None] while the Go map is nil. *)
Record MockMetadataClient : Type := {
  Vulnz : list Vulnerability;
  PGPAttestations : list PGPAttestation;
  Occ : option (gmap string string)
}.

Module Mock.
Definition Vulnerabilities (containerImage : string)
    : Effect MockMetadataClient (list Vulnerability * option error) :=
  fun m => (Done (Vulnz m, None), m).

Definition CreateAttestationOccurence (n : option Note) (image : string)
    (s : option PGPSigningSecret)
    : Effect MockMetadataClient (option string * option error) :=
  fun m =>
    let occ := default ∅ (Occ m) in
    match n, s with
    | Some n, Some s =>
      (Done (None, None),
       {| Vulnz := Vulnz m;
          PGPAttestations := PGPAttestations m;
          Occ := Some (<[image +:+ "-" +:+ NoteName_ n := SecretName s]>
                         occ) |})
    | _, _ =>
      (Panic,
       {| Vulnz := Vulnz m;
          PGPAttestations := PGPAttestations m;
          Occ := Some occ |})
    end.

Definition AttestationNote (aa : option AttestationAuthority)
    : Effect MockMetadataClient (option Note * option error) :=
  fun m =>
    match aa with
    | None => (Done (None, Some (errorString "could not get note")), m)
    | Some aa => (Done (Some {| NoteName_ := NoteReference aa |}, None), m)
    end.

Definition CreateAttestationNote (aa : option AttestationAuthority)
    : Effect MockMetadataClient (option Note * option error) :=
  fun m =>
    match aa with
    | None => (Panic, m)
    | Some aa => (Done (Some {| NoteName_ := NoteReference aa |}, None), m)
    end.

Definition Attestations (containerImage : string)
    : Effect MockMetadataClient (list PGPAttestation * option error) :=
  fun m => (Done (PGPAttestations m, None), m).

Definition OccurencesV1 (containerImage : string)
    : Effect MockMetadataClient (list OccurenceV1 * option error) :=
  fun m => (Done ([], None), m).

(** [*MockMetadataClient] implements [metadata.Fetcher]. *)
Definition fetcher : Fetcher MockMetadataClient :=
  Build_Fetcher MockMetadataClient Vulnerabilities OccurencesV1
    Attestations AttestationNote CreateAttestationNote
    CreateAttestationOccurence.
End Mock.

(** The client [NilFetcher] hands out. *)
Definition NilFetcher : MockMetadataClient :=
  {| Vulnz := []; PGPAttestations := []; Occ := None |}.

(** ** Package [containeranalysis] *)

(** [strings.Split s sep] for a separator of one byte. *)
Fixpoint Split (s : string) (sep : ascii) : list string :=
  match s with
  | EmptyString => [""]
  | String c s' =>
    if Ascii.eqb c sep then "" :: Split s' sep
    else
      match Split s' sep with
      | head :: tail => String c head :: tail
      | [] => [String c ""]
      end
  end.

Definition isRegistryGCR (r : string) : bool :=
  let registry := Split r "."%char in
  if (length registry <? 2)%nat then false
  else if negb (String.eqb (nth (length registry - 2) registry "") "gcr")
          || negb (String.eqb (nth (length registry - 1) registry "") "io")
  then false
  else true.

Definition getProjectFromNoteReference (ref : string)
    : string * option error :=
  let str := Split ref "/"%char in
  if (length str <? 3)%nat then
    ("",
     Some (errorString
       "invalid note reference. should be in format <api>/projects/<project_id>"))
  else (nth 2 str "", None).

Definition getProjectFromContainerImage (image : string) : string :=
  let tok := Split image "/"%char in
  if (length tok <? 2)%nat then "" else nth 1 tok "".

(** Container Analysis Library Specific Constants. *)
Definition PkgVulnerability : string := "PACKAGE_VULNERABILITY".
Definition AttestationAuthorityKind : string := "ATTESTATION_AUTHORITY".

(** The requests the client sends. *)
Module grafeas.
Record ListOccurrencesRequest : Type := {
  Filter : string;
  PageSize : Z;
  Parent : string
}.

(** The fields of a note and of its authority hint that the client sets. *)
Record NoteSpec : Type := {
  Name : string;
  ShortDescription : string;
  LongDescription : string;
  HumanReadableName : string
}.

Record CreateNoteRequest : Type := {
  Note : NoteSpec;
  NoteId : string;
  NoteParent : string
}.

(** The fields of an attestation occurrence that the client sets; the
    content type is always simple signing JSON. *)
Record OccurrenceSpec : Type := {
  Resource : string;
  NoteName : string;
  Signature : string;
  PgpKeyId : string
}.

Record CreateOccurrenceRequest : Type := {
  Occurrence : OccurrenceSpec;
  OccurrenceParent : string
}.
End grafeas.

(** What the client is built on: functions of packages that are not
    modelled, and the calls of the two generated API clients.  An
    occurrence iterator is given by the occurrences it yields and the error
    that ends it, nil for [iterator.Done]. *)
Class Backend (W : Type) : Type := {
  Occurrence : Type;
  Build : Type;
  (** [name.ParseReference image name.WeakValidation] followed by
      [Context().RegistryStr()]. *)
  ParseReference : string -> string * option error;
  (** [util.GetResourceURL] and [util.GetResource]. *)
  GetResourceURL : string -> string;
  GetResource : string -> string;
  (** [constants.PageSize]. *)
  PageSize : Z;
  (** The namespace of an authority object. *)
  AuthorityNamespace : AttestationAuthority -> string;
  GetVulnerabilityFromOccurrence : Occurrence -> option Vulnerability;
  GetPgpAttestationFromOccurrence : Occurrence -> PGPAttestation;
  GetBuildFromOccurrence : Occurrence -> option Build;
  GetAttestationKeyFingerprint : option PGPSigningSecret -> string;
  CreateAttestationSignature :
    string -> option PGPSigningSecret -> string * option error;
  ListOccurrences :
    grafeas.ListOccurrencesRequest ->
    Effect W (list Occurrence * option error);
  (** [Projects.Occurrences.List parent] with a filter and a page size:
      the response, if any, is its list of occurrences. *)
  ListOccurrencesV1 :
    string -> string -> Z ->
    Effect W (option (list OccurenceV1) * option error);
  CreateNote : grafeas.CreateNoteRequest -> Effect W (option Note * option error);
  GetNote : string -> Effect W (option Note * option error);
  CreateOccurrence :
    grafeas.CreateOccurrenceRequest -> Effect W (option string * option error);
  DeleteNote : string -> Effect W (option error);
  DeleteOccurrence : string -> Effect W (option error)
}.

Module Client.
Section Methods.
Context `{Imports} {W : Type} `{Backend W}.

Definition isValidImageOnGCR (containerImage : string) : bool :=
  let '(registry, err) := ParseReference containerImage in
  match err with
  | Some _ => false
  | None => isRegistryGCR registry
  end.

(** The loop over [it.Next()]. *)
Fixpoint nextLoop (pending : list Occurrence) (ending : option error)
    (occs : list Occurrence) : list Occurrence * option error :=
  match pending with
  | [] =>
    match ending with
    | None => (occs, None)
    | Some err => ([], Some err)
    end
  | occ :: pending' => nextLoop pending' ending (occs ++ [occ])
  end.

Definition fetchOccurrence (containerImage kind : string)
    : Effect W (list Occurrence * option error) :=
  fun w =>
    (* Make sure container image valid and is a GCR image *)
    if negb (isValidImageOnGCR containerImage) then
      (Done ([], Some (errorString
                (quote containerImage +:+
                 " is not a valid image hosted in GCR"))), w)
    else
      let req :=
        {| grafeas.Filter :=
             "resource_url=" +:+ quote (GetResourceURL containerImage) +:+
             " AND kind=" +:+ quote kind;
           grafeas.PageSize := PageSize;
           grafeas.Parent :=
             "projects/" +:+ getProjectFromContainerImage containerImage |} in
      match ListOccurrences req w with
      | (Done (pending, ending), w') => (Done (nextLoop pending ending []), w')
      | (Panic, w') => (Panic, w')
      end.

Fixpoint vulnzOf (occs : list Occurrence) (vulnz : list Vulnerability)
    : list Vulnerability :=
  match occs with
  | [] => vulnz
  | occ :: occs' =>
    match GetVulnerabilityFromOccurrence occ with
    | Some v => vulnzOf occs' (vulnz ++ [v])
    | None => vulnzOf occs' vulnz
    end
  end.

(** [Vulnerabilities] gets Package Vulnerabilities Occurrences for a
    specified image. *)
Definition Vulnerabilities (containerImage : string)
    : Effect W (list Vulnerability * option error) :=
  fun w =>
    match fetchOccurrence containerImage PkgVulnerability w with
    | (Done (_, Some err), w') => (Done ([], Some err), w')
    | (Done (occs, None), w') => (Done (vulnzOf occs [], None), w')
    | (Panic, w') => (Panic, w')
    end.

(** [Attestations] gets AttesationAuthority Occurrences for a specified
    image. *)
Definition Attestations (containerImage : string)
    : Effect W (list PGPAttestation * option error) :=
  fun w =>
    match fetchOccurrence containerImage AttestationAuthorityKind w with
    | (Done (_, Some err), w') => (Done ([], Some err), w')
    | (Done (occs, None), w') =>
      (Done (map GetPgpAttestationFromOccurrence occs, None), w')
    | (Panic, w') => (Panic, w')
    end.

(** [OccurencesV1] gets V1 Occurrences for a specified image. *)
Definition OccurencesV1 (containerImage : string)
    : Effect W (list OccurenceV1 * option error) :=
  fun w =>
    match ListOccurrencesV1
            ("projects/" +:+ getProjectFromContainerImage containerImage)
            ("resource_url=" +:+ quote (GetResourceURL containerImage))
            PageSize w with
    | (Done (_, Some err), w') => (Done ([], Some err), w')
    | (Done (Some occurrences, None), w') => (Done (occurrences, None), w')
    | (Done (None, None), w') => (Panic, w')
    | (Panic, w') => (Panic, w')
    end.

(** [CreateAttestationNote] creates an attestation note from
    AttestationAuthority. *)
Definition CreateAttestationNote (aa : option AttestationAuthority)
    : Effect W (option Note * option error) :=
  fun w =>
    match aa with
    | None => (Panic, w)
    | Some aa =>
      let '(noteProject, err) :=
        getProjectFromNoteReference (NoteReference aa) in
      match err with
      | Some err => (Done (None, Some err), w)
      | None =>
        let note :=
          {| grafeas.Name :=
               "projects/" +:+ noteProject +:+ "/notes/" +:+ AuthorityName aa;
             grafeas.ShortDescription :=
               Sprintf0 "Image Policy Security Attestor";
             grafeas.LongDescription :=
               "Image Policy Security Attestor deployed in " +:+
               AuthorityNamespace aa +:+ " namespace";
             grafeas.HumanReadableName := AuthorityName aa |} in
        CreateNote
          {| grafeas.Note := note;
             grafeas.NoteId := AuthorityName aa;
             grafeas.NoteParent := "projects/" +:+ noteProject |} w
      end
    end.

(** [AttestationNote] returns a note if it exists for given
    AttestationAuthority. *)
Definition AttestationNote (aa : option AttestationAuthority)
    : Effect W (option Note * option error) :=
  fun w =>
    match aa with
    | None => (Panic, w)
    | Some aa =>
      let '(noteProject, err) :=
        getProjectFromNoteReference (NoteReference aa) in
      match err with
      | Some err => (Done (None, Some err), w)
      | None =>
        GetNote
          ("projects/" +:+ noteProject +:+ "/notes/" +:+ AuthorityName aa) w
      end
    end.

(** [CreateAttestationOccurence] creates an Attestation occurrence for a
    given image and secret. *)
Definition CreateAttestationOccurence (note : option Note)
    (containerImage : string) (pgpSigningKey : option PGPSigningSecret)
    : Effect W (option string * option error) :=
  fun w =>
    if negb (isValidImageOnGCR containerImage) then
      (Done (None, Some (errorString
                (quote containerImage +:+
                 " is not a valid image hosted in GCR"))), w)
    else
      let fingerprint := GetAttestationKeyFingerprint pgpSigningKey in
      (* Create Attestation Signature *)
      let '(sig, err) :=
        CreateAttestationSignature containerImage pgpSigningKey in
      match err with
      | Some err => (Done (None, Some err), w)
      | None =>
        let occ :=
          {| grafeas.Resource := GetResource containerImage;
             grafeas.NoteName :=
               match note with Some n => NoteName_ n | None => "" end;
             grafeas.Signature := sig;
             grafeas.PgpKeyId := fingerprint |} in
        (* Call create Occurrence Api *)
        CreateOccurrence
          {| grafeas.Occurrence := occ;
             grafeas.OccurrenceParent :=
               "projects/" +:+ getProjectFromContainerImage containerImage |}
          w
      end.

Fixpoint buildsOf (occs : list Occurrence) (builds : list Build)
    : list Build :=
  match occs with
  | [] => builds
  | occ :: occs' =>
    match GetBuildFromOccurrence occ with
    | Some v => buildsOf occs' (builds ++ [v])
    | None => buildsOf occs' builds
    end
  end.

(** [Builds] gets Build Occurrences for a specified image. *)
Definition Builds (containerImage : string)
    : Effect W (list Build * option error) :=
  fun w =>
    match fetchOccurrence containerImage "BUILD" w with
    | (Done (_, Some err), w') => (Done ([], Some err), w')
    | (Done (occs, None), w') => (Done (buildsOf occs [], None), w')
    | (Panic, w') => (Panic, w')
    end.

(** [DeleteAttestationNote] deletes a note for given
    AttestationAuthority. *)
Definition DeleteAttestationNote (aa : option AttestationAuthority)
    : Effect W (option error) :=
  fun w =>
    match aa with
    | None => (Panic, w)
    | Some aa =>
      let '(noteProject, err) :=
        getProjectFromNoteReference (NoteReference aa) in
      match err with
      | Some err => (Done (Some err), w)
      | None =>
        DeleteNote
          ("projects/" +:+ noteProject +:+ "/notes/" +:+ AuthorityName aa) w
      end
    end.

(** [Client] implements the [Fetcher] interface. *)
Definition fetcher : Fetcher W :=
  Build_Fetcher W Vulnerabilities OccurencesV1 Attestations AttestationNote
    CreateAttestationNote CreateAttestationOccurence.
End Methods.
End Client.

(** ** Vocabulary of the specification *)

Section Vocabulary.
Context `{Imports} {W : Type} `{Services W}.

(** A lattice level is a key of the severity table. *)
Definition isLevel (s : string) : bool :=
  match Severity_value s with Some _ => true | None => false end.

(** What one vulnerability adds to the outcome of the scan. *)
Inductive Verdict : Type :=
| NoViolation
| OneViolation (v : Violation)
| FatalError (e : error).

(** The thresholds after defaulting. *)
Definition maximumSeverity (isp : ImageSecurityPolicy) : string :=
  let m := MaximumSeverity (PackageVulnerabilityRequirements_ isp) in
  if String.eqb m "" then "CRITICAL" else m.

Definition maximumFixUnavailableSeverity (isp : ImageSecurityPolicy)
    : string :=
  let m :=
    MaximumFixUnavailableSeverity (PackageVulnerabilityRequirements_ isp) in
  if String.eqb m "" then constants.AllowAll else m.

(** The threshold a vulnerability is compared against. *)
Definition thresholdFor (isp : ImageSecurityPolicy) (v : Vulnerability)
    : string :=
  if HasFixAvailable v then maximumSeverity isp
  else maximumFixUnavailableSeverity isp.

Definition violationFor (isp : ImageSecurityPolicy) (image : string)
    (v : Vulnerability) : Violation :=
  if HasFixAvailable v then
    {| vulnerability := Some v; vType := SeverityViolation;
       reason := SeverityReason image v isp |}
  else
    {| vulnerability := Some v; vType := FixUnavailableViolation;
       reason := FixUnavailableReason image v isp |}.

(** Step 3 of the evaluator as the specification words it: a whitelisted
    CVE is skipped; otherwise the severity is compared against the
    threshold of the vulnerability, a threshold error is fatal, a severity
    within the threshold is skipped, any other is a violation. *)
Definition contribution (isp : ImageSecurityPolicy) (image : string)
    (v : Vulnerability) : Verdict :=
  if bool_decide (CVE v ∈
       WhitelistCVEs (PackageVulnerabilityRequirements_ isp))
  then NoViolation
  else
    match severityWithinThreshold (thresholdFor isp v) (Severity v) with
    | (_, Some e) => FatalError e
    | (true, None) => NoViolation
    | (false, None) => OneViolation (violationFor isp image v)
    end.

(** The vulnerabilities in fetch order, up to the first fatal error. *)
Fixpoint process (isp : ImageSecurityPolicy) (image : string)
    (vulnz : list Vulnerability) (violations : list Violation)
    : list Violation * option error :=
  match vulnz with
  | [] => (violations, None)
  | v :: vulnz' =>
    match contribution isp image v with
    | NoViolation => process isp image vulnz' violations
    | OneViolation x => process isp image vulnz' (violations ++ [x])
    | FatalError e => (violations, Some e)
    end
  end.

(** How the evaluator goes on from the outcome of the scan. *)
Definition afterScan (isp : ImageSecurityPolicy) (image : string)
    (metadataFetcher : Fetcher W) (attestorFetcher : AttestorFetcher W)
    (scan : list Violation * option error)
    : M W (list Violation * option error) :=
  match scan with
  | (violations, Some err) => mret (violations, Some err)
  | (violations, None) =>
    checkProvenance isp image metadataFetcher attestorFetcher violations
  end.

(** The state after a logged call that left the world as [w]. *)
Definition after (st : State W) (cs : list Call) (w : W) : State W :=
  mkState w (calls st ++ cs).

(** The number of violations of one kind. *)
Definition countKind (k : ViolationType) (violations : list Violation)
    : nat :=
  length (List.filter (fun v => ViolationType_eqb (vType v) k) violations).

(** The registry host of a zone; the empty zone is the bare host. *)
Definition zoneHost (zone : string) : string :=
  if String.eqb zone "" then "gcr.io" else zone +:+ ".gcr.io".

Definition startsWith (s p : string) : Prop := ∃ rest, s = p +:+ rest.

Definition isInRegistry (projectID image : string) : Prop :=
  ∃ zone, In zone [""; "asia"; "eu"; "us"] ∧
    startsWith image (zoneHost zone +:+ "/" +:+ projectID +:+ "/").

(** No entry of the list admits the image. *)
Definition noEntryAdmits (projectIDs : list string)
    (signedProjectID image : string) : Prop :=
  ∀ E, In E projectIDs → E ≠ signedProjectID ∧ ¬ isInRegistry E image.

(** Calling [GetAttestor] on the names in order: [Done true] when every
    call yields an attestor and no error, [Done false] when the first call
    that does not do so yields an error or no attestor. *)
Fixpoint allResolve (attestorFetcher : AttestorFetcher W)
    (names : list string) (w : W) : outcome bool :=
  match names with
  | [] => Done true
  | name :: names' =>
    match GetAttestor attestorFetcher name w with
    | (Done (Some _, None), w') => allResolve attestorFetcher names' w'
    | (Done _, _) => Done false
    | (Panic, _) => Panic
    end
  end.
End Vocabulary.

(** ** Vocabulary of further properties *)

(** The number of occurrences of a byte in a string. *)
Fixpoint countByte (c : ascii) (s : string) : nat :=
  match s with
  | EmptyString => 0
  | String x s' => (if Ascii.eqb x c then 1 else 0) + countByte c s'
  end.

(** A computation [appends P] when it leaves the calls logged so far in
    place and adds only calls that satisfy [P]. *)
Definition appends {W A} (P : Call → Prop) (m : M W A) : Prop :=
  ∀ st r st', m st = (r, st') →
    ∃ extra, calls st' = calls st ++ extra ∧ Forall P extra.

(** The stage of the evaluator a kind of violation comes from. *)
Definition phase (t : ViolationType) : nat :=
  match t with
  | UnqualifiedImageViolation => 0
  | FixUnavailableViolation | SeverityViolation => 1
  | ArkCISignatureViolation => 2
  | BuildProjectIDViolation => 3
  | RequiredAttestationViolation => 4
  end.

Definition inPhaseOrder (violations : list Violation) : Prop :=
  StronglySorted (λ a b, phase (vType a) ≤ phase (vType b))%nat violations.

(** In phase order, with no violation of a phase after [k]. *)
Definition orderedUpTo (k : nat) (violations : list Violation) : Prop :=
  inPhaseOrder violations
  ∧ Forall (λ v, phase (vType v) ≤ k)%nat violations.

(** The kinds of violation the scan of the vulnerabilities records. *)
Definition isScanViolation (v : Violation) : Prop :=
  vType v = SeverityViolation ∨ vType v = FixUnavailableViolation.

(** The calls the evaluator may make for a policy and an image. *)
Definition evaluatorCall (isp : ImageSecurityPolicy) (image : string)
    (c : Call) : Prop :=
  match c with
  | Call_Vulnerabilities i | Call_OccurencesV1 i => i = image
  | Call_Attestations i => i = image ∧ RequireAttestationsBy isp ≠ []
  | Call_GetAttestor name => In name (RequireAttestationsBy isp)
  | Call_KMSVerfiyKeyfunc _ | Call_jwt_Parse _ => True
  | _ => False
  end.

Definition isValidateCall (c : Call) : Prop :=
  match c with Call_Validate _ _ => True | _ => False end.

(** The calls that issue an attestation: note, secret and occurrence. *)
Definition isIssuingCall (c : Call) : Prop :=
  match c with
  | Call_AttestationNote _ | Call_CreateAttestationNote _
  | Call_Secret _ _ | Call_CreateAttestationOccurence _ _ _ => True
  | _ => False
  end.

(** The error of the client for an image it does not take for a GCR
    image. *)
Definition notOnGCR `{Imports} (image : string) : error :=
  errorString (quote image +:+ " is not a valid image hosted in GCR").

(** The calls with which the reviewer resolves authorities, filters the
    images, fetches attestations and reports to the strategy. *)
Definition isBookkeepingCall (c : Call) : Prop :=
  match c with
  | Call_Attestations _ | Call_HandleAttestation _ _ _
  | Call_HandleViolation _ _ _ | Call_Auths _ _
  | Call_ClusterWhitelistedImagesRemover _ => True
  | _ => False
  end.

(** A validation, if the call is one, is of one of the policies for one of
    the images. *)
Definition validatesOnly (isps : list ImageSecurityPolicy)
    (images : list string) (c : Call) : Prop :=
  match c with
  | Call_Validate isp image => In isp isps ∧ In image images
  | _ => True
  end.

Definition countCreateOccurrence (cs : list Call) : nat :=
  length (List.filter
            (fun c => match c with
                      | Call_CreateAttestationOccurence _ _ _ => true
                      | _ => false
                      end) cs).

(** ** A concrete setting

    Imported functions and a backend with fixed answers, for running the
    definitions on examples. *)

Module Example.
Definition dquote : string := String "034"%char EmptyString.

(** The table of the generated severity enum. *)
Definition severityTable (s : string) : option Z :=
  if String.eqb s "SEVERITY_UNSPECIFIED" then Some 0%Z
  else if String.eqb s "MINIMAL" then Some 1%Z
  else if String.eqb s "LOW" then Some 2%Z
  else if String.eqb s "MEDIUM" then Some 3%Z
  else if String.eqb s "HIGH" then Some 4%Z
  else if String.eqb s "CRITICAL" then Some 5%Z
  else None.

(** An image counts as fully qualified when it names a digest. *)
Definition namesDigest (image : string) : bool :=
  match String.index 0 "@sha256:" image with
  | Some _ => true
  | None => false
  end.

(** A signature verifies against a non-empty key when it is the text
    [sig(key,image)]. *)
Definition verifies (image key sig : string) : option error :=
  if negb (String.eqb key "")
     && String.eqb sig ("sig(" +:+ key +:+ "," +:+ image +:+ ")")
  then None
  else Some (errorString "signature does not verify").

Definition imports : Imports :=
  {| Severity_value := severityTable;
     FullyQualifiedImage := namesDigest;
     quote := fun s => dquote +:+ s +:+ dquote;
     Sprintf0 := fun s => s;
     UnqualifiedImageReason := fun image =>
       image +:+ " is not fully qualified";
     FixUnavailableReason := fun image v _ =>
       "found unfixable CVE " +:+ CVE v +:+ " in " +:+ image;
     SeverityReason := fun image v _ =>
       "found CVE " +:+ CVE v +:+ " in " +:+ image;
     ToString := fun t =>
       match t with
       | UnqualifiedImageViolation => "UnqualifiedImageViolation"
       | FixUnavailableViolation => "FixUnavailableViolation"
       | SeverityViolation => "SeverityViolation"
       | ArkCISignatureViolation => "ArkCISignatureViolation"
       | BuildProjectIDViolation => "BuildProjectIDViolation"
       | RequiredAttestationViolation => "RequiredAttestationViolation"
       end;
     Getenv := fun name =>
       if String.eqb name "ARKCI_SIGNATURE_NOTE"
       then "projects/ark/notes/ci" else "projects/ark/keys/signer";
     NewAtomicContainerSig := fun image =>
       if namesDigest image then None
       else Some (errorString "image has no digest");
     VerifyAttestationSignature := verifies;
     RemoveGloballyWhitelistedImages := fun images => images;
     DecodeString := fun s =>
       if String.eqb s "" then ("", Some (errorString "illegal base64 data"))
       else (s, None);
     NewPgpKey := fun publicKey => ("fp:" +:+ publicKey, None) |}.

(** A backend, an attestor registry and a cluster whose answers are
    fixed; [issued] collects the attestations created. *)
Record World : Type := {
  vulnz : list Vulnerability * option error;
  occs : list OccurenceV1 * option error;
  atts : list PGPAttestation * option error;
  attestors : list Attestor;
  authorities : list AttestationAuthority;
  issued : list (string * string)
}.

Definition fetcher : Fetcher World :=
  {| Vulnerabilities := fun _ w => (Done (vulnz w), w);
     OccurencesV1 := fun _ w => (Done (occs w), w);
     Attestations := fun _ w => (Done (atts w), w);
     AttestationNote := fun aa w =>
       (Done (option_map (fun a => {| NoteName_ := NoteReference a |}) aa,
              None), w);
     CreateAttestationNote := fun aa w =>
       (Done (option_map (fun a => {| NoteName_ := NoteReference a |}) aa,
              None), w);
     CreateAttestationOccurence := fun n image s w =>
       (Done (None, None),
        {| vulnz := vulnz w; occs := occs w; atts := atts w;
           attestors := attestors w; authorities := authorities w;
           issued :=
             issued w ++
             [(image, match n with Some n => NoteName_ n | None => "" end)]
        |}) |}.

(** An attestor that is not registered is reported as no attestor and no
    error. *)
Definition attestorFetcher : AttestorFetcher World :=
  {| GetAttestor := fun name w =>
       (Done (List.find (fun a => String.eqb (AttestorName a) name)
                (attestors w), None), w) |}.

(** The key service accepts every key path; a compact JWT parses to a
    valid token claiming its own text as project, the empty one does not
    parse. *)
Definition services : Services World :=
  {| KMSVerfiyKeyfunc := fun _ w => (Done None, w);
     jwt_Parse := fun _ j w =>
       if String.eqb j ""
       then (Done ({| Valid := false; Claims := None |},
                   Some (errorString "token is malformed")), w)
       else (Done ({| Valid := true;
                      Claims := Some {[ "gcp_project" := ClaimString j ]} |},
                   None), w) |}.

Definition strategy : Strategy World :=
  {| HandleViolation := fun _ _ _ w => (Done None, w);
     HandleAttestation := fun _ _ _ w => (Done None, w) |}.

Definition config (isWebhook : bool) : Config World :=
  {| Validate :=
       @ValidateImageSecurityPolicy imports World services;
     Secret := fun _ name w =>
       (Done (Some {| SecretName := name |}, None), w);
     Auths := fun _ name w =>
       match List.find (fun a => String.eqb (AuthorityName a) name)
               (authorities w) with
       | Some a => (Done (Some a, None), w)
       | None =>
         (Done (None, Some (errorString "authority not found")), w)
       end;
     Attestors := attestorFetcher;
     Strategy_ := strategy;
     ClusterWhitelistedImagesRemover := fun images w =>
       (Done (images, None), w);
     IsWebhook := isWebhook |}.

Definition reviewer (isWebhook : bool) : Reviewer World :=
  New fetcher (config isWebhook).

(** A policy that only lists what it is given. *)
Definition isp (whitelist : list string) (maxSev maxNoFixSev : string)
    (cves builtProjectIDs requireds authorityNames : list string)
    : ImageSecurityPolicy :=
  {| Name := "my-isp";
     Namespace := "default";
     ImageWhitelist := whitelist;
     PackageVulnerabilityRequirements_ :=
       {| MaximumSeverity := maxSev;
          MaximumFixUnavailableSeverity := maxNoFixSev;
          WhitelistCVEs := cves |};
     BuiltProjectIDs := builtProjectIDs;
     RequireAttestationsBy := requireds;
     AttestationAuthorityNames := authorityNames |}.

Definition image : string := "gcr.io/kritis/nginx@sha256:0123abcd".

Definition quiet : World :=
  {| vulnz := ([], None); occs := ([], None); atts := ([], None);
     attestors := []; authorities := []; issued := [] |}.

Definition start {W} (w : W) : State W := mkState w [].

(** The policy with every field empty. *)
Definition defaultISP : ImageSecurityPolicy := isp [] "" "" [] [] [] [].

Definition vuln (cve severity : string) (hasFix : bool) : Vulnerability :=
  {| Severity := severity; HasFixAvailable := hasFix; CVE := cve |}.

(** A backend that reports the given vulnerabilities and nothing else. *)
Definition reporting (vs : list Vulnerability) : World :=
  {| vulnz := (vs, None); occs := ([], None); atts := ([], None);
     attestors := []; authorities := []; issued := [] |}.

(** A backend whose V1 occurrence listing fails. *)
Definition occurrencesDown : World :=
  {| vulnz := ([], None);
     occs := ([], Some (errorString "rpc error: code = Unavailable"));
     atts := ([], None);
     attestors := []; authorities := []; issued := [] |}.

(** A backend without data next to a registry of the given attestors. *)
Definition registering (registered : list Attestor) : World :=
  {| vulnz := ([], None); occs := ([], None); atts := ([], None);
     attestors := registered; authorities := []; issued := [] |}.

Definition buildBot : Attestor :=
  {| AttestorName := "build-bot";
     PublicKeys := [{| ID := "fp:bot"; AsciiArmor := "bot" |}] |}.

(** The policy that requires an attestation by [build-bot]. *)
Definition requiringBuildBot : ImageSecurityPolicy :=
  isp [] "" "" [] [] ["build-bot"] [].

(** The policy that admits images built by the project [trusted]. *)
Definition builtByTrusted : ImageSecurityPolicy :=
  isp [] "" "" [] ["trusted"] [] [].

(** An authority of the cluster with public key [key1]. *)
Definition authority1 : AttestationAuthority :=
  {| AuthorityName := "authority1";
     NoteReference := "v1beta1/projects/kritis";
     PrivateKeySecretName := "secret1";
     PublicKeyData := "key1" |}.

(** The policy whose only authority is [authority1]. *)
Definition trustingAuthority1 : ImageSecurityPolicy :=
  isp [] "" "" [] [] [] ["authority1"].

(** A cluster with [authority1] and a backend holding one attestation of
    the image, signed with the key of [authority1] and recorded under the
    given key id. *)
Definition attestedUnder (keyID : string) : World :=
  {| vulnz := ([], None); occs := ([], None);
     atts :=
       ([{| Signature := "sig(key1," +:+ image +:+ ")";
            KeyID := keyID;
            OccID := "occurrence1" |}], None);
     attestors := []; authorities := [authority1]; issued := [] |}.

(** For the mock client: a key service and an attestor registry that
    answer nothing. *)
Definition mockServices : Services MockMetadataClient :=
  {| KMSVerfiyKeyfunc := fun _ m => (Done None, m);
     jwt_Parse := fun _ _ m =>
       (Done ({| Valid := false; Claims := None |},
              Some (errorString "no key service")), m) |}.

Definition mockAttestors : AttestorFetcher MockMetadataClient :=
  {| GetAttestor := fun _ m => (Done (None, None), m) |}.
(** Occurrences of a sample backend: a vulnerability, an attestation, or
    something else. *)
Inductive SampleOccurrence : Type :=
| VulnerabilityOccurrence (v : Vulnerability)
| AttestationOccurrence (a : PGPAttestation)
| OtherOccurrence.

(** A backend store: the occurrences every listing yields, the error that
    ends the listing, the names of the notes it holds, and the requests it
    has seen. *)
Record Store : Type := {
  stored : list SampleOccurrence;
  ending : option error;
  notes : list string;
  listed : list grafeas.ListOccurrencesRequest
}.

Definition seen (req : grafeas.ListOccurrencesRequest) (w : Store) : Store :=
  {| stored := stored w; ending := ending w; notes := notes w;
     listed := listed w ++ [req] |}.

Definition noted (name : string) (w : Store) : Store :=
  {| stored := stored w; ending := ending w; notes := notes w ++ [name];
     listed := listed w |}.

(** The registry of an image is what stands before its first slash. *)
Definition backend : Backend Store :=
  {| Occurrence := SampleOccurrence;
     Build := string;
     ParseReference := fun image =>
       if String.eqb image ""
       then ("", Some (errorString "could not parse reference"))
       else (hd "" (Split image "/"), None);
     GetResourceURL := fun image => "https://" +:+ image;
     GetResource := fun image => "https://" +:+ image;
     PageSize := 100%Z;
     AuthorityNamespace := fun _ => "default";
     GetVulnerabilityFromOccurrence := fun occ =>
       match occ with VulnerabilityOccurrence v => Some v | _ => None end;
     GetPgpAttestationFromOccurrence := fun occ =>
       match occ with
       | AttestationOccurrence a => a
       | _ => {| Signature := ""; KeyID := ""; OccID := "" |}
       end;
     GetBuildFromOccurrence := fun _ => None;
     GetAttestationKeyFingerprint := fun s =>
       match s with Some s => "fp:" +:+ SecretName s | None => "" end;
     CreateAttestationSignature := fun image _ =>
       ("sig(" +:+ image +:+ ")", None);
     ListOccurrences := fun req w => (Done (stored w, ending w), seen req w);
     ListOccurrencesV1 := fun _ _ _ w => (Done (Some [], None), w);
     CreateNote := fun req w =>
       (Done (Some {| NoteName_ := grafeas.Name (grafeas.Note req) |}, None),
        noted (grafeas.Name (grafeas.Note req)) w);
     GetNote := fun name w =>
       if existsb (String.eqb name) (notes w)
       then (Done (Some {| NoteName_ := name |}, None), w)
       else (Done (None, Some (errorString "note not found")), w);
     CreateOccurrence := fun req w =>
       (Done (Some (grafeas.NoteName (grafeas.Occurrence req)), None), w);
     DeleteNote := fun _ w => (Done None, w);
     DeleteOccurrence := fun _ w => (Done None, w) |}.

(** A store holding a vulnerability, something else and an attestation. *)
Definition mixedStore (ends : option error) : Store :=
  {| stored :=
       [VulnerabilityOccurrence (vuln "CVE-1" "HIGH" true);
        OtherOccurrence;
        AttestationOccurrence
          {| Signature := "s"; KeyID := "fp:key1"; OccID := "o1" |}];
     ending := ends;
     notes := [];
     listed := [] |}.

(** An image with a digest that is hosted outside GCR. *)
Definition elsewhere : string := "docker.io/library/nginx@sha256:0123abcd".

(** A key service for the store that is never asked. *)
Definition storeServices : Services Store :=
  {| KMSVerfiyKeyfunc := fun _ w => (Done None, w);
     jwt_Parse := fun _ _ w =>
       (Done ({| Valid := false; Claims := None |},
              Some (errorString "no key service")), w) |}.

Definition storeAttestors : AttestorFetcher Store :=
  {| GetAttestor := fun _ w => (Done (None, None), w) |}.
(** An occurrence under the ArkCI note with one compact JWT. *)
Definition arkOccurrence (jwt : string) : OccurenceV1 :=
  {| NoteName := "projects/ark/notes/ci"; Jwts := [jwt] |}.

(** A backend that lists the given V1 occurrences and nothing else. *)
Definition listing (listed : list OccurenceV1) : World :=
  {| vulnz := ([], None); occs := (listed, None); atts := ([], None);
     attestors := []; authorities := []; issued := [] |}.

(** A key service whose tokens are valid and claim a project only when
    the JWT is not the text [anonymous]. *)
Definition plainServices : Services World :=
  {| KMSVerfiyKeyfunc := fun _ w => (Done None, w);
     jwt_Parse := fun _ j w =>
       (Done ({| Valid := true;
                 Claims :=
                   Some (if String.eqb j "anonymous" then ∅
                         else {[ "gcp_project" := ClaimString j ]}) |},
              None), w) |}.

(** A policy with a severity threshold, a built project and a required
    attestor, and a world in which each of the three is violated. *)
Definition strict : ImageSecurityPolicy :=
  isp [] "MEDIUM" "" [] ["trusted"] ["build-bot"] [].

Definition troubled : World :=
  {| vulnz := ([vuln "CVE-1" "HIGH" true], None); occs := ([], None);
     atts := ([], None);
     attestors := [buildBot]; authorities := []; issued := [] |}.

(** A binary authorization client over the registry of the world: an
    attestor without public keys has no user-owned note. *)
Definition binauthzClient : BinauthzClient World :=
  {| ClientGetAttestor := fun name w =>
       match List.find (fun a => String.eqb (AttestorName a) name)
               (attestors w) with
       | Some a =>
         (Done (Some {| UserOwnedGrafeasNote :=
                          match PublicKeys a with
                          | [] => None
                          | keys =>
                            Some (map (fun k => (ID k, AsciiArmor k)) keys)
                          end |}, None), w)
       | None =>
         (Done (None, Some (errorString "attestor does not exist")), w)
       end |}.

Definition keyless : Attestor :=
  {| AttestorName := "keyless"; PublicKeys := [] |}.

(** An image of the project [kritis] pinned by a full digest, 64
    hexadecimal digits. *)
Definition pinned : string :=
  "gcr.io/kritis/nginx@sha256:0123456789abcdef0123456789abcdef0123456789abcdef0123456789abcdef".

(** The same digest without a registry in front of the repository. *)
Definition bare : string :=
  "nginx@sha256:0123456789abcdef0123456789abcdef0123456789abcdef0123456789abcdef".

(** An image names its registry when a host with a dot stands before its
    first slash. *)
Definition namesRegistry (image : string) : bool :=
  match Split image "/" with
  | host :: _ :: _ =>
    match String.index 0 "." host with
    | Some _ => true
    | None => false
    end
  | _ => false
  end.

(** As [imports], but the signature payload is built under strict
    validation of the reference: the image has to name its registry.  The
    qualification check keeps to the digest. *)
Definition strictImports : Imports :=
  {| Severity_value := severityTable;
     FullyQualifiedImage := namesDigest;
     quote := @quote imports;
     Sprintf0 := @Sprintf0 imports;
     UnqualifiedImageReason := @UnqualifiedImageReason imports;
     FixUnavailableReason := @FixUnavailableReason imports;
     SeverityReason := @SeverityReason imports;
     ToString := @ToString imports;
     Getenv := @Getenv imports;
     NewAtomicContainerSig := fun image =>
       if namesDigest image && namesRegistry image then None
       else Some (errorString
              "strict validation requires the registry to be explicitly defined");
     VerifyAttestationSignature := verifies;
     RemoveGloballyWhitelistedImages :=
       @RemoveGloballyWhitelistedImages imports;
     DecodeString := @DecodeString imports;
     NewPgpKey := @NewPgpKey imports |}.
End Example.

(** * Properties *)

(** ** The severity threshold *)

Section SeverityFacts.
Context `{Imports}.

Lemma eqb_false_of_ne (a b : string) : a ≠ b → String.eqb a b = false.
Proof. intros Hne. apply String.eqb_neq. exact Hne. Qed.

Lemma within_non_sentinel (max actual : string) :
  max ≠ constants.BlockAll → max ≠ constants.AllowAll →
  severityWithinThreshold max actual =
    match Severity_value max with
    | None =>
      (false,
       Some (errorString ("invalid max severity level: " +:+ max)))
    | Some rmax =>
      match Severity_value actual with
      | None =>
        (false,
         Some (errorString ("invalid severity level: " +:+ actual)))
      | Some r => ((r <=? rmax)%Z, None)
      end
    end.
Proof.
  intros Hb Ha. unfold severityWithinThreshold.
  rewrite (eqb_false_of_ne _ _ Hb), (eqb_false_of_ne _ _ Ha).
  reflexivity.
Qed.

(** C4.  The threshold test is [false] for the block-all sentinel, [true]
    for the allow-all sentinel, an error when the threshold or the
    severity is not a lattice level, and otherwise the comparison of the
    ranks; a lattice level is within itself. *)
Theorem severityWithinThreshold_cases (max actual : string) :
  (max = constants.BlockAll →
     severityWithinThreshold max actual = (false, None)) ∧
  (max = constants.AllowAll →
     severityWithinThreshold max actual = (true, None)) ∧
  (max ≠ constants.BlockAll → max ≠ constants.AllowAll →
     isLevel max = false ∨ isLevel actual = false →
     ∃ e, severityWithinThreshold max actual = (false, Some e)) ∧
  (max ≠ constants.BlockAll → max ≠ constants.AllowAll →
     ∀ rmax r, Severity_value max = Some rmax →
       Severity_value actual = Some r →
       severityWithinThreshold max actual = ((r <=? rmax)%Z, None)) ∧
  (max ≠ constants.BlockAll → isLevel max = true →
     severityWithinThreshold max max = (true, None)).
Proof.
  repeat split.
  - intros ->. reflexivity.
  - intros ->. reflexivity.
  - intros Hb Ha Hlev. rewrite within_non_sentinel by assumption.
    unfold isLevel in Hlev.
    destruct (Severity_value max) as [rmax|].
    + destruct (Severity_value actual) as [r|].
      * destruct Hlev as [Hl|Hl]; discriminate Hl.
      * eexists. reflexivity.
    + eexists. reflexivity.
  - intros Hb Ha rmax r Hmax Hact.
    rewrite within_non_sentinel by assumption.
    rewrite Hmax, Hact. reflexivity.
  - intros Hb Hlev. unfold isLevel in Hlev.
    destruct (String.eqb_spec max constants.AllowAll) as [->|Ha].
    + reflexivity.
    + rewrite within_non_sentinel by assumption.
      destruct (Severity_value max) as [rmax|]; [|discriminate Hlev].
      rewrite Z.leb_refl. reflexivity.
Qed.

(** C10.  With a sentinel as threshold the answer is fixed before the
    severity is looked at: no severity string makes the test fail. *)
Theorem sentinel_threshold_never_fails (actual : string) :
  severityWithinThreshold "BLOCK_ALL" actual = (false, None) ∧
  severityWithinThreshold "ALLOW_ALL" actual = (true, None).
Proof. split; reflexivity. Qed.
End SeverityFacts.

(** The cases of C4 on the generated table: the sentinels, an unknown
    threshold, an unknown severity, HIGH against MEDIUM and MEDIUM against
    itself. *)
Lemma severityWithinThreshold_cases_witness :
  @severityWithinThreshold Example.imports "BLOCK_ALL" "nonsense"
    = (false, None) ∧
  @severityWithinThreshold Example.imports "ALLOW_ALL" "nonsense"
    = (true, None) ∧
  (∃ e, @severityWithinThreshold Example.imports "MEDIUM" "nonsense"
          = (false, Some e)) ∧
  @severityWithinThreshold Example.imports "MEDIUM" "HIGH" = (false, None) ∧
  @severityWithinThreshold Example.imports "MEDIUM" "MEDIUM" = (true, None).
Proof.
  pose proof (@severityWithinThreshold_cases Example.imports
                "BLOCK_ALL" "nonsense") as (Hblock & _).
  pose proof (@severityWithinThreshold_cases Example.imports
                "ALLOW_ALL" "nonsense") as (_ & Hallow & _).
  pose proof (@severityWithinThreshold_cases Example.imports
                "MEDIUM" "nonsense") as (_ & _ & Herr & _).
  pose proof (@severityWithinThreshold_cases Example.imports
                "MEDIUM" "HIGH") as (_ & _ & _ & Hrank & _).
  pose proof (@severityWithinThreshold_cases Example.imports
                "MEDIUM" "MEDIUM") as (_ & _ & _ & _ & Hself).
  split; [apply Hblock; reflexivity|].
  split; [apply Hallow; reflexivity|].
  split; [apply Herr; [discriminate | discriminate | right; reflexivity]|].
  split; [apply (Hrank ltac:(discriminate) ltac:(discriminate) 3%Z 4%Z);
          reflexivity|].
  apply Hself; [discriminate | reflexivity].
Defined.

(** ** The evaluator *)

Section EvaluatorFacts.
Context `{Imports} {W : Type} `{Services W}.

Lemma bind_run {A B} (m : M W A) (k : A → M W B) (st : State W) :
  (m ≫= k) st =
    match m st with
    | (Done a, st') => k a st'
    | (Panic, st') => (Panic, st')
    end.
Proof. reflexivity. Qed.

Lemma perform_run {A} (c : Call) (e : Effect W A) (st : State W) :
  perform c e st =
    (fst (e (world st)), after st [c] (snd (e (world st)))).
Proof. unfold perform, after. destruct (e (world st)). reflexivity. Qed.

Lemma imageInWhitelist_In (isp : ImageSecurityPolicy) (image : string) :
  imageInWhitelist isp image = true ↔ In image (ImageWhitelist isp).
Proof.
  unfold imageInWhitelist. rewrite existsb_exists. split.
  - intros (i & Hin & Heq). apply String.eqb_eq in Heq. subst i. exact Hin.
  - intros Hin. exists image. split; [exact Hin | apply String.eqb_refl].
Qed.

(** Past the whitelist, the qualification check and a successful fetch
    of the vulnerabilities, the evaluator scans them against the
    defaulted thresholds and goes on from the outcome. *)
Lemma evaluator_scans (isp : ImageSecurityPolicy) (image : string)
    (f : Fetcher W) (af : AttestorFetcher W) (st : State W)
    (vulnz : list Vulnerability) (w1 : W) :
  imageInWhitelist isp image = false →
  FullyQualifiedImage image = true →
  Vulnerabilities f image (world st) = (Done (vulnz, None), w1) →
  ValidateImageSecurityPolicy isp image f af st =
    afterScan isp image f af
      (vulnzLoop isp image (maximumSeverity isp)
         (maximumFixUnavailableSeverity isp) vulnz [])
      (after st [Call_Vulnerabilities image] w1).
Proof.
  intros Hwl Hq Hv. unfold ValidateImageSecurityPolicy.
  rewrite Hwl, Hq. cbn [negb]. rewrite bind_run, perform_run, Hv.
  cbn [fst snd]. unfold afterScan, maximumSeverity,
    maximumFixUnavailableSeverity, constants.AllowAll.
  destruct (vulnzLoop _ _ _ _ _ _) as [vs [e|]]; reflexivity.
Qed.

(** C1.  A whitelisted image has no violations and no error, whatever
    the backend holds: the evaluator returns before it calls anything, the
    log and the world are as they were. *)
Theorem whitelisted_image_is_accepted (isp : ImageSecurityPolicy)
    (image : string) (f : Fetcher W) (af : AttestorFetcher W)
    (st : State W) :
  In image (ImageWhitelist isp) →
  ValidateImageSecurityPolicy isp image f af st = (Done ([], None), st).
Proof.
  intros Hin. apply imageInWhitelist_In in Hin.
  unfold ValidateImageSecurityPolicy. rewrite Hin. reflexivity.
Qed.

(** C9.  An image that is neither whitelisted nor fully qualified gets
    exactly one violation, of kind Unqualified-Image, and no error; the
    evaluator returns before it calls anything. *)
Theorem unqualified_image_is_one_violation (isp : ImageSecurityPolicy)
    (image : string) (f : Fetcher W) (af : AttestorFetcher W)
    (st : State W) :
  ¬ In image (ImageWhitelist isp) →
  FullyQualifiedImage image = false →
  ValidateImageSecurityPolicy isp image f af st =
    (Done ([{| vulnerability := None;
               vType := UnqualifiedImageViolation;
               reason := UnqualifiedImageReason image |}], None), st).
Proof.
  intros Hnin Hq. unfold ValidateImageSecurityPolicy.
  destruct (imageInWhitelist isp image) eqn:Hwl.
  - apply imageInWhitelist_In in Hwl. contradiction.
  - rewrite Hq. reflexivity.
Qed.
End EvaluatorFacts.

(** Scenario "Whitelisted image": the backend reports a CRITICAL
    vulnerability for an image the policy whitelists. *)
Lemma whitelisted_image_is_accepted_witness :
  @ValidateImageSecurityPolicy Example.imports _ Example.services
    (Example.isp [Example.image] "" "" [] [] [] []) Example.image
    Example.fetcher Example.attestorFetcher
    (Example.start
       (Example.reporting [Example.vuln "CVE-1" "CRITICAL" true]))
  = (Done ([], None),
     Example.start (Example.reporting [Example.vuln "CVE-1" "CRITICAL" true])).
Proof.
  apply (@whitelisted_image_is_accepted Example.imports _ Example.services).
  simpl. left. reflexivity.
Defined.

(** Scenario "Unqualified": the image [nginx] against the default policy
    and the mock client of [NilFetcher]. *)
Lemma unqualified_image_is_one_violation_witness :
  @ValidateImageSecurityPolicy Example.imports _ Example.mockServices
    Example.defaultISP "nginx" Mock.fetcher Example.mockAttestors
    (Example.start NilFetcher)
  = (Done ([{| vulnerability := None;
               vType := UnqualifiedImageViolation;
               reason := "nginx is not fully qualified" |}], None),
     Example.start NilFetcher).
Proof.
  apply (@unqualified_image_is_one_violation Example.imports _
           Example.mockServices).
  - simpl. tauto.
  - reflexivity.
Defined.

(** ** The vulnerability scan *)

Section ScanFacts.
Context `{Imports} {W : Type} `{Services W}.

Lemma cveInWhitelist_decide (isp : ImageSecurityPolicy) (cve : string) :
  cveInWhitelist isp cve =
    bool_decide (cve ∈ WhitelistCVEs (PackageVulnerabilityRequirements_ isp)).
Proof.
  unfold cveInWhitelist.
  destruct (bool_decide _) eqn:Hd.
  - apply bool_decide_eq_true in Hd. apply list_elem_of_In in Hd.
    apply existsb_exists. exists cve. split; [exact Hd|apply String.eqb_refl].
  - apply bool_decide_eq_false in Hd.
    destruct (existsb _ _) eqn:He; [|reflexivity].
    apply existsb_exists in He. destruct He as (w & Hin & Heq).
    apply String.eqb_eq in Heq. subst w.
    exfalso. apply Hd. apply list_elem_of_In. exact Hin.
Qed.

(** The loop of the evaluator, run with the defaulted thresholds, computes
    what the specification describes vulnerability by vulnerability. *)
Lemma vulnzLoop_process (isp : ImageSecurityPolicy) (image : string)
    (vulnz : list Vulnerability) :
  ∀ violations,
    vulnzLoop isp image (maximumSeverity isp)
      (maximumFixUnavailableSeverity isp) vulnz violations
    = process isp image vulnz violations.
Proof.
  induction vulnz as [|v vulnz IH]; intros violations; [reflexivity|].
  cbn [vulnzLoop process]. unfold contribution, thresholdFor, violationFor.
  rewrite cveInWhitelist_decide.
  destruct (bool_decide _); [apply IH|].
  destruct (HasFixAvailable v); cbn [negb];
    destruct (severityWithinThreshold _ _) as [[|] [e|]];
    first [reflexivity | apply IH].
Qed.

Lemma process_fatal (isp : ImageSecurityPolicy) (image : string)
    (vulnz : list Vulnerability) (v : Vulnerability) :
  In v vulnz →
  (∃ e, contribution isp image v = FatalError e) →
  ∀ violations, ∃ vs e, process isp image vulnz violations = (vs, Some e).
Proof.
  intros Hin Hfatal.
  induction vulnz as [|u vulnz IH]; intros violations; [destruct Hin|].
  cbn [process].
  destruct (contribution isp image u) as [|x|e] eqn:Hu.
  - destruct Hin as [->|Hin].
    + destruct Hfatal as (e & He). congruence.
    + apply IH. exact Hin.
  - destruct Hin as [->|Hin].
    + destruct Hfatal as (e & He). congruence.
    + apply IH. exact Hin.
  - eauto.
Qed.

Lemma unknown_severity_is_fatal (isp : ImageSecurityPolicy) (image : string)
    (v : Vulnerability) :
  CVE v ∉ WhitelistCVEs (PackageVulnerabilityRequirements_ isp) →
  thresholdFor isp v ≠ constants.BlockAll →
  thresholdFor isp v ≠ constants.AllowAll →
  isLevel (Severity v) = false →
  ∃ e, contribution isp image v = FatalError e.
Proof.
  intros Hcve Hb Ha Hlev. unfold contribution.
  rewrite bool_decide_eq_false_2 by exact Hcve.
  rewrite within_non_sentinel by assumption.
  unfold isLevel in Hlev.
  destruct (Severity_value (thresholdFor isp v)); [|eauto].
  destruct (Severity_value (Severity v)); [discriminate Hlev|eauto].
Qed.

(** C3.  For a fully qualified image that is not whitelisted, the
    evaluator goes through the fetched vulnerabilities in order: a
    whitelisted CVE adds nothing; otherwise the severity is compared
    against maximumFixUnavailableSeverity when there is no fix and against
    maximumSeverity when there is one, adding nothing within the threshold
    and one Fix-Unavailable, respectively Severity, violation beyond it.  A
    severity that is not a lattice level, under a threshold that is not a
    sentinel, makes the evaluator return an error. *)
Theorem vulnerabilities_are_processed_in_order (isp : ImageSecurityPolicy)
    (image : string) (f : Fetcher W) (af : AttestorFetcher W) (st : State W)
    (vulnz : list Vulnerability) (w1 : W) :
  ¬ In image (ImageWhitelist isp) →
  FullyQualifiedImage image = true →
  Vulnerabilities f image (world st) = (Done (vulnz, None), w1) →
  ValidateImageSecurityPolicy isp image f af st =
    afterScan isp image f af (process isp image vulnz [])
      (after st [Call_Vulnerabilities image] w1)
  ∧ ∀ v, In v vulnz →
      CVE v ∉ WhitelistCVEs (PackageVulnerabilityRequirements_ isp) →
      thresholdFor isp v ≠ constants.BlockAll →
      thresholdFor isp v ≠ constants.AllowAll →
      isLevel (Severity v) = false →
      ∃ vs e,
        ValidateImageSecurityPolicy isp image f af st =
          (Done (vs, Some e), after st [Call_Vulnerabilities image] w1).
Proof.
  intros Hnin Hq Hv.
  assert (Hwl : imageInWhitelist isp image = false).
  { destruct (imageInWhitelist isp image) eqn:E; [|reflexivity].
    apply imageInWhitelist_In in E. contradiction. }
  rewrite (evaluator_scans _ _ _ _ _ _ _ Hwl Hq Hv), vulnzLoop_process.
  split; [reflexivity|].
  intros v Hin Hcve Hb Ha Hlev.
  destruct (process_fatal isp image vulnz v Hin
              (unknown_severity_is_fatal isp image v Hcve Hb Ha Hlev) [])
    as (vs & e & Hp).
  exists vs, e. rewrite Hp. reflexivity.
Qed.

(** C8.  The evaluator scans the fetched vulnerabilities as the
    specification words it, and with an empty maximumSeverity a
    vulnerability with a fix (its CVE not whitelisted) is compared against
    CRITICAL: it passes exactly when its rank is at most the rank of
    CRITICAL and is a Severity violation otherwise, an unknown level being
    an error.  With an empty maximumFixUnavailableSeverity a vulnerability
    without a fix is compared against the allow-all sentinel: it passes,
    whatever its severity. *)
Theorem missing_thresholds_default (isp : ImageSecurityPolicy)
    (image : string) (f : Fetcher W) (af : AttestorFetcher W) (st : State W)
    (vulnz : list Vulnerability) (w1 : W) :
  ¬ In image (ImageWhitelist isp) →
  FullyQualifiedImage image = true →
  Vulnerabilities f image (world st) = (Done (vulnz, None), w1) →
  ValidateImageSecurityPolicy isp image f af st =
    afterScan isp image f af (process isp image vulnz [])
      (after st [Call_Vulnerabilities image] w1)
  ∧ (MaximumSeverity (PackageVulnerabilityRequirements_ isp) = "" →
     ∀ v, HasFixAvailable v = true →
       CVE v ∉ WhitelistCVEs (PackageVulnerabilityRequirements_ isp) →
       contribution isp image v =
         match Severity_value "CRITICAL", Severity_value (Severity v) with
         | None, _ =>
           FatalError (errorString "invalid max severity level: CRITICAL")
         | Some _, None =>
           FatalError
             (errorString ("invalid severity level: " +:+ Severity v))
         | Some critical, Some rank =>
           if (rank <=? critical)%Z then NoViolation
           else OneViolation
                  {| vulnerability := Some v;
                     vType := SeverityViolation;
                     reason := SeverityReason image v isp |}
         end)
  ∧ (MaximumFixUnavailableSeverity (PackageVulnerabilityRequirements_ isp)
       = "" →
     ∀ v, HasFixAvailable v = false →
       severityWithinThreshold "ALLOW_ALL" (Severity v) = (true, None)
       ∧ contribution isp image v = NoViolation).
Proof.
  intros Hnin Hq Hv.
  assert (Hwl : imageInWhitelist isp image = false).
  { destruct (imageInWhitelist isp image) eqn:E; [|reflexivity].
    apply imageInWhitelist_In in E. contradiction. }
  rewrite (evaluator_scans _ _ _ _ _ _ _ Hwl Hq Hv), vulnzLoop_process.
  split; [reflexivity|]. split.
  - intros Hempty v Hfix Hcve. unfold contribution, thresholdFor.
    rewrite bool_decide_eq_false_2 by exact Hcve.
    rewrite Hfix. unfold maximumSeverity. rewrite Hempty.
    change (String.eqb "" "") with true. cbv iota.
    rewrite within_non_sentinel by discriminate.
    unfold violationFor. rewrite Hfix.
    destruct (Severity_value "CRITICAL") as [critical|]; [|reflexivity].
    destruct (Severity_value (Severity v)) as [rank|]; [|reflexivity].
    destruct (rank <=? critical)%Z; reflexivity.
  - intros Hempty v Hfix. split; [reflexivity|].
    unfold contribution, thresholdFor.
    rewrite Hfix. unfold maximumFixUnavailableSeverity. rewrite Hempty.
    destruct (bool_decide _); reflexivity.
Qed.
End ScanFacts.

(** Scenario "Severity gate", followed by a vulnerability without a fix
    whose severity is no lattice level: the first adds a Severity violation,
    the second stops the evaluation with an error. *)
Lemma vulnerabilities_are_processed_in_order_witness :
  let isp := Example.isp [] "MEDIUM" "HIGH" [] [] [] [] in
  let w :=
    Example.reporting
      [Example.vuln "CVE-1" "HIGH" true; Example.vuln "CVE-2" "BOGUS" false] in
  @ValidateImageSecurityPolicy Example.imports _ Example.services
    isp Example.image Example.fetcher Example.attestorFetcher
    (Example.start w)
  = (Done ([{| vulnerability := Some (Example.vuln "CVE-1" "HIGH" true);
               vType := SeverityViolation;
               reason :=
                 "found CVE CVE-1 in gcr.io/kritis/nginx@sha256:0123abcd" |}],
           Some (errorString "invalid severity level: BOGUS")),
     mkState w [Call_Vulnerabilities Example.image])
  ∧ ∃ vs e,
      @ValidateImageSecurityPolicy Example.imports _ Example.services
        isp Example.image Example.fetcher Example.attestorFetcher
        (Example.start w)
      = (Done (vs, Some e), mkState w [Call_Vulnerabilities Example.image]).
Proof.
  intros isp w.
  destruct (@vulnerabilities_are_processed_in_order Example.imports _
              Example.services isp Example.image Example.fetcher
              Example.attestorFetcher (Example.start w)
              [Example.vuln "CVE-1" "HIGH" true;
               Example.vuln "CVE-2" "BOGUS" false] w)
    as [Hrun Herr].
  - simpl. tauto.
  - reflexivity.
  - reflexivity.
  - split.
    + rewrite Hrun. reflexivity.
    + apply (Herr (Example.vuln "CVE-2" "BOGUS" false)).
      * simpl. tauto.
      * simpl. apply not_elem_of_nil.
      * intros Heq. vm_compute in Heq. discriminate Heq.
      * intros Heq. vm_compute in Heq. discriminate Heq.
      * reflexivity.
Defined.

(** The default policy against a pinned image with a CRITICAL
    vulnerability that has a fix and a vulnerability without a fix whose
    severity is no lattice level: both pass.  With a fix, the unknown
    severity is an error. *)
Lemma missing_thresholds_default_witness :
  let w :=
    Example.reporting
      [Example.vuln "CVE-1" "CRITICAL" true;
       Example.vuln "CVE-2" "BOGUS" false] in
  @ValidateImageSecurityPolicy Example.imports _ Example.services
    Example.defaultISP Example.pinned Example.fetcher
    Example.attestorFetcher (Example.start w)
  = (Done ([], None),
     mkState w
       [Call_Vulnerabilities Example.pinned;
        Call_OccurencesV1 Example.pinned])
  ∧ @contribution Example.imports Example.defaultISP Example.pinned
      (Example.vuln "CVE-1" "CRITICAL" true) = NoViolation
  ∧ @contribution Example.imports Example.defaultISP Example.pinned
      (Example.vuln "CVE-3" "BOGUS" true)
    = FatalError (errorString "invalid severity level: BOGUS")
  ∧ @contribution Example.imports Example.defaultISP Example.pinned
      (Example.vuln "CVE-2" "BOGUS" false) = NoViolation.
Proof.
  intros w.
  destruct (@missing_thresholds_default Example.imports _ Example.services
              Example.defaultISP Example.pinned Example.fetcher
              Example.attestorFetcher (Example.start w)
              [Example.vuln "CVE-1" "CRITICAL" true;
               Example.vuln "CVE-2" "BOGUS" false] w)
    as (Hrun & Hmax & Hnofix).
  - simpl. tauto.
  - reflexivity.
  - reflexivity.
  - split; [rewrite Hrun; reflexivity|].
    split; [|split].
    + rewrite (Hmax eq_refl (Example.vuln "CVE-1" "CRITICAL" true) eq_refl)
        by (simpl; apply not_elem_of_nil).
      reflexivity.
    + rewrite (Hmax eq_refl (Example.vuln "CVE-3" "BOGUS" true) eq_refl)
        by (simpl; apply not_elem_of_nil).
      reflexivity.
    + apply (Hnofix eq_refl (Example.vuln "CVE-2" "BOGUS" false) eq_refl).
Defined.

(** ** The error of the occurrence listing *)

Section OccurrenceFetch.
Context `{Imports} {W : Type} `{Services W}.

(** C5.  The error of the V1 occurrence listing is dropped.  When the
    listing fails for an image that is fully qualified and not whitelisted,
    after a scan that ended without an error, and the policy asks for no
    built project and no attestation, the evaluator returns the violations
    of the scan and no error, where C5 asks for the error of the listing. *)
Theorem occurrence_fetch_error_is_dropped (isp : ImageSecurityPolicy)
    (image : string) (f : Fetcher W) (af : AttestorFetcher W) (st : State W)
    (vulnz : list Vulnerability) (w1 : W) (vs : list Violation)
    (err : error) (w2 : W) :
  ¬ In image (ImageWhitelist isp) →
  FullyQualifiedImage image = true →
  Vulnerabilities f image (world st) = (Done (vulnz, None), w1) →
  process isp image vulnz [] = (vs, None) →
  OccurencesV1 f image w1 = (Done ([], Some err), w2) →
  BuiltProjectIDs isp = [] →
  RequireAttestationsBy isp = [] →
  ValidateImageSecurityPolicy isp image f af st =
    (Done (vs, None),
     after st [Call_Vulnerabilities image; Call_OccurencesV1 image] w2).
Proof.
  intros Hnin Hq Hv Hscan Hocc Hbuilt Hreq.
  assert (Hwl : imageInWhitelist isp image = false).
  { destruct (imageInWhitelist isp image) eqn:E; [|reflexivity].
    apply imageInWhitelist_In in E. contradiction. }
  rewrite (evaluator_scans _ _ _ _ _ _ _ Hwl Hq Hv), vulnzLoop_process, Hscan.
  unfold afterScan, checkProvenance.
  rewrite bind_run, perform_run. cbn [world after]. rewrite Hocc.
  cbn [fst snd]. rewrite bind_run. cbn [occsLoop].
  unfold checkBuiltProjectIDs, checkRequiredAttestations.
  rewrite Hbuilt, Hreq. unfold after. cbn [calls length Nat.ltb Nat.leb].
  rewrite <- app_assoc. reflexivity.
Qed.
End OccurrenceFetch.

(** A backend whose listing of the occurrences fails with a transport
    error, the default policy and a pinned image: no violation and no
    error. *)
Lemma occurrence_fetch_error_is_dropped_witness :
  Example.occs Example.occurrencesDown
    = ([], Some (errorString "rpc error: code = Unavailable"))
  ∧ @ValidateImageSecurityPolicy Example.imports _ Example.services
      Example.defaultISP Example.pinned Example.fetcher
      Example.attestorFetcher (Example.start Example.occurrencesDown)
    = (Done ([], None),
       mkState Example.occurrencesDown
         [Call_Vulnerabilities Example.pinned;
          Call_OccurencesV1 Example.pinned]).
Proof.
  split; [reflexivity|].
  apply (@occurrence_fetch_error_is_dropped Example.imports _
           Example.services Example.defaultISP Example.pinned
           Example.fetcher Example.attestorFetcher
           (Example.start Example.occurrencesDown) []
           Example.occurrencesDown []
           (errorString "rpc error: code = Unavailable")
           Example.occurrencesDown).
  - simpl. tauto.
  - reflexivity.
  - reflexivity.
  - reflexivity.
  - reflexivity.
  - reflexivity.
  - reflexivity.
Defined.

(** ** Provenance and required attestations *)

Section ProvenanceFacts.
Context `{Imports} {W : Type} `{Services W}.

Lemma not_whitelisted (isp : ImageSecurityPolicy) (image : string) :
  ¬ In image (ImageWhitelist isp) → imageInWhitelist isp image = false.
Proof.
  intros Hnin. destruct (imageInWhitelist isp image) eqn:E; [|reflexivity].
  apply imageInWhitelist_In in E. contradiction.
Qed.

(** Once the scan has ended without an error, the occurrences are listed
    (the error of the listing is not looked at), the ArkCI signatures are
    checked, and the evaluator ends with the builder check and the required
    attestations. *)
Lemma evaluator_checks_provenance (isp : ImageSecurityPolicy)
    (image : string) (f : Fetcher W) (af : AttestorFetcher W) (st : State W)
    (vulnz : list Vulnerability) (w1 : W) (vs : list Violation)
    (occs : list OccurenceV1) (oerr : option error) (w2 : W)
    (vs2 : list Violation) (sid : string) (st3 : State W) :
  ¬ In image (ImageWhitelist isp) →
  FullyQualifiedImage image = true →
  Vulnerabilities f image (world st) = (Done (vulnz, None), w1) →
  vulnzLoop isp image (maximumSeverity isp)
    (maximumFixUnavailableSeverity isp) vulnz [] = (vs, None) →
  OccurencesV1 f image w1 = (Done (occs, oerr), w2) →
  occsLoop occs vs ""
    (after (after st [Call_Vulnerabilities image] w1)
       [Call_OccurencesV1 image] w2) = (Done (vs2, sid), st3) →
  ValidateImageSecurityPolicy isp image f af st =
    checkRequiredAttestations isp image f af
      (checkBuiltProjectIDs isp image sid vs2) st3.
Proof.
  intros Hnin Hq Hv Hscan Hocc Hark.
  rewrite (evaluator_scans _ _ _ _ _ _ _ (not_whitelisted _ _ Hnin) Hq Hv).
  rewrite Hscan. unfold afterScan, checkProvenance.
  rewrite bind_run, perform_run. cbn [world after].
  rewrite Hocc. cbn [fst snd]. rewrite bind_run.
  unfold after in Hark. cbn [world calls] in Hark. unfold after.
  cbn [world calls]. rewrite Hark. reflexivity.
Qed.

Lemma requiredLoop_all_resolve (image : string) (af : AttestorFetcher W)
    (names : list string) :
  NewAtomicContainerSig image = None →
  ∀ (violations : list Violation) (st : State W),
    allResolve af names (world st) = Done true →
    fst (requiredLoop image af [] names violations st) =
      Done (violations ++ map (requiredAttestationViolation image) names,
            None).
Proof.
  intros Hsig. induction names as [|name names IH]; intros violations st Hall.
  - cbn. rewrite app_nil_r. reflexivity.
  - cbn [requiredLoop allResolve] in *.
    rewrite bind_run, perform_run.
    destruct (GetAttestor af name (world st)) as [[[[a|] [e|]]|] w'];
      try discriminate Hall.
    cbn [fst snd]. unfold hasRequiredAttestation. rewrite Hsig.
    cbn [attestationsLoop]. rewrite IH by exact Hall.
    cbn [map]. rewrite <- app_assoc. reflexivity.
Qed.

Lemma requiredLoop_unresolved (image : string) (af : AttestorFetcher W)
    (attestations : list PGPAttestation) (names : list string) :
  ∀ (violations : list Violation) (st : State W),
    allResolve af names (world st) = Done false →
    ∃ e, fst (requiredLoop image af attestations names violations st) =
           Done ([], Some e).
Proof.
  induction names as [|name names IH]; intros violations st Hall.
  - discriminate Hall.
  - cbn [requiredLoop allResolve] in *.
    rewrite bind_run, perform_run.
    destruct (GetAttestor af name (world st)) as [[[[a|] [e|]]|] w'];
      try discriminate Hall; cbn [fst snd]; try (eexists; reflexivity).
    destruct (hasRequiredAttestation image a attestations) as [ok [e|]].
    + eexists; reflexivity.
    + apply IH. exact Hall.
Qed.

(** When the signature payload of the image cannot be built, the first
    attestor that resolves ends the loop with the wrapped error. *)
Lemma requiredLoop_no_payload (image : string) (af : AttestorFetcher W)
    (attestations : list PGPAttestation) (name : string)
    (names : list string) (e0 : error) :
  NewAtomicContainerSig image = Some e0 →
  ∀ (violations : list Violation) (st : State W),
    allResolve af (name :: names) (world st) = Done true →
    fst (requiredLoop image af attestations (name :: names) violations st) =
      Done ([],
            Some (withMessage
                    (withMessage e0
                       ("failed to initialize attestation signature: " +:+
                        image))
                    ("failed to check if required attestation exist: " +:+
                     image +:+ ", " +:+ name))).
Proof.
  intros Hsig violations st Hall.
  cbn [requiredLoop allResolve] in *.
  rewrite bind_run, perform_run.
  destruct (GetAttestor af name (world st)) as [[[[a|] [e|]]|] w'];
    try discriminate Hall.
  cbn [fst snd]. unfold hasRequiredAttestation. rewrite Hsig. reflexivity.
Qed.

(** The error of the occurrence listing does not reach the result: what
    follows the listing depends on the occurrences alone. *)
Lemma occurrence_error_is_not_read (isp : ImageSecurityPolicy)
    (image : string) (f : Fetcher W) (af : AttestorFetcher W)
    (violations : list Violation) (st : State W) (occs : list OccurenceV1)
    (oerr : option error) (w2 : W) :
  OccurencesV1 f image (world st) = (Done (occs, oerr), w2) →
  checkProvenance isp image f af violations st =
    (occsLoop occs violations "" ≫= λ '(violations, signedProjectID),
       checkRequiredAttestations isp image f af
         (checkBuiltProjectIDs isp image signedProjectID violations))
      (after st [Call_OccurencesV1 image] w2).
Proof.
  intros Hocc. unfold checkProvenance.
  rewrite bind_run, perform_run, Hocc. reflexivity.
Qed.

(** The two other fetches return their error to the caller. *)
Lemma vulnerability_fetch_error_is_returned (isp : ImageSecurityPolicy)
    (image : string) (f : Fetcher W) (af : AttestorFetcher W) (st : State W)
    (vulnz : list Vulnerability) (err : error) (w1 : W) :
  ¬ In image (ImageWhitelist isp) →
  FullyQualifiedImage image = true →
  Vulnerabilities f image (world st) = (Done (vulnz, Some err), w1) →
  ValidateImageSecurityPolicy isp image f af st =
    (Done ([], Some err), after st [Call_Vulnerabilities image] w1).
Proof.
  intros Hnin Hq Hv. unfold ValidateImageSecurityPolicy.
  rewrite (not_whitelisted _ _ Hnin), Hq. cbn [negb].
  rewrite bind_run, perform_run, Hv. reflexivity.
Qed.

Lemma attestation_fetch_error_is_returned (isp : ImageSecurityPolicy)
    (image : string) (f : Fetcher W) (af : AttestorFetcher W)
    (violations : list Violation) (st : State W)
    (attestations : list PGPAttestation) (err : error) (w : W) :
  RequireAttestationsBy isp ≠ [] →
  Attestations f image (world st) = (Done (attestations, Some err), w) →
  checkRequiredAttestations isp image f af violations st =
    (Done ([], Some err), after st [Call_Attestations image] w).
Proof.
  intros Hreq Hatt. unfold checkRequiredAttestations.
  destruct (RequireAttestationsBy isp) as [|name names]; [contradiction|].
  change (0 <? length (name :: names))%nat with true. cbv iota.
  rewrite bind_run, perform_run, Hatt. reflexivity.
Qed.

(** An attestor without a user-owned note resolves to no attestor and no
    error, the case the evaluator answers with "attestor not found". *)
Lemma attestor_without_note (client : BinauthzClient W) (name : string)
    (w w' : W) :
  ClientGetAttestor client name w
    = (Done (Some {| UserOwnedGrafeasNote := None |}, None), w') →
  GetAttestor (binauthzAttestorFetcher client) name w = (Done (None, None), w').
Proof.
  intros Hget. cbn. unfold binauthzGetAttestor. rewrite Hget. reflexivity.
Qed.

(** C6, as amended.  With required attestors and an empty list of
    fetched attestations, when every attestor resolves and the signature
    payload of the image can be built, the evaluator adds one violation of
    kind Required-Attestation per required name, in the order of the
    policy; when the resolution of one fails or yields no attestor, it
    returns an error and no violation, and so it does when every attestor
    resolves and the signature payload cannot be built. *)
Theorem required_attestations_without_attestations
    (isp : ImageSecurityPolicy) (image : string) (f : Fetcher W)
    (af : AttestorFetcher W) (st : State W) (vulnz : list Vulnerability)
    (w1 : W) (vs : list Violation) (occs : list OccurenceV1)
    (oerr : option error) (w2 : W) (vs2 : list Violation) (sid : string)
    (st3 : State W) (w4 : W) :
  ¬ In image (ImageWhitelist isp) →
  FullyQualifiedImage image = true →
  Vulnerabilities f image (world st) = (Done (vulnz, None), w1) →
  vulnzLoop isp image (maximumSeverity isp)
    (maximumFixUnavailableSeverity isp) vulnz [] = (vs, None) →
  OccurencesV1 f image w1 = (Done (occs, oerr), w2) →
  occsLoop occs vs ""
    (after (after st [Call_Vulnerabilities image] w1)
       [Call_OccurencesV1 image] w2) = (Done (vs2, sid), st3) →
  RequireAttestationsBy isp ≠ [] →
  Attestations f image (world st3) = (Done ([], None), w4) →
  (allResolve af (RequireAttestationsBy isp) w4 = Done true →
   NewAtomicContainerSig image = None →
   fst (ValidateImageSecurityPolicy isp image f af st) =
     Done (checkBuiltProjectIDs isp image sid vs2 ++
           map (λ required,
                  {| vulnerability := None;
                     vType := RequiredAttestationViolation;
                     reason :=
                       quote image +:+
                       " doesn't have a required attestation: [" +:+
                       required +:+ "]" |})
             (RequireAttestationsBy isp), None))
  ∧ (allResolve af (RequireAttestationsBy isp) w4 = Done false →
     ∃ e, fst (ValidateImageSecurityPolicy isp image f af st) =
            Done ([], Some e))
  ∧ (allResolve af (RequireAttestationsBy isp) w4 = Done true →
     ∀ e0, NewAtomicContainerSig image = Some e0 →
       ∃ e, fst (ValidateImageSecurityPolicy isp image f af st) =
              Done ([], Some e)).
Proof.
  intros Hnin Hq Hv Hscan Hocc Hark Hreq Hatt.
  rewrite (evaluator_checks_provenance _ _ _ _ _ _ _ _ _ _ _ _ _ _
             Hnin Hq Hv Hscan Hocc Hark).
  unfold checkRequiredAttestations.
  destruct (RequireAttestationsBy isp) as [|name names] eqn:Hnames;
    [contradiction|].
  change (0 <? length (name :: names))%nat with true. cbv iota.
  rewrite bind_run, perform_run, Hatt. cbn [fst snd].
  split; [|split].
  - intros Hall Hsig. rewrite requiredLoop_all_resolve by assumption.
    reflexivity.
  - intros Hall. apply requiredLoop_unresolved. exact Hall.
  - intros Hall e0 Hsig. eexists.
    apply requiredLoop_no_payload; eassumption.
Qed.
End ProvenanceFacts.

(** ** The builder check *)

Section BuilderFacts.
Context `{Imports} {W : Type} `{Services W}.

Lemma prefix_startsWith (p s : string) :
  String.prefix p s = true ↔ startsWith s p.
Proof.
  unfold startsWith. revert s.
  induction p as [|a p IH]; intros s.
  - split; [intros _; exists s; reflexivity|].
    intros _. destruct s; reflexivity.
  - destruct s as [|b s]; cbn [String.prefix].
    + split; [discriminate|]. intros (rest & Heq). discriminate Heq.
    + destruct (Ascii.ascii_dec a b) as [->|Hne].
      * rewrite IH. split; intros (rest & Heq); exists rest.
        -- cbn. rewrite Heq. reflexivity.
        -- cbn in Heq. injection Heq as Heq. exact Heq.
      * split; [discriminate|]. intros (rest & Heq).
        cbn in Heq. injection Heq as Hab _. congruence.
Qed.

Lemma imageInGCR_isInRegistry (projectID image : string) :
  imageInGCR projectID image = true ↔ isInRegistry projectID image.
Proof.
  unfold imageInGCR, isInRegistry. rewrite existsb_exists. split.
  - intros (p & Hin & Hp). apply prefix_startsWith in Hp.
    cbn [In] in Hin.
    destruct Hin as [<-|[<-|[<-|[<-|[]]]]];
      [exists "" | exists "asia" | exists "eu" | exists "us"];
      (split; [cbn; tauto | exact Hp]).
  - intros (zone & Hin & Hp). exists (zoneHost zone). split.
    + cbn [In] in Hin.
      destruct Hin as [<-|[<-|[<-|[<-|[]]]]]; cbn; tauto.
    + apply prefix_startsWith. exact Hp.
Qed.

Lemma hasBuildProjectID_false (projectIDs : list string)
    (signedProjectID image : string) :
  hasBuildProjectID projectIDs signedProjectID image = false ↔
  noEntryAdmits projectIDs signedProjectID image.
Proof.
  unfold noEntryAdmits.
  induction projectIDs as [|p ps IH]; cbn [hasBuildProjectID In].
  - split; [intros _ E []|reflexivity].
  - destruct (String.eqb_spec p signedProjectID) as [Heq|Hne]; cbn [orb].
    + split; [discriminate|]. intros Hall.
      destruct (Hall p (or_introl eq_refl)) as [Hp _]. contradiction.
    + destruct (imageInGCR p image) eqn:Hgcr.
      * split; [discriminate|]. intros Hall.
        destruct (Hall p (or_introl eq_refl)) as [_ Hp].
        exfalso. apply Hp. apply imageInGCR_isInRegistry. exact Hgcr.
      * rewrite IH. split.
        -- intros Hall E [<-|Hin]; [|apply Hall; exact Hin].
           split; [exact Hne|]. intros Hreg.
           apply imageInGCR_isInRegistry in Hreg. congruence.
        -- intros Hall E Hin. apply Hall. right. exact Hin.
Qed.

Lemma countKind_app (k : ViolationType) (a b : list Violation) :
  countKind k (a ++ b) = (countKind k a + countKind k b)%nat.
Proof. unfold countKind. rewrite List.filter_app, length_app. reflexivity. Qed.

Lemma vulnzLoop_builder_count (isp : ImageSecurityPolicy) (image : string)
    (maxSev maxNoFixSev : string) (vulnz : list Vulnerability) :
  ∀ violations,
    countKind BuildProjectIDViolation
      (fst (vulnzLoop isp image maxSev maxNoFixSev vulnz violations))
    = countKind BuildProjectIDViolation violations.
Proof.
  induction vulnz as [|v vulnz IH]; intros violations; [reflexivity|].
  cbn [vulnzLoop].
  destruct (cveInWhitelist isp (CVE v)); [apply IH|].
  destruct (negb (HasFixAvailable v));
    destruct (severityWithinThreshold _ _) as [[|] [e|]];
    first [reflexivity | apply IH
          | rewrite IH, countKind_app; cbn; apply Nat.add_0_r].
Qed.

Lemma occsLoop_builder_count (occs : list OccurenceV1) :
  ∀ violations sid st vs sid' st',
    occsLoop occs violations sid st = (Done (vs, sid'), st') →
    countKind BuildProjectIDViolation vs
    = countKind BuildProjectIDViolation violations.
Proof.
  induction occs as [|occ occs IH]; intros violations sid st vs sid' st' Hrun.
  - cbn in Hrun. injection Hrun as <- _ _. reflexivity.
  - cbn [occsLoop] in Hrun.
    destruct (String.eqb (NoteName occ) (Getenv "ARKCI_SIGNATURE_NOTE"));
      [|exact (IH _ _ _ _ _ _ Hrun)].
    rewrite bind_run in Hrun.
    destruct (verifyArkSignature occ st) as [[[token [err|]]|] st1];
      [| |discriminate Hrun].
    + rewrite (IH _ _ _ _ _ _ Hrun), countKind_app. cbn. apply Nat.add_0_r.
    + destruct token as [token|]; [|discriminate Hrun].
      destruct (Claims token); exact (IH _ _ _ _ _ _ Hrun).
Qed.

Lemma requiredLoop_builder_count (image : string) (af : AttestorFetcher W)
    (attestations : list PGPAttestation) (names : list string) :
  ∀ violations st vs e st',
    requiredLoop image af attestations names violations st
      = (Done (vs, e), st') →
    (countKind BuildProjectIDViolation vs
     ≤ countKind BuildProjectIDViolation violations)%nat
    ∧ (e = None →
       countKind BuildProjectIDViolation vs
       = countKind BuildProjectIDViolation violations).
Proof.
  induction names as [|name names IH]; intros violations st vs e st' Hrun.
  - cbn in Hrun. injection Hrun as <- <- _. split; [lia|reflexivity].
  - cbn [requiredLoop] in Hrun. rewrite bind_run, perform_run in Hrun.
    destruct (GetAttestor af name (world st)) as [[[[a|] [err|]]|] w'];
      cbn [fst snd] in Hrun;
      try (injection Hrun as <- <- _; cbn; split; [lia|discriminate]);
      try discriminate Hrun.
    destruct (hasRequiredAttestation image a attestations) as [ok [err|]].
    + injection Hrun as <- <- _. cbn. split; [lia|discriminate].
    + destruct (IH _ _ _ _ _ Hrun) as [Hle Heq].
      destruct ok; [split; assumption|].
      rewrite countKind_app in Hle, Heq. cbn in Hle, Heq.
      split; [lia|]. intros He. rewrite (Heq He). lia.
Qed.

Lemma checkRequiredAttestations_builder_count (isp : ImageSecurityPolicy)
    (image : string) (f : Fetcher W) (af : AttestorFetcher W)
    (violations : list Violation) (st : State W) (vs : list Violation)
    (e : option error) (st' : State W) :
  checkRequiredAttestations isp image f af violations st
    = (Done (vs, e), st') →
  (countKind BuildProjectIDViolation vs
   ≤ countKind BuildProjectIDViolation violations)%nat
  ∧ (e = None →
     countKind BuildProjectIDViolation vs
     = countKind BuildProjectIDViolation violations).
Proof.
  unfold checkRequiredAttestations. intros Hrun.
  destruct (0 <? length (RequireAttestationsBy isp))%nat.
  - rewrite bind_run, perform_run in Hrun.
    destruct (Attestations f image (world st)) as [[[atts [err|]]|] w'];
      cbn [fst snd] in Hrun.
    + injection Hrun as <- <- _. cbn. split; [lia|discriminate].
    + exact (requiredLoop_builder_count _ _ _ _ _ _ _ _ _ Hrun).
    + discriminate Hrun.
  - injection Hrun as <- <- _. split; [lia|reflexivity].
Qed.

Lemma checkBuiltProjectIDs_cases (isp : ImageSecurityPolicy) (image : string)
    (sid : string) (violations : list Violation) :
  (BuiltProjectIDs isp = [] →
     checkBuiltProjectIDs isp image sid violations = violations)
  ∧ (BuiltProjectIDs isp ≠ [] →
     (noEntryAdmits (BuiltProjectIDs isp) sid image →
        ∃ v, vType v = BuildProjectIDViolation ∧
          checkBuiltProjectIDs isp image sid violations = violations ++ [v])
     ∧ (¬ noEntryAdmits (BuiltProjectIDs isp) sid image →
        checkBuiltProjectIDs isp image sid violations = violations)).
Proof.
  unfold checkBuiltProjectIDs. split.
  - intros ->. reflexivity.
  - intros Hne.
    destruct (BuiltProjectIDs isp) as [|p ps] eqn:Hids; [contradiction|].
    change (0 <? length (p :: ps))%nat with true. cbv iota.
    destruct (hasBuildProjectID (p :: ps) sid image) eqn:Hhas; cbn [negb].
    + split; [|reflexivity]. intros Hno.
      apply hasBuildProjectID_false in Hno. congruence.
    + split; [eexists; split; [|reflexivity]; reflexivity|].
      intros Hno. exfalso. apply Hno.
      apply hasBuildProjectID_false. exact Hhas.
Qed.

Lemma checkBuiltProjectIDs_count (isp : ImageSecurityPolicy) (image : string)
    (sid : string) (violations : list Violation) :
  countKind BuildProjectIDViolation violations = 0%nat →
  (countKind BuildProjectIDViolation
     (checkBuiltProjectIDs isp image sid violations) ≤ 1)%nat
  ∧ (countKind BuildProjectIDViolation
       (checkBuiltProjectIDs isp image sid violations) = 1%nat
     ↔ BuiltProjectIDs isp ≠ []
       ∧ noEntryAdmits (BuiltProjectIDs isp) sid image).
Proof.
  intros Hzero.
  destruct (checkBuiltProjectIDs_cases isp image sid violations)
    as [Hempty Hfull].
  destruct (BuiltProjectIDs isp) as [|p ps] eqn:Hids.
  - rewrite (Hempty eq_refl), Hzero. split; [lia|].
    split; [discriminate|]. intros [Hne _]. contradiction.
  - destruct (Hfull ltac:(discriminate)) as [Hadd Hkeep].
    destruct (hasBuildProjectID (p :: ps) sid image) eqn:Hhas.
    + assert (Hno : ¬ noEntryAdmits (p :: ps) sid image).
      { intros Hno. apply hasBuildProjectID_false in Hno. congruence. }
      rewrite (Hkeep Hno), Hzero. split; [lia|].
      split; [discriminate|]. intros [_ Hyes]. contradiction.
    + apply hasBuildProjectID_false in Hhas.
      destruct (Hadd Hhas) as (v & Hv & ->).
      rewrite countKind_app, Hzero. unfold countKind. cbn. rewrite Hv. cbn.
      split; [lia|]. split; [|reflexivity].
      intros _. split; [discriminate|exact Hhas].
Qed.
End BuilderFacts.

Section BuilderCheck.
Context `{Imports} {W : Type} `{Services W}.

Lemma checkProvenance_builder_count (isp : ImageSecurityPolicy)
    (image : string) (f : Fetcher W) (af : AttestorFetcher W)
    (violations : list Violation) (st : State W) (vs : list Violation)
    (e : option error) (st' : State W) :
  countKind BuildProjectIDViolation violations = 0%nat →
  checkProvenance isp image f af violations st = (Done (vs, e), st') →
  (countKind BuildProjectIDViolation vs ≤ 1)%nat
  ∧ (BuiltProjectIDs isp = [] →
     countKind BuildProjectIDViolation vs = 0%nat).
Proof.
  intros Hzero Hrun. unfold checkProvenance in Hrun.
  rewrite bind_run, perform_run in Hrun.
  destruct (OccurencesV1 f image (world st)) as [[[occs oerr]|] w2];
    cbn [fst snd] in Hrun; [|discriminate Hrun].
  rewrite bind_run in Hrun.
  destruct (occsLoop occs violations "" _) as [[[vs2 sid]|] st3] eqn:Hark;
    [|discriminate Hrun].
  apply occsLoop_builder_count in Hark. rewrite Hzero in Hark.
  destruct (checkRequiredAttestations_builder_count _ _ _ _ _ _ _ _ _ Hrun)
    as [Hle _].
  destruct (checkBuiltProjectIDs_count isp image sid vs2 Hark) as [Hone _].
  split; [lia|].
  intros Hempty.
  destruct (checkBuiltProjectIDs_cases isp image sid vs2) as [Hkeep _].
  rewrite (Hkeep Hempty), Hark in Hle. lia.
Qed.

Lemma evaluator_builder_count (isp : ImageSecurityPolicy) (image : string)
    (f : Fetcher W) (af : AttestorFetcher W) (st : State W)
    (vs : list Violation) (e : option error) (st' : State W) :
  ValidateImageSecurityPolicy isp image f af st = (Done (vs, e), st') →
  (countKind BuildProjectIDViolation vs ≤ 1)%nat
  ∧ (BuiltProjectIDs isp = [] →
     countKind BuildProjectIDViolation vs = 0%nat).
Proof.
  unfold ValidateImageSecurityPolicy. intros Hrun.
  destruct (imageInWhitelist isp image).
  { injection Hrun as <- _ _. cbn. split; [lia|reflexivity]. }
  destruct (negb (FullyQualifiedImage image)).
  { injection Hrun as <- _ _. cbn. split; [lia|reflexivity]. }
  rewrite bind_run, perform_run in Hrun.
  destruct (Vulnerabilities f image (world st)) as [[[vulnz [err|]]|] w1];
    cbn [fst snd] in Hrun; [| |discriminate Hrun].
  { injection Hrun as <- _ _. cbn. split; [lia|reflexivity]. }
  match type of Hrun with
  | context [vulnzLoop ?i ?im ?a ?b ?v ?acc] =>
    pose proof (vulnzLoop_builder_count i im a b v acc) as Hscan;
    destruct (vulnzLoop i im a b v acc) as [vs1 [err|]]
  end; cbn [fst] in Hscan.
  - injection Hrun as <- _ _. rewrite Hscan. cbn. split; [lia|reflexivity].
  - exact (checkProvenance_builder_count _ _ _ _ _ _ _ _ _ Hscan Hrun).
Qed.

(** C7.  An empty builtProjectIDs adds no Built-Project-ID violation for
    any image.  A non-empty one adds at most one, and adds it exactly when
    no entry equals the project the JWT signs for and no entry [E] has the
    image in its registry, that is, the image starts with
    [<zone>.gcr.io/<E>/] for a zone among the empty one (the bare host),
    asia, eu and us. *)
Theorem built_project_ids_check (isp : ImageSecurityPolicy) (image : string)
    (f : Fetcher W) (af : AttestorFetcher W) (st : State W) :
  (∀ E, imageInGCR E image = true ↔ isInRegistry E image)
  ∧ (∀ vsf e st',
       ValidateImageSecurityPolicy isp image f af st = (Done (vsf, e), st') →
       (countKind BuildProjectIDViolation vsf ≤ 1)%nat
       ∧ (BuiltProjectIDs isp = [] →
          countKind BuildProjectIDViolation vsf = 0%nat))
  ∧ (∀ vulnz w1 vs occs oerr w2 vs2 sid st3,
       ¬ In image (ImageWhitelist isp) →
       FullyQualifiedImage image = true →
       Vulnerabilities f image (world st) = (Done (vulnz, None), w1) →
       vulnzLoop isp image (maximumSeverity isp)
         (maximumFixUnavailableSeverity isp) vulnz [] = (vs, None) →
       OccurencesV1 f image w1 = (Done (occs, oerr), w2) →
       occsLoop occs vs ""
         (after (after st [Call_Vulnerabilities image] w1)
            [Call_OccurencesV1 image] w2) = (Done (vs2, sid), st3) →
       (BuiltProjectIDs isp ≠ [] →
        noEntryAdmits (BuiltProjectIDs isp) sid image →
        ∃ v, vType v = BuildProjectIDViolation ∧
          ValidateImageSecurityPolicy isp image f af st =
            checkRequiredAttestations isp image f af (vs2 ++ [v]) st3)
       ∧ (BuiltProjectIDs isp = []
          ∨ ¬ noEntryAdmits (BuiltProjectIDs isp) sid image →
          ValidateImageSecurityPolicy isp image f af st =
            checkRequiredAttestations isp image f af vs2 st3)
       ∧ ∀ vsf st',
           ValidateImageSecurityPolicy isp image f af st
             = (Done (vsf, None), st') →
           (countKind BuildProjectIDViolation vsf = 1%nat
            ↔ BuiltProjectIDs isp ≠ []
              ∧ noEntryAdmits (BuiltProjectIDs isp) sid image)).
Proof.
  split; [intros E; apply imageInGCR_isInRegistry|].
  split; [intros vsf e st'; apply evaluator_builder_count|].
  intros vulnz w1 vs occs oerr w2 vs2 sid st3 Hnin Hq Hv Hscan Hocc Hark.
  rewrite (evaluator_checks_provenance _ _ _ _ _ _ _ _ _ _ _ _ _ _
             Hnin Hq Hv Hscan Hocc Hark).
  destruct (checkBuiltProjectIDs_cases isp image sid vs2) as [Hempty Hfull].
  assert (Hzero : countKind BuildProjectIDViolation vs2 = 0%nat).
  { rewrite (occsLoop_builder_count _ _ _ _ _ _ _ Hark).
    pose proof (vulnzLoop_builder_count isp image (maximumSeverity isp)
                  (maximumFixUnavailableSeverity isp) vulnz []) as Hc.
    rewrite Hscan in Hc. exact Hc. }
  split; [|split].
  - intros Hne Hno. destruct (Hfull Hne) as [Hadd _].
    destruct (Hadd Hno) as (v & Hv' & ->). exists v. split; [exact Hv'|].
    reflexivity.
  - intros [Hids|Hyes].
    + rewrite (Hempty Hids). reflexivity.
    + destruct (BuiltProjectIDs isp) as [|p ps] eqn:Hids.
      * rewrite (Hempty eq_refl). reflexivity.
      * destruct (Hfull ltac:(discriminate)) as [_ Hkeep].
        rewrite (Hkeep Hyes). reflexivity.
  - intros vsf st' Hrun.
    destruct (checkRequiredAttestations_builder_count _ _ _ _ _ _ _ _ _ Hrun)
      as [_ Heq].
    rewrite (Heq eq_refl).
    apply (checkBuiltProjectIDs_count isp image sid vs2 Hzero).
Qed.
End BuilderCheck.

(** Scenario "Required attestor miss": the policy requires [build-bot] and
    the backend has no attestation of the pinned image.  With [build-bot]
    registered there is one Required-Attestation violation; with no
    attestor registered the evaluation ends in an error. *)
Lemma required_attestations_without_attestations_witness :
  fst (@ValidateImageSecurityPolicy Example.imports _ Example.services
         Example.requiringBuildBot Example.pinned Example.fetcher
         Example.attestorFetcher
         (Example.start (Example.registering [Example.buildBot])))
  = Done ([{| vulnerability := None;
              vType := RequiredAttestationViolation;
              reason :=
                Example.dquote +:+ Example.pinned +:+ Example.dquote +:+
                " doesn't have a required attestation: [build-bot]" |}],
          None)
  ∧ ∃ e,
      fst (@ValidateImageSecurityPolicy Example.imports _ Example.services
             Example.requiringBuildBot Example.pinned Example.fetcher
             Example.attestorFetcher (Example.start Example.quiet))
      = Done ([], Some e).
Proof.
  split.
  - edestruct (@required_attestations_without_attestations Example.imports _
                 Example.services Example.requiringBuildBot Example.pinned
                 Example.fetcher Example.attestorFetcher
                 (Example.start (Example.registering [Example.buildBot])))
      as (Hall & _ & _).
    + simpl. tauto.
    + reflexivity.
    + reflexivity.
    + reflexivity.
    + reflexivity.
    + reflexivity.
    + discriminate.
    + reflexivity.
    + rewrite Hall; reflexivity.
  - edestruct (@required_attestations_without_attestations Example.imports _
                 Example.services Example.requiringBuildBot Example.pinned
                 Example.fetcher Example.attestorFetcher
                 (Example.start Example.quiet))
      as (_ & Hfail & _).
    + simpl. tauto.
    + reflexivity.
    + reflexivity.
    + reflexivity.
    + reflexivity.
    + reflexivity.
    + discriminate.
    + reflexivity.
    + apply Hfail; reflexivity.
Defined.

(** C6 as the specification words it does not hold: an image that passes
    the qualification check and whose signature payload cannot be built.
    The policy requires [build-bot], the attestor resolves and the backend
    has no attestation of the image; the evaluator returns an error and no
    Required-Attestation violation. *)
Theorem required_attestation_needs_the_payload :
  RequireAttestationsBy Example.requiringBuildBot = ["build-bot"]
  ∧ @FullyQualifiedImage Example.strictImports Example.bare = true
  ∧ Attestations Example.fetcher Example.bare
      (Example.registering [Example.buildBot])
    = (Done ([], None), Example.registering [Example.buildBot])
  ∧ GetAttestor Example.attestorFetcher "build-bot"
      (Example.registering [Example.buildBot])
    = (Done (Some Example.buildBot, None),
       Example.registering [Example.buildBot])
  ∧ @ValidateImageSecurityPolicy Example.strictImports _ Example.services
      Example.requiringBuildBot Example.bare Example.fetcher
      Example.attestorFetcher
      (Example.start (Example.registering [Example.buildBot]))
    = (Done ([],
             Some (withMessage
                     (withMessage
                        (errorString
                           "strict validation requires the registry to be explicitly defined")
                        ("failed to initialize attestation signature: " +:+
                         Example.bare))
                     ("failed to check if required attestation exist: " +:+
                      Example.bare +:+ ", build-bot"))),
       mkState (Example.registering [Example.buildBot])
         [Call_Vulnerabilities Example.bare;
          Call_OccurencesV1 Example.bare;
          Call_Attestations Example.bare;
          Call_GetAttestor "build-bot"]).
Proof. repeat split. Qed.

(** An image of the project [kritis] under a policy that admits the project
    [trusted], with no signed project: exactly one Built-Project-ID
    violation; the image is in the registry of [kritis]. *)
Lemma built_project_ids_check_witness :
  isInRegistry "kritis" Example.image
  ∧ ∃ v, vType v = BuildProjectIDViolation ∧
      @ValidateImageSecurityPolicy Example.imports _ Example.services
        Example.builtByTrusted Example.image Example.fetcher
        Example.attestorFetcher (Example.start Example.quiet)
      = (Done ([v], None),
         mkState Example.quiet
           [Call_Vulnerabilities Example.image;
            Call_OccurencesV1 Example.image]).
Proof.
  destruct (@built_project_ids_check Example.imports _ Example.services
              Example.builtByTrusted Example.image Example.fetcher
              Example.attestorFetcher (Example.start Example.quiet))
    as (Hreg & _ & Hrun).
  split; [apply Hreg; reflexivity|].
  edestruct Hrun as (Hadd & _ & _).
  - simpl. tauto.
  - reflexivity.
  - reflexivity.
  - reflexivity.
  - reflexivity.
  - reflexivity.
  - destruct Hadd as (v & Hv & Heq).
    + discriminate.
    + apply hasBuildProjectID_false. reflexivity.
    + exists v. split; [exact Hv|]. rewrite Heq. reflexivity.
Defined.

(** ** The reviewer *)

Section ReviewFacts.
Context `{Imports} {W : Type}.

Lemma verifyLoop_finds (image : string) (keys : gmap string string)
    (attestations : list PGPAttestation) (a : PGPAttestation) :
  In a attestations →
  VerifyAttestationSignature image (default "" (keys !! KeyID a))
    (Signature a) = None →
  verifyLoop image keys attestations = true.
Proof.
  intros Hin Hok.
  induction attestations as [|b attestations IH]; [destruct Hin|].
  cbn [verifyLoop].
  destruct (VerifyAttestationSignature image
              (default "" (keys !! KeyID b)) (Signature b)) eqn:Hb;
    [|reflexivity].
  destruct Hin as [->|Hin]; [congruence|].
  apply IH. exact Hin.
Qed.

(** A key registered under a fingerprint is either one that was there
    before or the decoded key of an authority with that fingerprint. *)
Lemma keysByFingerprint_lookup (auths : list AttestationAuthority) :
  ∀ (keys : gmap string string) (fp key : string),
    keysByFingerprint auths keys !! fp = Some key →
    keys !! fp = Some key
    ∨ ∃ auth, In auth auths ∧
        fingerprint (PublicKeyData auth) = (key, fp, None).
Proof.
  induction auths as [|auth auths IH]; intros keys fp key Hlook.
  - left. exact Hlook.
  - cbn [keysByFingerprint] in Hlook.
    destruct (fingerprint (PublicKeyData auth)) as [[k f] [err|]] eqn:Hfp.
    + destruct (IH _ _ _ Hlook) as [Hold|(b & Hin & Hb)].
      * left. exact Hold.
      * right. exists b. split; [right; exact Hin|exact Hb].
    + destruct (IH _ _ _ Hlook) as [Hold|(b & Hin & Hb)].
      * destruct (decide (f = fp)) as [->|Hne].
        -- rewrite lookup_insert_eq in Hold. injection Hold as ->.
           right. exists auth. split; [left; reflexivity|exact Hfp].
        -- rewrite lookup_insert_ne in Hold by exact Hne.
           left. exact Hold.
      * right. exists b. split; [right; exact Hin|exact Hb].
Qed.

End ReviewFacts.



(** ** The scenarios of the specification, run *)

(** On the generated table the sentinels are no levels: every level is
    within itself. *)
Lemma generated_levels_within_themselves (S : string) :
  @isLevel Example.imports S = true →
  @severityWithinThreshold Example.imports S S = (true, None).
Proof.
  intros Hlev.
  destruct (String.eqb_spec S constants.BlockAll) as [->|Hb];
    [discriminate Hlev|].
  destruct (String.eqb_spec S constants.AllowAll) as [->|Ha];
    [discriminate Hlev|].
  rewrite (@within_non_sentinel Example.imports) by assumption.
  unfold isLevel in Hlev.
  destruct (@Severity_value Example.imports S); [|discriminate Hlev].
  rewrite Z.leb_refl. reflexivity.
Qed.

(** "Fix-unavailable bypass": a HIGH vulnerability without a fix under
    maximumFixUnavailableSeverity HIGH. *)
Example fix_unavailable_bypass :
  fst (@ValidateImageSecurityPolicy Example.imports _ Example.services
         (Example.isp [] "MEDIUM" "HIGH" [] [] [] []) Example.image
         Example.fetcher Example.attestorFetcher
         (Example.start
            (Example.reporting [Example.vuln "CVE-1" "HIGH" false])))
  = Done ([], None).
Proof. reflexivity. Qed.

(** "Short-circuit": in webhook mode the review of an image attested by
    [authority1] ends well after four calls, none of them to the
    evaluator. *)
Example short_circuit_review :
  let run :=
    @Review Example.imports _ (Example.reviewer true) [Example.image]
      [Example.trustingAuthority1] None
      (Example.start (Example.attestedUnder "fp:key1")) in
  fst run = Done None
  ∧ calls (snd run) =
      [Call_ClusterWhitelistedImagesRemover [Example.image];
       Call_Auths "default" "authority1";
       Call_Attestations Example.image;
       Call_HandleAttestation Example.image None true].
Proof. split; reflexivity. Qed.

(** Outside webhook mode the same review validates the policy. *)
Example no_short_circuit_outside_webhook :
  let run :=
    @Review Example.imports _ (Example.reviewer false) [Example.image]
      [Example.trustingAuthority1] None
      (Example.start (Example.attestedUnder "fp:key1")) in
  fst run = Done None
  ∧ calls (snd run) =
      [Call_ClusterWhitelistedImagesRemover [Example.image];
       Call_Auths "default" "authority1";
       Call_Attestations Example.image;
       Call_HandleAttestation Example.image None true;
       Call_Validate Example.trustingAuthority1 Example.image;
       Call_Vulnerabilities Example.image;
       Call_OccurencesV1 Example.image].
Proof. split; reflexivity. Qed.

(** A signed project admits an image that no registry admits: the first
    JWT of the occurrence under the ArkCI note names [trusted]. *)
Example signed_project_admits :
  let w :=
    {| Example.vulnz := ([], None);
       Example.occs :=
         ([{| NoteName := "projects/ark/notes/ci"; Jwts := ["trusted"] |}],
          None);
       Example.atts := ([], None);
       Example.attestors := []; Example.authorities := [];
       Example.issued := [] |} in
  fst (@ValidateImageSecurityPolicy Example.imports _ Example.services
         Example.builtByTrusted Example.image Example.fetcher
         Example.attestorFetcher (Example.start w))
  = Done ([], None).
Proof. reflexivity. Qed.

(** * Further properties of the code *)

(** ** Splitting strings *)

Lemma Split_not_nil (s : string) (sep : ascii) : Split s sep ≠ [].
Proof.
  destruct s as [|c s]; cbn [Split]; [discriminate|].
  destruct (Ascii.eqb c sep); [discriminate|].
  destruct (Split s sep); discriminate.
Qed.

Lemma Split_cons_other (c sep : ascii) (s : string) :
  Ascii.eqb c sep = false →
  ∃ head tail, Split s sep = head :: tail
    ∧ Split (String c s) sep = String c head :: tail.
Proof.
  intros Hne. cbn [Split]. rewrite Hne.
  destruct (Split s sep) as [|head tail] eqn:Hs.
  - exfalso. exact (Split_not_nil _ _ Hs).
  - exists head, tail. split; reflexivity.
Qed.

Lemma Split_app (a b : string) (sep : ascii) :
  Split (a +:+ String sep b) sep = Split a sep ++ Split b sep.
Proof.
  induction a as [|c a IH].
  - change ("" +:+ String sep b) with (String sep b).
    cbn [Split]. rewrite Ascii.eqb_refl. reflexivity.
  - change (String c a +:+ String sep b)
      with (String c (a +:+ String sep b)).
    cbn [Split]. destruct (Ascii.eqb c sep).
    + rewrite IH. reflexivity.
    + rewrite IH.
      destruct (Split a sep) as [|head tail] eqn:Ha.
      * exfalso. exact (Split_not_nil _ _ Ha).
      * reflexivity.
Qed.

Lemma Split_no_separator (s : string) (sep : ascii) :
  countByte sep s = 0%nat → Split s sep = [s].
Proof.
  induction s as [|c s IH]; [reflexivity|].
  cbn [countByte Split]. destruct (Ascii.eqb c sep); [discriminate|].
  intros Hs. rewrite (IH Hs). reflexivity.
Qed.

Lemma length_Split (s : string) (sep : ascii) :
  length (Split s sep) = S (countByte sep s).
Proof.
  induction s as [|c s IH]; [reflexivity|].
  cbn [countByte Split]. destruct (Ascii.eqb c sep).
  - cbn. rewrite IH. reflexivity.
  - destruct (Split s sep) as [|head tail] eqn:Hs.
    + exfalso. exact (Split_not_nil _ _ Hs).
    + cbn in *. exact IH.
Qed.

Lemma concat_cons_String (sep : string) (c : ascii) (head : string)
    (tail : list string) :
  String.concat sep (String c head :: tail)
  = String c (String.concat sep (head :: tail)).
Proof. destruct tail; reflexivity. Qed.

(** Joining what was split gives the string back. *)
Lemma Join_Split (s : string) (sep : ascii) :
  Join (Split s sep) (String sep "") = s.
Proof.
  unfold Join. induction s as [|c s IH]; [reflexivity|].
  cbn [Split]. destruct (Ascii.eqb_spec c sep) as [->|Hne].
  - destruct (Split s sep) as [|head tail] eqn:Hs.
    + exfalso. exact (Split_not_nil _ _ Hs).
    + change (String.concat (String sep "") ("" :: head :: tail))
        with ("" +:+ String sep "" +:+
              String.concat (String sep "") (head :: tail)).
      rewrite IH. reflexivity.
  - destruct (Split s sep) as [|head tail] eqn:Hs.
    + exfalso. exact (Split_not_nil _ _ Hs).
    + rewrite concat_cons_String, IH. reflexivity.
Qed.

(** ** Package [containeranalysis]: names of registries and projects *)

Lemma string_app_assoc (a b c : string) : (a +:+ b) +:+ c = a +:+ b +:+ c.
Proof.
  induction a as [|x a IH]; [reflexivity|].
  change ((String x a +:+ b) +:+ c) with (String x ((a +:+ b) +:+ c)).
  change (String x a +:+ b +:+ c) with (String x (a +:+ b +:+ c)).
  rewrite IH. reflexivity.
Qed.

Lemma last_two {A} (d : A) (l : list A) :
  (2 ≤ length l)%nat →
  ∃ init,
    l = init ++ [nth (length l - 2) l d; nth (length l - 1) l d].
Proof.
  induction l as [|a l IH]; [cbn; lia|].
  destruct l as [|b l]; [cbn; lia|]. intros _.
  destruct l as [|c l].
  - exists []. reflexivity.
  - destruct (IH ltac:(cbn; lia)) as (init & Hinit).
    exists (a :: init).
    replace (length (a :: b :: c :: l) - 2)%nat
      with (S (length (b :: c :: l) - 2)) by (cbn; lia).
    replace (length (a :: b :: c :: l) - 1)%nat
      with (S (length (b :: c :: l) - 1)) by (cbn; lia).
    cbn [nth]. cbn [app]. f_equal. exact Hinit.
Qed.

Lemma concat_two_last (sep : string) (init : list string) (x y : string) :
  String.concat sep (init ++ [x; y]) =
    match init with
    | [] => x +:+ sep +:+ y
    | _ => String.concat sep init +:+ sep +:+ x +:+ sep +:+ y
    end.
Proof.
  induction init as [|a init IH]; [reflexivity|].
  destruct init as [|b init].
  - reflexivity.
  - change (String.concat sep ((a :: b :: init) ++ [x; y]))
      with (a +:+ sep +:+ String.concat sep ((b :: init) ++ [x; y])).
    rewrite IH.
    change (String.concat sep (a :: b :: init))
      with (a +:+ sep +:+ String.concat sep (b :: init)).
    rewrite !string_app_assoc. reflexivity.
Qed.

(** X1.  A registry name is accepted exactly when it is [gcr.io] or ends
    in [.gcr.io]. *)
Theorem isRegistryGCR_iff (r : string) :
  isRegistryGCR r = true ↔ r = "gcr.io" ∨ ∃ p, r = p +:+ ".gcr.io".
Proof.
  unfold isRegistryGCR. split.
  - destruct (length (Split r ".") <? 2)%nat eqn:Hlen; [discriminate|].
    apply Nat.ltb_ge in Hlen.
    destruct (String.eqb_spec
                (nth (length (Split r ".") - 2) (Split r ".") "") "gcr")
      as [Hgcr|]; [|discriminate].
    destruct (String.eqb_spec
                (nth (length (Split r ".") - 1) (Split r ".") "") "io")
      as [Hio|]; [|discriminate].
    intros _. destruct (last_two "" _ Hlen) as (init & Hinit).
    rewrite Hgcr, Hio in Hinit.
    pose proof (Join_Split r ".") as Hjoin. unfold Join in Hjoin.
    rewrite Hinit, concat_two_last in Hjoin.
    destruct init as [|a init].
    + left. symmetry. exact Hjoin.
    + right. exists (String.concat "." (a :: init)). symmetry. exact Hjoin.
  - intros [->|(p & ->)]; [reflexivity|].
    change (p +:+ ".gcr.io") with (p +:+ String "." "gcr.io").
    rewrite Split_app.
    change (Split "gcr.io" ".") with ["gcr"; "io"].
    rewrite length_app. cbn [length].
    replace (length (Split p ".") + 2 <? 2)%nat with false
      by (symmetry; apply Nat.ltb_ge; lia).
    replace (length (Split p ".") + 2 - 2)%nat
      with (length (Split p ".") + 0)%nat by lia.
    replace (length (Split p ".") + 2 - 1)%nat
      with (length (Split p ".") + 1)%nat by lia.
    rewrite !app_nth2_plus. reflexivity.
Qed.

Lemma Split_three (a b c : string) :
  countByte "/" a = 0%nat → countByte "/" b = 0%nat →
  Split (a +:+ "/" +:+ b +:+ "/" +:+ c) "/" = a :: b :: Split c "/".
Proof.
  intros Ha Hb.
  change (a +:+ "/" +:+ b +:+ "/" +:+ c)
    with (a +:+ String "/" (b +:+ String "/" c)).
  rewrite !Split_app, (Split_no_separator _ _ Ha),
    (Split_no_separator _ _ Hb).
  reflexivity.
Qed.

Lemma noteReference_error_iff (ref : string) :
  snd (getProjectFromNoteReference ref) = None
  ↔ (2 ≤ countByte "/" ref)%nat.
Proof.
  unfold getProjectFromNoteReference. rewrite length_Split.
  destruct (S (countByte "/" ref) <? 3)%nat eqn:Hlen; cbn [snd].
  - apply Nat.ltb_lt in Hlen. split; [discriminate|lia].
  - apply Nat.ltb_ge in Hlen. split; [lia|reflexivity].
Qed.

Lemma noteReference_project (api kind project : string) :
  countByte "/" api = 0%nat → countByte "/" kind = 0%nat →
  countByte "/" project = 0%nat →
  getProjectFromNoteReference (api +:+ "/" +:+ kind +:+ "/" +:+ project)
    = (project, None)
  ∧ ∀ more,
      getProjectFromNoteReference
        (api +:+ "/" +:+ kind +:+ "/" +:+ project +:+ "/" +:+ more)
      = (project, None).
Proof.
  intros Ha Hk Hp. unfold getProjectFromNoteReference. split.
  - rewrite (Split_three _ _ _ Ha Hk), (Split_no_separator _ _ Hp).
    reflexivity.
  - intros more. rewrite (Split_three _ _ _ Ha Hk).
    change (project +:+ "/" +:+ more) with (project +:+ String "/" more).
    rewrite Split_app, (Split_no_separator _ _ Hp). reflexivity.
Qed.

(** X2.  A note reference yields a project exactly when it has at least
    two slashes; the project is then what stands between the second slash
    and the next one, and without a project the answer is the empty string
    with an error. *)
Theorem getProjectFromNoteReference_cases (ref : string) :
  (snd (getProjectFromNoteReference ref) = None
   ↔ (2 ≤ countByte "/" ref)%nat)
  ∧ (snd (getProjectFromNoteReference ref) ≠ None →
     fst (getProjectFromNoteReference ref) = "")
  ∧ (∀ api kind project,
       countByte "/" api = 0%nat → countByte "/" kind = 0%nat →
       countByte "/" project = 0%nat →
       (ref = api +:+ "/" +:+ kind +:+ "/" +:+ project
        ∨ ∃ more, ref = api +:+ "/" +:+ kind +:+ "/" +:+ project
                        +:+ "/" +:+ more) →
       getProjectFromNoteReference ref = (project, None)).
Proof.
  split; [apply noteReference_error_iff|]. split.
  - unfold getProjectFromNoteReference.
    destruct (length (Split ref "/") <? 3)%nat; cbn [fst snd];
      [reflexivity|congruence].
  - intros api kind project Ha Hk Hp [->|(more & ->)].
    + apply (noteReference_project api kind project Ha Hk Hp).
    + apply (noteReference_project api kind project Ha Hk Hp).
Qed.

Lemma zoneHost_no_slash (zone : string) :
  In zone [""; "asia"; "eu"; "us"] → countByte "/" (zoneHost zone) = 0%nat.
Proof.
  cbn [In]. intros [<-|[<-|[<-|[<-|[]]]]]; reflexivity.
Qed.

(** X3.  The project the client asks the backend about is the one whose
    registry the builder check finds the image in: when [imageInGCR]
    accepts an image for a project without a slash in its name,
    [getProjectFromContainerImage] returns that project.  An image without
    a slash has the empty project. *)
Theorem project_of_registry_image (image : string) :
  (∀ projectID, imageInGCR projectID image = true →
     countByte "/" projectID = 0%nat →
     getProjectFromContainerImage image = projectID)
  ∧ (countByte "/" image = 0%nat → getProjectFromContainerImage image = "").
Proof.
  unfold getProjectFromContainerImage. split.
  - intros projectID Hgcr Hp.
    apply imageInGCR_isInRegistry in Hgcr.
    destruct Hgcr as (zone & Hzone & rest & ->).
    rewrite !string_app_assoc.
    rewrite (Split_three _ _ _ (zoneHost_no_slash _ Hzone) Hp).
    reflexivity.
  - intros Himage. rewrite (Split_no_separator _ _ Himage). reflexivity.
Qed.

(** ** Package [containeranalysis]: the client *)

Section ClientFacts.
Context `{Imports} {W : Type} `{Backend W}.

Lemma nextLoop_run (pending : list Occurrence) (ending : option error) :
  ∀ occs,
    Client.nextLoop pending ending occs =
      match ending with
      | None => (occs ++ pending, None)
      | Some err => ([], Some err)
      end.
Proof.
  induction pending as [|occ pending IH]; intros occs; cbn [Client.nextLoop].
  - destruct ending; [reflexivity|]. rewrite app_nil_r. reflexivity.
  - rewrite IH. destruct ending; [reflexivity|].
    rewrite <- app_assoc. reflexivity.
Qed.

Lemma vulnzOf_omap (occs : list Occurrence) :
  ∀ vulnz,
    Client.vulnzOf occs vulnz
    = vulnz ++ omap GetVulnerabilityFromOccurrence occs.
Proof.
  induction occs as [|occ occs IH]; intros vulnz; cbn [Client.vulnzOf].
  - cbn. rewrite app_nil_r. reflexivity.
  - destruct (GetVulnerabilityFromOccurrence occ) as [v|] eqn:Hv;
      rewrite IH; cbn [omap list_omap]; rewrite Hv.
    + rewrite <- app_assoc. reflexivity.
    + reflexivity.
Qed.

(** X4.  An image that does not parse or whose registry is not GCR is
    refused before the backend is asked: the listing calls and the creation
    of an attestation occurrence return the same error and leave the
    backend as it was. *)
Theorem client_refuses_other_registries (image : string) (w : W) :
  Client.isValidImageOnGCR image = false →
  Client.Vulnerabilities image w = (Done ([], Some (notOnGCR image)), w)
  ∧ Client.Attestations image w = (Done ([], Some (notOnGCR image)), w)
  ∧ Client.Builds image w = (Done ([], Some (notOnGCR image)), w)
  ∧ ∀ note key,
      Client.CreateAttestationOccurence note image key w
      = (Done (None, Some (notOnGCR image)), w).
Proof.
  intros Hinvalid.
  assert (Hfetch : ∀ kind,
            Client.fetchOccurrence image kind w
            = (Done ([], Some (notOnGCR image)), w)).
  { intros kind. unfold Client.fetchOccurrence. rewrite Hinvalid.
    reflexivity. }
  unfold Client.Vulnerabilities, Client.Attestations, Client.Builds,
    Client.CreateAttestationOccurence.
  rewrite !Hfetch, Hinvalid. repeat split; reflexivity.
Qed.

(** X5.  For an image on GCR the client lists the occurrences of the
    project of the image.  When the iterator ends normally, [Attestations]
    returns one attestation per occurrence, in order, and
    [Vulnerabilities] the vulnerabilities of the occurrences that have one,
    in order; when it ends in an error, both return that error and nothing
    of what was read. *)
Theorem client_listing (image : string) (w : W) :
  Client.isValidImageOnGCR image = true →
  ∀ kind pending ending w',
    ListOccurrences
      {| grafeas.Filter :=
           "resource_url=" +:+ quote (GetResourceURL image) +:+
           " AND kind=" +:+ quote kind;
         grafeas.PageSize := PageSize;
         grafeas.Parent :=
           "projects/" +:+ getProjectFromContainerImage image |} w
    = (Done (pending, ending), w') →
    (kind = AttestationAuthorityKind →
     Client.Attestations image w =
       (Done (match ending with
              | None => (map GetPgpAttestationFromOccurrence pending, None)
              | Some err => ([], Some err)
              end), w'))
    ∧ (kind = PkgVulnerability →
       Client.Vulnerabilities image w =
         (Done (match ending with
                | None => (omap GetVulnerabilityFromOccurrence pending, None)
                | Some err => ([], Some err)
                end), w')).
Proof.
  intros Hvalid kind pending ending w' Hlist.
  split; intros ->.
  - unfold Client.Attestations, Client.fetchOccurrence.
    rewrite Hvalid. cbn [negb]. rewrite Hlist, nextLoop_run.
    destruct ending; reflexivity.
  - unfold Client.Vulnerabilities, Client.fetchOccurrence.
    rewrite Hvalid. cbn [negb]. rewrite Hlist, nextLoop_run.
    destruct ending; [reflexivity|]. rewrite vulnzOf_omap. reflexivity.
Qed.

(** X6.  A note reference with fewer than two slashes makes the three note
    calls fail without the backend being asked; with a reference of the
    form [api/kind/project] they address the note
    [projects/project/notes/name] of the authority. *)
Theorem client_note_calls (aa : AttestationAuthority) (w : W) :
  ((countByte "/" (NoteReference aa) < 2)%nat →
   ∃ err,
     Client.AttestationNote (Some aa) w = (Done (None, Some err), w)
     ∧ Client.CreateAttestationNote (Some aa) w = (Done (None, Some err), w)
     ∧ Client.DeleteAttestationNote (Some aa) w = (Done (Some err), w))
  ∧ (∀ api kind project,
       countByte "/" api = 0%nat → countByte "/" kind = 0%nat →
       countByte "/" project = 0%nat →
       NoteReference aa = api +:+ "/" +:+ kind +:+ "/" +:+ project →
       Client.AttestationNote (Some aa) w =
         GetNote ("projects/" +:+ project +:+ "/notes/" +:+ AuthorityName aa) w
       ∧ Client.DeleteAttestationNote (Some aa) w =
           DeleteNote
             ("projects/" +:+ project +:+ "/notes/" +:+ AuthorityName aa) w
       ∧ ∃ note,
           grafeas.Name note =
             "projects/" +:+ project +:+ "/notes/" +:+ AuthorityName aa
           ∧ Client.CreateAttestationNote (Some aa) w =
               CreateNote
                 {| grafeas.Note := note;
                    grafeas.NoteId := AuthorityName aa;
                    grafeas.NoteParent := "projects/" +:+ project |} w).
Proof.
  unfold Client.AttestationNote, Client.CreateAttestationNote,
    Client.DeleteAttestationNote.
  split.
  - intros Hfew.
    pose proof (noteReference_error_iff (NoteReference aa)) as Hiff.
    destruct (getProjectFromNoteReference (NoteReference aa))
      as [project [err|]]; cbn [snd] in Hiff.
    + exists err. repeat split; reflexivity.
    + destruct Hiff as [Hge _]. specialize (Hge eq_refl). lia.
  - intros api kind project Ha Hk Hp Href.
    rewrite Href, (proj1 (noteReference_project api kind project Ha Hk Hp)).
    split; [reflexivity|]. split; [reflexivity|].
    eexists. split; [|reflexivity]. reflexivity.
Qed.
End ClientFacts.

(** Scenario: an image with a digest on [docker.io] is refused by the
    client; the store has not been asked. *)
Lemma client_refuses_other_registries_witness :
  @Client.Vulnerabilities Example.imports _ Example.backend
    Example.elsewhere (Example.mixedStore None)
  = (Done ([], Some (@notOnGCR Example.imports Example.elsewhere)),
     Example.mixedStore None).
Proof.
  destruct (@client_refuses_other_registries Example.imports _
              Example.backend Example.elsewhere (Example.mixedStore None))
    as (Hvulnz & _).
  - reflexivity.
  - exact Hvulnz.
Defined.

(** Scenario: a store with a vulnerability, something else and an
    attestation.  The vulnerabilities are the one occurrence that has one;
    a listing that ends in an error gives no attestation. *)
Lemma client_listing_witness :
  fst (@Client.Vulnerabilities Example.imports _ Example.backend
         Example.image (Example.mixedStore None))
  = Done ([Example.vuln "CVE-1" "HIGH" true], None)
  ∧ fst (@Client.Attestations Example.imports _ Example.backend
           Example.image
           (Example.mixedStore (Some (errorString "deadline exceeded"))))
    = Done ([], Some (errorString "deadline exceeded")).
Proof.
  split.
  - edestruct (@client_listing Example.imports _ Example.backend
                 Example.image (Example.mixedStore None))
      as (_ & Hvulnz).
    + reflexivity.
    + reflexivity.
    + rewrite Hvulnz; reflexivity.
  - edestruct (@client_listing Example.imports _ Example.backend
                 Example.image
                 (Example.mixedStore (Some (errorString "deadline exceeded"))))
      as (Hatts & _).
    + reflexivity.
    + reflexivity.
    + rewrite Hatts; reflexivity.
Defined.

(** ** What a computation adds to the log *)

Section AppendsFacts.
Context {W : Type}.

Lemma appends_ret {A} (P : Call → Prop) (a : A) :
  appends P (mret a : M W A).
Proof.
  intros st r st' Hrun. injection Hrun as _ <-.
  exists []. rewrite app_nil_r. split; [reflexivity|constructor].
Qed.

Lemma appends_panic {A} (P : Call → Prop) : appends P (panic : M W A).
Proof.
  intros st r st' Hrun. injection Hrun as _ <-.
  exists []. rewrite app_nil_r. split; [reflexivity|constructor].
Qed.

Lemma appends_bind {A B} (P : Call → Prop) (m : M W A) (k : A → M W B) :
  appends P m → (∀ a, appends P (k a)) → appends P (m ≫= k).
Proof.
  intros Hm Hk st r st' Hrun. rewrite bind_run in Hrun.
  destruct (m st) as [[a|] st1] eqn:Hmst.
  - destruct (Hm _ _ _ Hmst) as (e1 & Hc1 & HP1).
    destruct (Hk a _ _ _ Hrun) as (e2 & Hc2 & HP2).
    exists (e1 ++ e2). rewrite Hc2, Hc1, <- app_assoc.
    split; [reflexivity|]. apply Forall_app. split; assumption.
  - injection Hrun as _ <-. exact (Hm _ _ _ Hmst).
Qed.

Lemma appends_perform {A} (P : Call → Prop) (c : Call) (e : Effect W A) :
  P c → appends P (perform c e).
Proof.
  intros Hc st r st' Hrun. rewrite perform_run in Hrun.
  injection Hrun as _ <-. exists [c].
  split; [reflexivity|]. constructor; [exact Hc|constructor].
Qed.

Lemma appends_invoke {A} (P : Call → Prop) (c : Call) (m : M W A) :
  P c → appends P m → appends P (invoke c m).
Proof.
  intros Hc Hm st r st' Hrun. unfold invoke in Hrun.
  destruct (Hm _ _ _ Hrun) as (extra & Hcalls & HP).
  exists (c :: extra). cbn [calls] in Hcalls.
  rewrite Hcalls, <- app_assoc. split; [reflexivity|].
  constructor; assumption.
Qed.

Lemma appends_weaken {A} (P Q : Call → Prop) (m : M W A) :
  (∀ c, P c → Q c) → appends P m → appends Q m.
Proof.
  intros HPQ Hm st r st' Hrun.
  destruct (Hm _ _ _ Hrun) as (extra & Hcalls & HP).
  exists extra. split; [exact Hcalls|].
  eapply Forall_impl; [exact HP|exact HPQ].
Qed.
End AppendsFacts.

(** ** More on the evaluator *)

Section EvaluatorMore.
Context `{Imports} {W : Type} `{Services W}.

(** X7.  [verifyArkSignature] returns a token exactly when it returns no
    error; a returned token is valid and is what [jwt.Parse] answered for
    the first JWT of the occurrence, after a key service call that gave no
    error.  These are the only two calls: no later JWT is parsed. *)
Theorem verifyArkSignature_result (occ : OccurenceV1) (st : State W)
    (token : option Token) (err : option error) (st' : State W) :
  verifyArkSignature occ st = (Done (token, err), st') →
  (token = None ↔ err ≠ None)
  ∧ ∀ t, token = Some t →
      Valid t = true
      ∧ ∃ j rest w1 w2, Jwts occ = j :: rest
          ∧ KMSVerfiyKeyfunc (Getenv "ARKCI_KMS_SIGNER_KEY") (world st)
            = (Done None, w1)
          ∧ jwt_Parse (Getenv "ARKCI_KMS_SIGNER_KEY") j w1
            = (Done (t, None), w2)
          ∧ st' =
              after st
                [Call_KMSVerfiyKeyfunc (Getenv "ARKCI_KMS_SIGNER_KEY");
                 Call_jwt_Parse j] w2.
Proof.
  unfold verifyArkSignature. rewrite bind_run, perform_run.
  destruct (KMSVerfiyKeyfunc _ (world st)) as [[[kerr|]|] w1];
    cbn [fst snd]; intros Hrun; [| |discriminate Hrun].
  { injection Hrun as <- <- _. split; [split; congruence|discriminate]. }
  destruct (Jwts occ) as [|j rest].
  { injection Hrun as <- <- _. split; [split; congruence|discriminate]. }
  rewrite bind_run, perform_run in Hrun. cbn [world after] in Hrun.
  destruct (jwt_Parse _ j w1) as [[[t [perr|]]|] w2] eqn:Hparse;
    cbn [fst snd] in Hrun; [| |discriminate Hrun].
  { injection Hrun as <- <- _. split; [split; congruence|discriminate]. }
  destruct (Valid t) eqn:Hvalid; cbn [negb] in Hrun;
    injection Hrun as <- <- <-.
  - split; [split; [discriminate|congruence]|].
    intros t' [= <-]. split; [exact Hvalid|].
    exists j, rest, w1, w2. split; [reflexivity|].
    split; [reflexivity|]. split; [exact Hparse|].
    unfold after. cbn [calls]. rewrite <- app_assoc. reflexivity.
  - split; [split; congruence|discriminate].
Qed.

Lemma occsLoop_app (occs1 occs2 : list OccurenceV1) :
  ∀ violations sid (st : State W),
    occsLoop (occs1 ++ occs2) violations sid st =
      match occsLoop occs1 violations sid st with
      | (Done (violations1, sid1), st1) =>
        occsLoop occs2 violations1 sid1 st1
      | (Panic, st1) => (Panic, st1)
      end.
Proof.
  induction occs1 as [|occ occs1 IH]; intros violations sid st;
    [reflexivity|].
  cbn [app occsLoop].
  destruct (String.eqb (NoteName occ) (Getenv "ARKCI_SIGNATURE_NOTE"));
    [|apply IH].
  rewrite !bind_run.
  destruct (verifyArkSignature occ st) as [[[token [err|]]|] st1];
    [apply IH| |reflexivity].
  destruct token as [token|]; [|reflexivity].
  destruct (Claims token); apply IH.
Qed.

Lemma occsLoop_passes_over (occs : list OccurenceV1)
    (violations : list Violation) (sid : string) (st : State W) :
  Forall (λ occ, NoteName occ ≠ Getenv "ARKCI_SIGNATURE_NOTE") occs →
  occsLoop occs violations sid st = (Done (violations, sid), st).
Proof.
  induction 1 as [|occ occs Hocc _ IH]; [reflexivity|].
  cbn [occsLoop]. rewrite (eqb_false_of_ne _ _ Hocc). exact IH.
Qed.

(** X8.  Occurrences under other notes than the ArkCI signature note are
    passed over: they add no call, no violation and no signed project. *)
Theorem occsLoop_skips_other_notes (occs : list OccurenceV1)
    (violations : list Violation) (sid : string) (st : State W) :
  Forall (λ occ, NoteName occ ≠ Getenv "ARKCI_SIGNATURE_NOTE") occs →
  occsLoop occs violations sid st = (Done (violations, sid), st).
Proof. apply occsLoop_passes_over. Qed.

(** X9.  The signed project is that of the last verified token: a token
    that verifies but has no string claim [gcp_project] leaves the empty
    project, whatever was signed before. *)
Theorem last_token_decides_signed_project (occs : list OccurenceV1)
    (occ : OccurenceV1) (violations violations1 : list Violation)
    (sid1 : string) (st st1 st2 : State W) (token : Token)
    (claims : gmap string ClaimValue) :
  occsLoop occs violations "" st = (Done (violations1, sid1), st1) →
  NoteName occ = Getenv "ARKCI_SIGNATURE_NOTE" →
  verifyArkSignature occ st1 = (Done (Some token, None), st2) →
  Claims token = Some claims →
  occsLoop (occs ++ [occ]) violations "" st =
    (Done (violations1,
           match claims !! "gcp_project" with
           | Some (ClaimString project) => project
           | _ => ""
           end), st2).
Proof.
  intros Hbefore Hnote Hverify Hclaims.
  rewrite occsLoop_app, Hbefore. cbn [occsLoop].
  rewrite Hnote, String.eqb_refl, bind_run, Hverify, Hclaims. reflexivity.
Qed.
End EvaluatorMore.

Section EvaluatorOrder.
Context `{Imports} {W : Type} `{Services W}.

Lemma orderedUpTo_nil (k : nat) : orderedUpTo k [].
Proof. split; constructor. Qed.

Lemma orderedUpTo_mono (k k' : nat) (violations : list Violation) :
  (k ≤ k')%nat → orderedUpTo k violations → orderedUpTo k' violations.
Proof.
  intros Hle [Hsorted Hbound]. split; [exact Hsorted|].
  eapply Forall_impl; [exact Hbound|]. cbn. intros v Hv. lia.
Qed.

Lemma orderedUpTo_snoc (k : nat) (violations : list Violation)
    (v : Violation) :
  orderedUpTo (phase (vType v)) violations →
  (phase (vType v) ≤ k)%nat →
  orderedUpTo k (violations ++ [v]).
Proof.
  intros [Hsorted Hbound] Hk. split.
  - unfold inPhaseOrder in *.
    induction Hsorted as [|a l Hl IH Ha].
    + repeat constructor.
    + cbn [app]. apply Forall_cons_1 in Hbound. destruct Hbound as [Hav Hl'].
      constructor; [exact (IH Hl')|].
      apply Forall_app. split; [exact Ha|]. constructor; [exact Hav|constructor].
  - apply Forall_app. split.
    + eapply Forall_impl; [exact Hbound|]. cbn. intros a Ha. lia.
    + constructor; [exact Hk|constructor].
Qed.

Lemma vulnzLoop_ordered (isp : ImageSecurityPolicy) (image : string)
    (maxSev maxNoFixSev : string) (vulnz : list Vulnerability) :
  ∀ violations,
    orderedUpTo 1 violations →
    orderedUpTo 1 (fst (vulnzLoop isp image maxSev maxNoFixSev vulnz
                          violations)).
Proof.
  induction vulnz as [|v vulnz IH]; intros violations Hord; [exact Hord|].
  cbn [vulnzLoop].
  destruct (cveInWhitelist isp (CVE v)); [apply IH; exact Hord|].
  destruct (negb (HasFixAvailable v));
    destruct (severityWithinThreshold _ _) as [[|] [e|]];
    first [exact Hord | apply IH; exact Hord
          | apply IH; apply orderedUpTo_snoc; [exact Hord|cbn; lia]].
Qed.

Lemma vulnzLoop_scan_kinds (isp : ImageSecurityPolicy) (image : string)
    (maxSev maxNoFixSev : string) (vulnz : list Vulnerability) :
  ∀ violations,
    Forall isScanViolation violations →
    Forall isScanViolation
      (fst (vulnzLoop isp image maxSev maxNoFixSev vulnz violations)).
Proof.
  induction vulnz as [|v vulnz IH]; intros violations Hacc; [exact Hacc|].
  cbn [vulnzLoop].
  destruct (cveInWhitelist isp (CVE v)); [apply IH; exact Hacc|].
  destruct (negb (HasFixAvailable v));
    destruct (severityWithinThreshold _ _) as [[|] [e|]];
    first [exact Hacc | apply IH; exact Hacc
          | apply IH; apply Forall_app; split; [exact Hacc|];
            constructor; [|constructor]; unfold isScanViolation; cbn; tauto].
Qed.

Lemma occsLoop_ordered (occs : list OccurenceV1) :
  ∀ violations sid (st : State W) vs sid' st',
    occsLoop occs violations sid st = (Done (vs, sid'), st') →
    orderedUpTo 2 violations → orderedUpTo 2 vs.
Proof.
  induction occs as [|occ occs IH];
    intros violations sid st vs sid' st' Hrun Hord.
  - injection Hrun as <- _ _. exact Hord.
  - cbn [occsLoop] in Hrun.
    destruct (String.eqb (NoteName occ) (Getenv "ARKCI_SIGNATURE_NOTE"));
      [|exact (IH _ _ _ _ _ _ Hrun Hord)].
    rewrite bind_run in Hrun.
    destruct (verifyArkSignature occ st) as [[[token [err|]]|] st1];
      [| |discriminate Hrun].
    + apply (IH _ _ _ _ _ _ Hrun).
      apply orderedUpTo_snoc; [exact Hord|cbn; lia].
    + destruct token as [token|]; [|discriminate Hrun].
      destruct (Claims token); exact (IH _ _ _ _ _ _ Hrun Hord).
Qed.

Lemma checkBuiltProjectIDs_ordered (isp : ImageSecurityPolicy)
    (image sid : string) (violations : list Violation) :
  orderedUpTo 2 violations →
  orderedUpTo 3 (checkBuiltProjectIDs isp image sid violations).
Proof.
  intros Hord. unfold checkBuiltProjectIDs.
  destruct (0 <? length (BuiltProjectIDs isp))%nat;
    [|apply (orderedUpTo_mono 2); [lia|exact Hord]].
  destruct (negb _); [|apply (orderedUpTo_mono 2); [lia|exact Hord]].
  apply orderedUpTo_snoc; [|cbn; lia].
  apply (orderedUpTo_mono 2); [cbn; lia|exact Hord].
Qed.

Lemma requiredLoop_ordered (image : string) (af : AttestorFetcher W)
    (attestations : list PGPAttestation) (names : list string) :
  ∀ violations (st : State W) vs e st',
    requiredLoop image af attestations names violations st
      = (Done (vs, e), st') →
    orderedUpTo 4 violations →
    orderedUpTo 4 vs ∧ (e ≠ None → vs = []).
Proof.
  induction names as [|name names IH]; intros violations st vs e st' Hrun Hord.
  - injection Hrun as <- <- _. split; [exact Hord|congruence].
  - cbn [requiredLoop] in Hrun. rewrite bind_run, perform_run in Hrun.
    destruct (GetAttestor af name (world st)) as [[[[a|] [err|]]|] w'];
      cbn [fst snd] in Hrun;
      try (injection Hrun as <- <- _;
           split; [apply orderedUpTo_nil|reflexivity]);
      try discriminate Hrun.
    destruct (hasRequiredAttestation image a attestations) as [ok [err|]].
    + injection Hrun as <- <- _. split; [apply orderedUpTo_nil|reflexivity].
    + apply (IH _ _ _ _ _ Hrun). destruct ok; [exact Hord|].
      apply orderedUpTo_snoc; [|cbn; lia].
      apply (orderedUpTo_mono 4); [cbn; lia|exact Hord].
Qed.

Lemma checkRequiredAttestations_ordered (isp : ImageSecurityPolicy)
    (image : string) (f : Fetcher W) (af : AttestorFetcher W)
    (violations : list Violation) (st : State W) (vs : list Violation)
    (e : option error) (st' : State W) :
  checkRequiredAttestations isp image f af violations st
    = (Done (vs, e), st') →
  orderedUpTo 4 violations →
  orderedUpTo 4 vs ∧ (e ≠ None → vs = []).
Proof.
  unfold checkRequiredAttestations. intros Hrun Hord.
  destruct (0 <? length (RequireAttestationsBy isp))%nat.
  - rewrite bind_run, perform_run in Hrun.
    destruct (Attestations f image (world st)) as [[[atts [err|]]|] w'];
      cbn [fst snd] in Hrun.
    + injection Hrun as <- <- _. split; [apply orderedUpTo_nil|reflexivity].
    + exact (requiredLoop_ordered _ _ _ _ _ _ _ _ _ Hrun Hord).
    + discriminate Hrun.
  - injection Hrun as <- <- _. split; [exact Hord|congruence].
Qed.

Lemma checkProvenance_ordered (isp : ImageSecurityPolicy) (image : string)
    (f : Fetcher W) (af : AttestorFetcher W) (violations : list Violation)
    (st : State W) (vs : list Violation) (e : option error)
    (st' : State W) :
  checkProvenance isp image f af violations st = (Done (vs, e), st') →
  orderedUpTo 1 violations →
  orderedUpTo 4 vs ∧ (e ≠ None → vs = []).
Proof.
  unfold checkProvenance. intros Hrun Hord.
  rewrite bind_run, perform_run in Hrun.
  destruct (OccurencesV1 f image (world st)) as [[[occs oerr]|] w2];
    cbn [fst snd] in Hrun; [|discriminate Hrun].
  rewrite bind_run in Hrun.
  destruct (occsLoop occs violations "" _) as [[[vs2 sid]|] st3] eqn:Hark;
    [|discriminate Hrun].
  apply (checkRequiredAttestations_ordered _ _ _ _ _ _ _ _ _ Hrun).
  apply (orderedUpTo_mono 3); [lia|].
  apply checkBuiltProjectIDs_ordered.
  apply (occsLoop_ordered _ _ _ _ _ _ _ Hark).
  apply (orderedUpTo_mono 1); [lia|exact Hord].
Qed.

(** X10.  The violations the evaluator returns come in the order of its
    stages: those of the scan, then those of ArkCI signatures, then the
    Built-Project-ID one, then those of required attestations.  A result
    with an error holds violations of the scan only. *)
Theorem evaluator_violations_are_staged (isp : ImageSecurityPolicy)
    (image : string) (f : Fetcher W) (af : AttestorFetcher W) (st : State W)
    (vs : list Violation) (e : option error) (st' : State W) :
  ValidateImageSecurityPolicy isp image f af st = (Done (vs, e), st') →
  inPhaseOrder vs ∧ (e ≠ None → Forall isScanViolation vs).
Proof.
  unfold ValidateImageSecurityPolicy. intros Hrun.
  destruct (imageInWhitelist isp image).
  { injection Hrun as <- <- _. split; [constructor|congruence]. }
  destruct (negb (FullyQualifiedImage image)).
  { injection Hrun as <- <- _. split; [|congruence].
    repeat constructor. }
  rewrite bind_run, perform_run in Hrun.
  destruct (Vulnerabilities f image (world st)) as [[[vulnz [err|]]|] w1];
    cbn [fst snd] in Hrun; [| |discriminate Hrun].
  { injection Hrun as <- <- _. split; constructor. }
  match type of Hrun with
  | context [vulnzLoop ?i ?im ?a ?b ?v ?acc] =>
    pose proof (vulnzLoop_ordered i im a b v acc (orderedUpTo_nil 1))
      as Hord;
    pose proof (vulnzLoop_scan_kinds i im a b v acc ltac:(constructor))
      as Hkinds;
    destruct (vulnzLoop i im a b v acc) as [vs1 [err|]]
  end; cbn [fst] in Hord, Hkinds.
  - injection Hrun as <- <- _. split; [exact (proj1 Hord)|].
    intros _. exact Hkinds.
  - destruct (checkProvenance_ordered _ _ _ _ _ _ _ _ _ Hrun Hord)
      as [[Hsorted _] Hnil].
    split; [exact Hsorted|]. intros He. rewrite (Hnil He). constructor.
Qed.
End EvaluatorOrder.

Section EvaluatorCalls.
Context `{Imports} {W : Type} `{Services W}.

Lemma verifyArkSignature_appends (P : Call → Prop) (occ : OccurenceV1) :
  (∀ keyPath, P (Call_KMSVerfiyKeyfunc keyPath)) →
  (∀ j, P (Call_jwt_Parse j)) →
  appends P (verifyArkSignature occ).
Proof.
  intros Hkms Hparse. unfold verifyArkSignature.
  apply appends_bind; [apply appends_perform, Hkms|].
  intros [err|]; [apply appends_ret|].
  destruct (Jwts occ) as [|j rest]; [apply appends_ret|].
  apply appends_bind; [apply appends_perform, Hparse|].
  intros [token [err|]]; [apply appends_ret|].
  destruct (negb (Valid token)); apply appends_ret.
Qed.

Lemma occsLoop_appends (P : Call → Prop) (occs : list OccurenceV1) :
  (∀ keyPath, P (Call_KMSVerfiyKeyfunc keyPath)) →
  (∀ j, P (Call_jwt_Parse j)) →
  ∀ violations sid, appends P (occsLoop occs violations sid).
Proof.
  intros Hkms Hparse.
  induction occs as [|occ occs IH]; intros violations sid;
    [apply appends_ret|].
  cbn [occsLoop].
  destruct (String.eqb (NoteName occ) (Getenv "ARKCI_SIGNATURE_NOTE"));
    [|apply IH].
  apply appends_bind; [apply verifyArkSignature_appends; assumption|].
  intros [token [err|]]; [apply IH|].
  destruct token as [token|]; [|apply appends_panic].
  destruct (Claims token); apply IH.
Qed.

Lemma requiredLoop_appends (image : string) (af : AttestorFetcher W)
    (attestations : list PGPAttestation) (all names : list string) :
  (∀ name, In name names → In name all) →
  ∀ violations,
    appends
      (λ c, match c with
            | Call_GetAttestor name => In name all
            | _ => False
            end)
      (requiredLoop image af attestations names violations).
Proof.
  induction names as [|name names IH]; intros Hsub violations;
    [apply appends_ret|].
  cbn [requiredLoop].
  apply appends_bind.
  { apply appends_perform. apply Hsub. left. reflexivity. }
  intros [a [err|]]; [apply appends_ret|].
  destruct a as [a|]; [|apply appends_ret].
  destruct (hasRequiredAttestation image a attestations) as [ok [err|]];
    [apply appends_ret|].
  apply IH. intros n Hn. apply Hsub. right. exact Hn.
Qed.

Lemma evaluator_appends (isp : ImageSecurityPolicy) (image : string)
    (f : Fetcher W) (af : AttestorFetcher W) :
  appends (evaluatorCall isp image)
    (ValidateImageSecurityPolicy isp image f af).
Proof.
  unfold ValidateImageSecurityPolicy.
  destruct (imageInWhitelist isp image); [apply appends_ret|].
  destruct (negb (FullyQualifiedImage image)); [apply appends_ret|].
  apply appends_bind; [apply appends_perform; reflexivity|].
  intros [vulnz [err|]]; [apply appends_ret|].
  destruct (vulnzLoop _ _ _ _ _ _) as [violations [err|]];
    [apply appends_ret|].
  unfold checkProvenance.
  apply appends_bind; [apply appends_perform; reflexivity|].
  intros [occs oerr].
  apply appends_bind.
  { apply occsLoop_appends; intros; exact I. }
  intros [violations2 sid]. unfold checkRequiredAttestations.
  destruct (RequireAttestationsBy isp) as [|name names] eqn:Hreq;
    [apply appends_ret|].
  change (0 <? length (name :: names))%nat with true. cbv iota.
  apply appends_bind.
  { apply appends_perform. cbn. rewrite Hreq.
    split; [reflexivity|discriminate]. }
  intros [attestations [err|]]; [apply appends_ret|].
  eapply appends_weaken;
    [|apply (requiredLoop_appends image af attestations (name :: names));
      intros n Hn; exact Hn].
  intros [] Hc; cbn in *; try contradiction. rewrite Hreq. exact Hc.
Qed.

(** X11.  The evaluator only reads: every call it adds to the log is a
    fetch of the vulnerabilities, V1 occurrences or attestations of the
    image it evaluates, a call of the key service or of the JWT parser, or
    the resolution of an attestor the policy requires.  The attestations
    are fetched only when the policy requires an attestor. *)
Theorem evaluator_calls (isp : ImageSecurityPolicy) (image : string)
    (f : Fetcher W) (af : AttestorFetcher W) (st : State W)
    (r : outcome (list Violation * option error)) (st' : State W) :
  ValidateImageSecurityPolicy isp image f af st = (r, st') →
  ∃ extra, calls st' = calls st ++ extra
    ∧ Forall (evaluatorCall isp image) extra.
Proof. intros Hrun. exact (evaluator_appends isp image f af _ _ _ Hrun). Qed.

Lemma process_clean (isp : ImageSecurityPolicy) (image : string)
    (vulnz : list Vulnerability) :
  Forall (λ v, contribution isp image v = NoViolation) vulnz →
  ∀ violations, process isp image vulnz violations = (violations, None).
Proof.
  induction 1 as [|v vulnz Hv _ IH]; intros violations; [reflexivity|].
  cbn [process]. rewrite Hv. apply IH.
Qed.

(** X12.  A fully qualified image that is not whitelisted, all of whose
    vulnerabilities pass, with no occurrence under the ArkCI note, under a
    policy without built projects and required attestors, has no violation
    and no error, after exactly two calls; the error of the occurrence
    listing, if any, does not change this. *)
Theorem clean_image_passes (isp : ImageSecurityPolicy) (image : string)
    (f : Fetcher W) (af : AttestorFetcher W) (st : State W)
    (vulnz : list Vulnerability) (w1 : W) (occs : list OccurenceV1)
    (oerr : option error) (w2 : W) :
  ¬ In image (ImageWhitelist isp) →
  FullyQualifiedImage image = true →
  Vulnerabilities f image (world st) = (Done (vulnz, None), w1) →
  Forall (λ v, contribution isp image v = NoViolation) vulnz →
  OccurencesV1 f image w1 = (Done (occs, oerr), w2) →
  Forall (λ occ, NoteName occ ≠ Getenv "ARKCI_SIGNATURE_NOTE") occs →
  BuiltProjectIDs isp = [] →
  RequireAttestationsBy isp = [] →
  ValidateImageSecurityPolicy isp image f af st =
    (Done ([], None),
     after st [Call_Vulnerabilities image; Call_OccurencesV1 image] w2).
Proof.
  intros Hnin Hq Hv Hclean Hocc Hnotes Hbuilt Hreq.
  rewrite (evaluator_checks_provenance isp image f af st vulnz w1 []
             occs oerr w2 [] ""
             (after (after st [Call_Vulnerabilities image] w1)
                [Call_OccurencesV1 image] w2) Hnin Hq Hv).
  - unfold checkRequiredAttestations, checkBuiltProjectIDs.
    rewrite Hreq, Hbuilt. cbn. unfold after. cbn [calls world].
    rewrite <- app_assoc. reflexivity.
  - rewrite vulnzLoop_process. apply process_clean. exact Hclean.
  - exact Hocc.
  - apply occsLoop_passes_over. exact Hnotes.
Qed.

Lemma pubKeysLoop_true (image : string) (attestation : PGPAttestation)
    (pubKeys : list AttestorPublicKey) (verified : bool) :
  pubKeysLoop image attestation pubKeys verified = true ↔
  verified = true
  ∨ ∃ pubKey, In pubKey pubKeys ∧ ID pubKey = KeyID attestation
      ∧ VerifyAttestationSignature image (AsciiArmor pubKey)
          (Signature attestation) = None.
Proof.
  induction pubKeys as [|pk pubKeys IH]; cbn [pubKeysLoop In].
  - split; [tauto|]. intros [Hv|(pk & [] & _)]. exact Hv.
  - destruct (String.eqb_spec (ID pk) (KeyID attestation)) as [Hid|Hid].
    + destruct (VerifyAttestationSignature image (AsciiArmor pk)
                  (Signature attestation)) eqn:Hver.
      * rewrite IH. split.
        -- intros [Hv|(q & Hin & Hq)]; [left; exact Hv|].
           right. exists q. split; [right; exact Hin|exact Hq].
        -- intros [Hv|(q & [<-|Hin] & Hqid & Hq)]; [left; exact Hv| |].
           ++ congruence.
           ++ right. exists q. split; [exact Hin|split; assumption].
      * split; [|reflexivity]. intros _. right. exists pk.
        split; [left; reflexivity|split; assumption].
    + rewrite IH. split.
      * intros [Hv|(q & Hin & Hq)]; [left; exact Hv|].
        right. exists q. split; [right; exact Hin|exact Hq].
      * intros [Hv|(q & [<-|Hin] & Hqid & Hq)]; [left; exact Hv| |].
        -- contradiction.
        -- right. exists q. split; [exact Hin|split; assumption].
Qed.

Lemma attestationsLoop_true (image : string) (attestor : Attestor)
    (attestations : list PGPAttestation) :
  ∀ verified,
    attestationsLoop image attestor attestations verified = true ↔
    verified = true
    ∨ ∃ attestation pubKey,
        In attestation attestations ∧ In pubKey (PublicKeys attestor)
        ∧ ID pubKey = KeyID attestation
        ∧ VerifyAttestationSignature image (AsciiArmor pubKey)
            (Signature attestation) = None.
Proof.
  induction attestations as [|a attestations IH]; intros verified;
    cbn [attestationsLoop In].
  - split; [tauto|]. intros [Hv|(a & pk & [] & _)]. exact Hv.
  - rewrite IH, pubKeysLoop_true. split.
    + intros [[Hv|(pk & Hin & Hid & Hver)]|(b & pk & Hb & Hrest)].
      * left. exact Hv.
      * right. exists a, pk. tauto.
      * right. exists b, pk. tauto.
    + intros [Hv|(b & pk & [<-|Hb] & Hrest)].
      * left. left. exact Hv.
      * left. right. exists pk. exact Hrest.
      * right. exists b, pk. tauto.
Qed.

(** X13.  [hasRequiredAttestation] fails only when the signature payload
    of the image cannot be built; otherwise it answers true exactly when
    some attestation carries the id of one of the attestor's public keys
    and its signature verifies against that key. *)
Theorem hasRequiredAttestation_iff (image : string) (attestor : Attestor)
    (attestations : list PGPAttestation) :
  (∀ err, NewAtomicContainerSig image = Some err →
     hasRequiredAttestation image attestor attestations =
       (false,
        Some (withMessage err
                ("failed to initialize attestation signature: " +:+ image))))
  ∧ (NewAtomicContainerSig image = None →
     snd (hasRequiredAttestation image attestor attestations) = None
     ∧ (fst (hasRequiredAttestation image attestor attestations) = true
        ↔ ∃ attestation pubKey,
            In attestation attestations ∧ In pubKey (PublicKeys attestor)
            ∧ ID pubKey = KeyID attestation
            ∧ VerifyAttestationSignature image (AsciiArmor pubKey)
                (Signature attestation) = None)).
Proof.
  unfold hasRequiredAttestation. split.
  - intros err ->. reflexivity.
  - intros ->. cbn [fst snd]. split; [reflexivity|].
    rewrite attestationsLoop_true. split; [|tauto].
    intros [Hv|Hex]; [discriminate Hv|exact Hex].
Qed.
End EvaluatorCalls.

(** ** More on the reviewer *)

Section ReviewMore.
Context `{Imports} {W : Type}.
Variable r : Reviewer W.

Lemma verifyLoop_true_iff (image : string) (keys : gmap string string)
    (attestations : list PGPAttestation) :
  verifyLoop image keys attestations = true ↔
  ∃ a, In a attestations
    ∧ VerifyAttestationSignature image (default "" (keys !! KeyID a))
        (Signature a) = None.
Proof.
  split.
  - induction attestations as [|b attestations IH]; cbn [verifyLoop];
      [discriminate|].
    destruct (VerifyAttestationSignature image
                (default "" (keys !! KeyID b)) (Signature b)) eqn:Hb.
    + intros Hrest. destruct (IH Hrest) as (a & Hin & Ha).
      exists a. split; [right; exact Hin|exact Ha].
    + intros _. exists b. split; [left; reflexivity|exact Hb].
  - intros (a & Hin & Ha). exact (verifyLoop_finds _ _ _ a Hin Ha).
Qed.

(** X14.  The reviewer takes an image for attested exactly when the fetch
    of its attestations succeeded, its signature payload can be built, and
    the signature of some attestation verifies against the key registered
    under the key id of that attestation.  The fetched attestations are
    handed on as they are, and after a failed fetch the strategy is not
    told. *)
Theorem isAttested_iff (image : string) (auths : list AttestationAuthority)
    (pod : option Pod) (st : State W) (fetched : list PGPAttestation)
    (ferr : option error) (w1 : W) (isAttested : bool)
    (attestations : list PGPAttestation) (st' : State W) :
  Attestations (client r) image (world st) = (Done (fetched, ferr), w1) →
  fetchAndVerifyAttestations r image auths pod st
    = (Done (isAttested, attestations), st') →
  attestations = fetched
  ∧ (isAttested = true ↔
     ferr = None ∧ NewAtomicContainerSig image = None
     ∧ ∃ a, In a fetched
         ∧ VerifyAttestationSignature image
             (default "" (keysByFingerprint auths ∅ !! KeyID a))
             (Signature a) = None)
  ∧ (ferr ≠ None → st' = after st [Call_Attestations image] w1).
Proof.
  intros Hfetch. unfold fetchAndVerifyAttestations.
  rewrite bind_run, perform_run, Hfetch. cbn [fst snd].
  destruct ferr as [e|].
  - intros [= <- <- <-]. split; [reflexivity|]. split; [|reflexivity].
    split; [discriminate|]. intros (Hf & _). discriminate Hf.
  - rewrite bind_run, perform_run. unfold after. cbn [world calls].
    destruct (HandleAttestation (Strategy_ (config r)) image pod
                (hasValidImageAttestations image fetched auths) w1)
      as [[herr|] w2]; cbn [fst snd]; [|discriminate].
    intros [= <- <- <-]. split; [reflexivity|]. split; [|congruence].
    unfold hasValidImageAttestations.
    destruct (NewAtomicContainerSig image) as [serr|].
    + split; [discriminate|]. intros (_ & Hs & _). discriminate Hs.
    + rewrite verifyLoop_true_iff. split; [tauto|].
      intros (_ & _ & Hex). exact Hex.
Qed.

Lemma keysByFingerprint_keeps (auths : list AttestationAuthority) :
  ∀ (keys : gmap string string) (fp : string),
    is_Some (keys !! fp) → is_Some (keysByFingerprint auths keys !! fp).
Proof.
  induction auths as [|auth auths IH]; intros keys fp Hsome; [exact Hsome|].
  cbn [keysByFingerprint].
  destruct (fingerprint (PublicKeyData auth)) as [[k f] [err|]];
    apply IH; [exact Hsome|].
  destruct (decide (f = fp)) as [->|Hne].
  - rewrite lookup_insert_eq. eauto.
  - rewrite lookup_insert_ne by exact Hne. exact Hsome.
Qed.

(** X15.  A fingerprint has a key registered exactly when the public key
    data of some configured authority decodes and parses to that
    fingerprint; the authorities whose key does not parse are left out
    without an error.  The key registered is that of the last such
    authority. *)
Theorem keysByFingerprint_iff (auths : list AttestationAuthority)
    (fp : string) :
  (is_Some (keysByFingerprint auths ∅ !! fp) ↔
   ∃ auth key, In auth auths
     ∧ fingerprint (PublicKeyData auth) = (key, fp, None))
  ∧ ∀ before auth key,
      auths = before ++ [auth] →
      fingerprint (PublicKeyData auth) = (key, fp, None) →
      keysByFingerprint auths ∅ !! fp = Some key.
Proof.
  split; [split|].
  - intros [key Hkey].
    destruct (keysByFingerprint_lookup _ _ _ _ Hkey) as [Hold|(a & Hin & Ha)].
    + rewrite lookup_empty in Hold. discriminate Hold.
    + exists a, key. split; assumption.
  - intros (auth & key & Hin & Hfp).
    generalize (∅ : gmap string string).
    induction auths as [|b auths IH]; intros keys; [destruct Hin|].
    cbn [keysByFingerprint].
    destruct Hin as [->|Hin].
    + rewrite Hfp. apply keysByFingerprint_keeps.
      rewrite lookup_insert_eq. eauto.
    + destruct (fingerprint (PublicKeyData b)) as [[k f] [err|]];
        apply IH; exact Hin.
  - intros before auth key -> Hfp.
    generalize (∅ : gmap string string).
    induction before as [|b before IH]; intros keys.
    + cbn [app keysByFingerprint]. rewrite Hfp. cbn [keysByFingerprint].
      apply lookup_insert_eq.
    + cbn [app keysByFingerprint].
      destruct (fingerprint (PublicKeyData b)) as [[k f] [err|]]; apply IH.
Qed.

Lemma attested_lookup (atts : list PGPAttestation) :
  ∀ (m : gmap string bool) (k : string),
    is_Some (fold_left (λ m a, <[KeyID a := true]> m) atts m !! k) ↔
    is_Some (m !! k) ∨ ∃ a, In a atts ∧ KeyID a = k.
Proof.
  induction atts as [|a atts IH]; intros m k; cbn [fold_left In].
  - split; [tauto|]. intros [Hm|(a & [] & _)]. exact Hm.
  - rewrite IH. destruct (decide (KeyID a = k)) as [Heq|Hne].
    + rewrite <- Heq, lookup_insert_eq. split.
      * intros _. right. exists a. split; [left; reflexivity|reflexivity].
      * intros _. left. eauto.
    + rewrite lookup_insert_ne by exact Hne. split.
      * intros [Hm|(b & Hin & Hb)]; [left; exact Hm|].
        right. exists b. split; [right; exact Hin|exact Hb].
      * intros [Hm|(b & [<-|Hin] & Hb)]; [left; exact Hm|contradiction|].
        right. exists b. split; assumption.
Qed.

Lemma getUnAttested_as_filter (auths : list AttestationAuthority)
    (keys : gmap string string) (atts : list PGPAttestation) :
  getUnAttested auths keys atts =
    List.filter
      (λ a, negb (existsb
                    (λ att, String.eqb (KeyID att)
                              (default "" (keys !! AuthorityName a)))
                    atts))
      auths.
Proof.
  unfold getUnAttested.
  set (m := fold_left (λ m a, <[KeyID a := true]> m) atts ∅).
  assert (Hm : ∀ k, m !! k = None ↔
                 existsb (λ att, String.eqb (KeyID att) k) atts = false).
  { intros k. rewrite <- not_true_iff_false, existsb_exists.
    rewrite eq_None_not_Some. unfold m. rewrite attested_lookup.
    rewrite lookup_empty. split.
    - intros Hno (a & Hin & Ha). apply String.eqb_eq in Ha.
      apply Hno. right. exists a. split; assumption.
    - intros Hno [Hs|(a & Hin & Ha)]; [destruct Hs; discriminate|].
      apply Hno. exists a. split; [exact Hin|apply String.eqb_eq, Ha]. }
  assert (Hgen : ∀ l,
            fold_left
              (λ l a, match m !! default "" (keys !! AuthorityName a) with
                      | Some _ => l
                      | None => l ++ [a]
                      end) auths l
            = l ++ List.filter
                (λ a, negb (existsb
                              (λ att, String.eqb (KeyID att)
                                 (default "" (keys !! AuthorityName a)))
                              atts)) auths).
  { induction auths as [|a auths IH]; intros l; cbn [fold_left List.filter].
    - rewrite app_nil_r. reflexivity.
    - rewrite IH.
      destruct (m !! default "" (keys !! AuthorityName a)) as [b|] eqn:Hl.
      + destruct (existsb _ atts) eqn:Hex; [reflexivity|].
        apply Hm in Hex. congruence.
      + apply Hm in Hl. rewrite Hl. cbn [negb].
        rewrite <- app_assoc. reflexivity. }
  apply (Hgen []).
Qed.

(** X16.  The authorities still to attest an image are, in the order of
    the policy, those whose registered fingerprint is the key id of none of
    the attestations; an authority without a registered fingerprint counts
    with the empty fingerprint. *)
Theorem getUnAttested_spec (auths : list AttestationAuthority)
    (keys : gmap string string) (atts : list PGPAttestation) :
  (∀ a, In a (getUnAttested auths keys atts) ↔
     In a auths
     ∧ ¬ ∃ att, In att atts
           ∧ KeyID att = default "" (keys !! AuthorityName a))
  ∧ sublist (getUnAttested auths keys atts) auths
  ∧ (atts = [] → getUnAttested auths keys atts = auths).
Proof.
  rewrite getUnAttested_as_filter. split; [|split].
  - intros a. rewrite filter_In, negb_true_iff.
    rewrite <- not_true_iff_false, existsb_exists.
    split; intros [Hin Hno]; (split; [exact Hin|]).
    + intros (att & Hatt & Hk). apply Hno. exists att.
      split; [exact Hatt|apply String.eqb_eq, Hk].
    + intros (att & Hatt & Hk). apply Hno. exists att.
      split; [exact Hatt|apply String.eqb_eq, Hk].
  - induction auths as [|a auths IH]; cbn [List.filter]; [constructor|].
    destruct (negb _); [apply sublist_skip|apply sublist_cons]; exact IH.
  - intros ->. cbn [existsb negb].
    induction auths as [|a auths IH]; [reflexivity|].
    cbn [List.filter]. rewrite IH. reflexivity.
Qed.
End ReviewMore.

Section ReviewOrder.
Context `{Imports} {W : Type}.
Variable r : Reviewer W.

(** X17.  The review goes through the images, and through the policies,
    in order and stops at the first one that ends it: reviewing an image
    followed by others is reviewing that image and, if this ends without an
    error, reviewing the others from the state reached; otherwise the
    others are not looked at.  The same holds for the policies. *)
Theorem review_is_sequential (isp : ImageSecurityPolicy)
    (auths : list AttestationAuthority) (pod : option Pod) (image : string)
    (images : list string) (isps : list ImageSecurityPolicy)
    (st : State W) :
  imagesLoop r isp auths pod (image :: images) st =
    match imagesLoop r isp auths pod [image] st with
    | (Done None, st') => imagesLoop r isp auths pod images st'
    | other => other
    end
  ∧ ispsLoop r images pod (isp :: isps) st =
      match ispsLoop r images pod [isp] st with
      | (Done None, st') => ispsLoop r images pod isps st'
      | other => other
      end.
Proof.
  split.
  - cbn [imagesLoop]. rewrite !bind_run.
    destruct (fetchAndVerifyAttestations r image auths pod st)
      as [[[isAttested attestations]|] st1]; [|reflexivity].
    destruct (isAttested && IsWebhook (config r)); [reflexivity|].
    rewrite !bind_run.
    destruct (invoke _ _ st1) as [[[violations [err|]]|] st2];
      [reflexivity| |reflexivity].
    destruct (negb (length violations =? 0)%nat).
    + rewrite !bind_run.
      destruct (handleViolations r image pod violations st2)
        as [[e|] st3]; reflexivity.
    + rewrite !bind_run.
      destruct ((if IsWebhook (config r)
                 then addAttestations r image attestations isp
                 else mret None) st2) as [[e|] st3]; reflexivity.
  - cbn [ispsLoop]. rewrite !bind_run.
    destruct (getAttestationAuthoritiesForISP r isp st)
      as [[[auths' [err|]]|] st1]; [reflexivity| |reflexivity].
    rewrite !bind_run.
    destruct (imagesLoop r isp auths' pod images st1) as [[[e|]|] st2];
      reflexivity.
Qed.

Lemma authoritiesLoop_appends (P : Call → Prop) (isp : ImageSecurityPolicy)
    (names : list string) :
  (∀ c, isBookkeepingCall c → P c) →
  ∀ auths, appends P (authoritiesLoop r isp names auths).
Proof.
  intros HP. induction names as [|name names IH]; intros auths;
    [apply appends_ret|].
  cbn [authoritiesLoop].
  apply appends_bind; [apply appends_perform, HP; exact I|].
  intros [a [err|]]; [apply appends_ret|].
  destruct a as [a|]; [apply IH|apply appends_panic].
Qed.

Lemma fetchAndVerifyAttestations_appends (P : Call → Prop) (image : string)
    (auths : list AttestationAuthority) (pod : option Pod) :
  (∀ c, isBookkeepingCall c → P c) →
  appends P (fetchAndVerifyAttestations r image auths pod).
Proof.
  intros HP. unfold fetchAndVerifyAttestations.
  apply appends_bind; [apply appends_perform, HP; exact I|].
  intros [attestations [err|]]; [apply appends_ret|].
  apply appends_bind; [apply appends_perform, HP; exact I|].
  intros _. apply appends_ret.
Qed.

Lemma handleViolations_appends (P : Call → Prop) (image : string)
    (pod : option Pod) (violations : list Violation) :
  (∀ c, isBookkeepingCall c → P c) →
  appends P (handleViolations r image pod violations).
Proof.
  intros HP. unfold handleViolations.
  apply appends_bind; [apply appends_perform, HP; exact I|].
  intros [err|]; apply appends_ret.
Qed.

Lemma issueLoop_appends (P : Call → Prop) (image : string)
    (isp : ImageSecurityPolicy) (u : list AttestationAuthority) :
  (∀ c, isIssuingCall c → P c) →
  ∀ errMsgs, appends P (issueLoop r image isp u errMsgs).
Proof.
  intros HP. induction u as [|a u IH]; intros errMsgs; [apply appends_ret|].
  cbn [issueLoop].
  apply appends_bind.
  { unfold GetOrCreateAttestationNote.
    apply appends_bind; [apply appends_perform, HP; exact I|].
    intros [n [err|]]; [apply appends_perform, HP; exact I|apply appends_ret]. }
  intros [n err].
  apply appends_bind; [apply appends_perform, HP; exact I|].
  intros [s err'].
  apply appends_bind; [apply appends_perform, HP; exact I|].
  intros [o err'']. apply IH.
Qed.

Lemma addAttestations_appends (P : Call → Prop) (image : string)
    (atts : list PGPAttestation) (isp : ImageSecurityPolicy) :
  (∀ c, isBookkeepingCall c → P c) →
  (∀ c, isIssuingCall c → P c) →
  appends P (addAttestations r image atts isp).
Proof.
  intros HB HI. unfold addAttestations.
  apply appends_bind.
  { apply authoritiesLoop_appends. exact HB. }
  intros [auths [err|]]; [apply appends_ret|].
  destruct (length auths =? 0)%nat; [apply appends_ret|].
  destruct (length (getUnAttested _ _ _) =? 0)%nat; [apply appends_ret|].
  apply appends_bind; [apply issueLoop_appends; exact HI|].
  intros errMsgs. destruct (length errMsgs =? 0)%nat; apply appends_ret.
Qed.

Lemma imagesLoop_appends (P : Call → Prop) (isp : ImageSecurityPolicy)
    (auths : list AttestationAuthority) (pod : option Pod)
    (images : list string) :
  (∀ c, isBookkeepingCall c → P c) →
  (IsWebhook (config r) = true → ∀ c, isIssuingCall c → P c) →
  (∀ image, In image images → P (Call_Validate isp image)) →
  (∀ image,
     appends P
       (Validate (config r) isp image (client r) (Attestors (config r)))) →
  appends P (imagesLoop r isp auths pod images).
Proof.
  intros HB HI HV Hval.
  induction images as [|image images IH]; [apply appends_ret|].
  cbn [imagesLoop].
  apply appends_bind; [apply fetchAndVerifyAttestations_appends, HB|].
  intros [isAttested attestations].
  assert (Hrest : appends P (imagesLoop r isp auths pod images)).
  { apply IH. intros i Hi. apply HV. right. exact Hi. }
  destruct (isAttested && IsWebhook (config r)); [exact Hrest|].
  apply appends_bind.
  { apply appends_invoke; [apply HV; left; reflexivity|apply Hval]. }
  intros [violations [err|]]; [apply appends_ret|].
  destruct (negb (length violations =? 0)%nat).
  - apply appends_bind; [apply handleViolations_appends, HB|].
    intros e. apply appends_ret.
  - apply appends_bind; [|intros _; exact Hrest].
    destruct (IsWebhook (config r)); [|apply appends_ret].
    apply addAttestations_appends; [exact HB|exact (HI eq_refl)].
Qed.

Lemma ispsLoop_appends (P : Call → Prop) (images : list string)
    (pod : option Pod) (isps : list ImageSecurityPolicy) :
  (∀ c, isBookkeepingCall c → P c) →
  (IsWebhook (config r) = true → ∀ c, isIssuingCall c → P c) →
  (∀ isp image, In isp isps → In image images →
     P (Call_Validate isp image)) →
  (∀ isp image,
     appends P
       (Validate (config r) isp image (client r) (Attestors (config r)))) →
  appends P (ispsLoop r images pod isps).
Proof.
  intros HB HI HV Hval.
  induction isps as [|isp isps IH]; [apply appends_ret|].
  cbn [ispsLoop].
  apply appends_bind.
  { apply authoritiesLoop_appends. exact HB. }
  intros [auths [err|]]; [apply appends_ret|].
  apply appends_bind.
  { apply imagesLoop_appends; [exact HB|exact HI| |apply Hval].
    intros image Hi. apply HV; [left; reflexivity|exact Hi]. }
  intros [err|]; [apply appends_ret|].
  apply IH. intros isp' image Hi Him. apply HV; [right; exact Hi|exact Him].
Qed.

Lemma Review_appends (P : Call → Prop) (images : list string)
    (isps : list ImageSecurityPolicy) (pod : option Pod) :
  (∀ c, isBookkeepingCall c → P c) →
  (IsWebhook (config r) = true → ∀ c, isIssuingCall c → P c) →
  (∀ isp image, P (Call_Validate isp image)) →
  (∀ isp image,
     appends P
       (Validate (config r) isp image (client r) (Attestors (config r)))) →
  appends P (Review r images isps pod).
Proof.
  intros HB HI HV Hval. unfold Review.
  destruct (length isps =? 0)%nat; [apply appends_ret|].
  destruct (length (RemoveGloballyWhitelistedImages images) =? 0)%nat;
    [apply appends_ret|].
  apply appends_bind; [apply appends_perform, HB; exact I|].
  intros [kept [err|]]; [apply appends_ret|].
  destruct (length kept =? 0)%nat; [apply appends_ret|].
  apply ispsLoop_appends; [exact HB|exact HI| |exact Hval].
  intros isp image _ _. apply HV.
Qed.

(** X18.  Outside webhook mode a review issues nothing: if validating
    adds no call for a note, a secret or an attestation occurrence to the
    log, neither does the review. *)
Theorem review_issues_only_in_webhook_mode (images : list string)
    (isps : list ImageSecurityPolicy) (pod : option Pod) (st : State W)
    (res : outcome (option error)) (st' : State W) :
  IsWebhook (config r) = false →
  (∀ isp image,
     appends (λ c, ¬ isIssuingCall c)
       (Validate (config r) isp image (client r) (Attestors (config r)))) →
  Review r images isps pod st = (res, st') →
  ∃ extra, calls st' = calls st ++ extra
    ∧ Forall (λ c, ¬ isIssuingCall c) extra.
Proof.
  intros Hweb Hval. revert st res st'.
  change (appends (λ c, ¬ isIssuingCall c) (Review r images isps pod)).
  apply Review_appends.
  - intros [] Hc; cbn in *; tauto.
  - rewrite Hweb. discriminate.
  - intros isp image. cbn. tauto.
  - exact Hval.
Qed.

(** X19.  A review validates nothing but the given policies against the
    images that both whitelists have left: if validating adds no
    validation of its own to the log, every validation the review adds is
    of one of the policies for an image that the cluster whitelist remover
    returned when given the images the global whitelist left. *)
Theorem review_validates_only_what_is_left (images : list string)
    (isps : list ImageSecurityPolicy) (pod : option Pod) (st : State W)
    (res : outcome (option error)) (st' : State W) :
  (∀ isp image,
     appends (λ c, ¬ isValidateCall c)
       (Validate (config r) isp image (client r) (Attestors (config r)))) →
  Review r images isps pod st = (res, st') →
  ∃ extra, calls st' = calls st ++ extra
    ∧ ∀ isp image, In (Call_Validate isp image) extra →
        In isp isps
        ∧ ∃ kept w1,
            ClusterWhitelistedImagesRemover (config r)
              (RemoveGloballyWhitelistedImages images) (world st)
            = (Done (kept, None), w1)
            ∧ In image kept.
Proof.
  intros Hval. unfold Review.
  destruct (length isps =? 0)%nat.
  { intros [= <- <-]. exists []. rewrite app_nil_r.
    split; [reflexivity|]. intros isp image []. }
  destruct (length (RemoveGloballyWhitelistedImages images) =? 0)%nat.
  { intros [= <- <-]. exists []. rewrite app_nil_r.
    split; [reflexivity|]. intros isp image []. }
  rewrite bind_run, perform_run.
  destruct (ClusterWhitelistedImagesRemover (config r)
              (RemoveGloballyWhitelistedImages images) (world st))
    as [[[kept [err|]]|] w1] eqn:Hremove; cbn [fst snd].
  - intros [= <- <-]. eexists. split; [reflexivity|].
    intros isp image [Hc|[]]. discriminate Hc.
  - destruct (length kept =? 0)%nat.
    { intros [= <- <-]. eexists. split; [reflexivity|].
      intros isp image [Hc|[]]. discriminate Hc. }
    intros Hrun.
    assert (Hloop : appends (validatesOnly isps kept)
                      (ispsLoop r kept pod isps)).
    { apply ispsLoop_appends.
      - intros [] Hc; cbn in *; tauto.
      - intros _ [] Hc; cbn in *; tauto.
      - intros isp image Hi Him. split; assumption.
      - intros isp image. eapply appends_weaken; [|apply Hval].
        intros [] Hc; cbn in *; tauto. }
    destruct (Hloop _ _ _ Hrun) as (extra & Hcalls & Hall).
    exists (Call_ClusterWhitelistedImagesRemover
              (RemoveGloballyWhitelistedImages images) :: extra).
    split.
    { rewrite Hcalls. unfold after. cbn [calls].
      rewrite <- app_assoc. reflexivity. }
    intros isp image [Hc|Hin]; [discriminate Hc|].
    rewrite List.Forall_forall in Hall. specialize (Hall _ Hin).
    destruct Hall as [Hisp Himage].
    split; [exact Hisp|]. exists kept, w1. split; [reflexivity|exact Himage].
  - intros [= <- <-]. eexists. split; [reflexivity|].
    intros isp image [Hc|[]]. discriminate Hc.
Qed.
End ReviewOrder.

Section Issuance.
Context `{Imports} {W : Type}.
Variable r : Reviewer W.

Lemma countCreateOccurrence_app (a b : list Call) :
  countCreateOccurrence (a ++ b)
  = (countCreateOccurrence a + countCreateOccurrence b)%nat.
Proof.
  unfold countCreateOccurrence. rewrite List.filter_app, length_app.
  reflexivity.
Qed.

Lemma GetOrCreateAttestationNote_count (a : option AttestationAuthority)
    (st : State W) (res : outcome (option Note * option error))
    (st' : State W) :
  GetOrCreateAttestationNote (client r) a st = (res, st') →
  countCreateOccurrence (calls st') = countCreateOccurrence (calls st).
Proof.
  unfold GetOrCreateAttestationNote. rewrite bind_run, perform_run.
  destruct (AttestationNote (client r) a (world st)) as [[[n [err|]]|] w1];
    cbn [fst snd].
  - rewrite perform_run. intros [= _ <-]. unfold after. cbn [calls].
    rewrite !countCreateOccurrence_app. cbn. lia.
  - intros [= _ <-]. unfold after. cbn [calls].
    rewrite countCreateOccurrence_app. cbn. lia.
  - intros [= _ <-]. unfold after. cbn [calls].
    rewrite countCreateOccurrence_app. cbn. lia.
Qed.

(** X20.  Issuing goes through every authority still to attest, whatever
    fails on the way: when the loop returns, it has asked the backend to
    create one attestation occurrence per authority, also for an authority
    whose note or secret could not be had, and the error messages it was
    given are kept in front of the ones it adds. *)
Theorem issueLoop_goes_through_all (image : string)
    (isp : ImageSecurityPolicy) (u : list AttestationAuthority) :
  ∀ (errMsgs : list string) (st : State W) (msgs : list string)
    (st' : State W),
    issueLoop r image isp u errMsgs st = (Done msgs, st') →
    countCreateOccurrence (calls st')
    = (countCreateOccurrence (calls st) + length u)%nat
    ∧ ∃ more, msgs = errMsgs ++ more.
Proof.
  induction u as [|a u IH]; intros errMsgs st msgs st' Hrun.
  - injection Hrun as <- <-. split; [cbn; lia|].
    exists []. rewrite app_nil_r. reflexivity.
  - cbn [issueLoop] in Hrun. rewrite bind_run in Hrun.
    destruct (GetOrCreateAttestationNote (client r) (Some a) st)
      as [[[n nerr]|] st1] eqn:Hnote; [|discriminate Hrun].
    apply GetOrCreateAttestationNote_count in Hnote.
    rewrite bind_run, perform_run in Hrun.
    destruct (Secret (config r) (Namespace isp) (PrivateKeySecretName a)
                (world st1)) as [[[s serr]|] w2];
      cbn [fst snd] in Hrun; [|discriminate Hrun].
    rewrite bind_run, perform_run in Hrun.
    unfold after in Hrun at 1. cbn [world] in Hrun.
    destruct (CreateAttestationOccurence (client r) n image s w2)
      as [[[o oerr]|] w3]; cbn [fst snd] in Hrun; [|discriminate Hrun].
    destruct (IH _ _ _ _ Hrun) as [Hcount (more & Hmore)].
    split.
    + rewrite Hcount. unfold after. cbn [calls length].
      rewrite !countCreateOccurrence_app, Hnote. cbn. lia.
    + rewrite Hmore. unfold appendErr.
      destruct nerr, serr, oerr; rewrite <- ?app_assoc; eexists;
        reflexivity.
Qed.

(** X21.  Adding attestations does nothing when there is nothing to do: a
    policy without authorities gives an error and no call; when every
    resolved authority has its registered fingerprint among the key ids of
    the attestations, the result is no error and no call after the
    resolution. *)
Theorem addAttestations_nothing_to_do (image : string)
    (atts : list PGPAttestation) (isp : ImageSecurityPolicy) (st : State W) :
  (AttestationAuthorityNames isp = [] →
   addAttestations r image atts isp st =
     (Done (Some (errorString
              ("no attestation authorities configured for security policy "
               +:+ quote (Name isp)))), st))
  ∧ ∀ auths st1,
      getAttestationAuthoritiesForISP r isp st = (Done (auths, None), st1) →
      auths ≠ [] →
      (∀ a, In a auths →
         ∃ att, In att atts
           ∧ KeyID att =
               default "" (fingerprintsByName auths ∅ !! AuthorityName a)) →
      addAttestations r image atts isp st = (Done None, st1).
Proof.
  unfold addAttestations. split.
  - intros Hnames. rewrite bind_run.
    unfold getAttestationAuthoritiesForISP. rewrite Hnames. reflexivity.
  - intros auths st1 Hauths Hne Hall. rewrite bind_run, Hauths.
    destruct auths as [|a0 auths0] eqn:Ha; [contradiction|].
    change (length (a0 :: auths0) =? 0)%nat with false. cbv iota.
    rewrite <- Ha in *. clear Ha.
    replace (getUnAttested auths (fingerprintsByName auths ∅) atts)
      with (@nil AttestationAuthority); [reflexivity|].
    symmetry. rewrite getUnAttested_as_filter.
    assert (Hgen : ∀ l,
              (∀ a, In a l → ∃ att, In att atts
                 ∧ KeyID att =
                   default ""
                     (fingerprintsByName auths ∅ !! AuthorityName a)) →
              List.filter
                (λ a, negb (existsb
                   (λ att, String.eqb (KeyID att)
                      (default ""
                         (fingerprintsByName auths ∅ !! AuthorityName a)))
                   atts)) l = []).
    { induction l as [|b l IH]; intros Hl; [reflexivity|].
      cbn [List.filter].
      destruct (Hl b (or_introl eq_refl)) as (att & Hatt & Hk).
      replace (existsb _ atts) with true.
      - cbn [negb]. apply IH. intros c Hc. apply Hl. right. exact Hc.
      - symmetry. apply existsb_exists. exists att.
        split; [exact Hatt|apply String.eqb_eq, Hk]. }
    apply Hgen. exact Hall.
Qed.

Lemma summaries_fold (f : Violation → string) (violations : list Violation) :
  ∀ l, fold_left (λ l v, l ++ [f v]) violations l = l ++ map f violations.
Proof.
  induction violations as [|v violations IH]; intros l; cbn [fold_left map].
  - rewrite app_nil_r. reflexivity.
  - rewrite IH, <- app_assoc. reflexivity.
Qed.

(** X22.  [handleViolations] hands the violations to the strategy once
    and always returns an error.  The list it joins into the message starts
    with one empty entry per violation, followed by the summaries of the
    violations in order; an error of the strategy is wrapped around the same
    message. *)
Theorem handleViolations_message (image : string) (pod : option Pod)
    (violations : list Violation) (st : State W) (herr : option error)
    (w1 : W) :
  HandleViolation (Strategy_ (config r)) image pod violations (world st)
    = (Done herr, w1) →
  let errMsg :=
    "found violations in " +:+ quote image +:+ " (" +:+
    (newline +:+
     Join (replicate (length violations) "" ++
           map (λ v, ToString (vType v) +:+ ": " +:+ reason v) violations)
       ("," +:+ newline) +:+ newline) +:+ ")" in
  handleViolations r image pod violations st =
    (Done (match herr with
           | Some err =>
             withMessage err ("failed to handle violation: " +:+ errMsg)
           | None => errorString (Sprintf0 errMsg)
           end),
     after st [Call_HandleViolation image pod violations] w1).
Proof.
  intros Hhandle errMsg. unfold handleViolations.
  rewrite bind_run, perform_run, Hhandle. cbn [fst snd].
  rewrite summaries_fold. destruct herr; reflexivity.
Qed.
End Issuance.

(** ** The attestor fetcher, the mock client and the client in the
    evaluator *)

Section Collaborators.
Context `{Imports} {W : Type} `{Services W}.

(** X23.  The binary authorization fetcher never returns an attestor
    together with an error.  An attestor it returns bears the requested
    name and the public keys of the user-owned note, in order; it returns
    neither attestor nor error exactly when the attestor has no such
    note. *)
Theorem binauthzGetAttestor_result (client : BinauthzClient W)
    (name : string) (w : W) (a : option Attestor) (err : option error)
    (w' : W) :
  binauthzGetAttestor client name w = (Done (a, err), w') →
  (a = None ∨ err = None)
  ∧ (∀ attestor, a = Some attestor →
       AttestorName attestor = name
       ∧ ∃ found, ClientGetAttestor client name w
                    = (Done (Some found, None), w')
           ∧ UserOwnedGrafeasNote found =
               Some (map (λ pubKey, (ID pubKey, AsciiArmor pubKey))
                       (PublicKeys attestor)))
  ∧ (a = None ∧ err = None ↔
     ∃ found, ClientGetAttestor client name w = (Done (Some found, None), w')
       ∧ UserOwnedGrafeasNote found = None).
Proof.
  unfold binauthzGetAttestor.
  destruct (ClientGetAttestor client name w) as [[[[found|] [cerr|]]|] w1];
    cbv beta iota; try discriminate.
  - intros [= <- <- <-]. split; [left; reflexivity|].
    split; [discriminate|]. split.
    + intros [_ He]. discriminate He.
    + intros (x & Hx & _). discriminate Hx.
  - destruct (UserOwnedGrafeasNote found) as [pubKeys|] eqn:Hnote.
    + intros [= <- <- <-]. split; [right; reflexivity|]. split.
      * intros attestor [= <-]. split; [reflexivity|].
        exists found. split; [reflexivity|]. rewrite Hnote. f_equal.
        cbn [PublicKeys]. rewrite map_map. cbn. clear Hnote.
        induction pubKeys as [|[i k] pubKeys IH]; [reflexivity|].
        cbn. f_equal. exact IH.
      * split; [intros [Ha _]; discriminate Ha|].
        intros (x & [= <-] & Hx). congruence.
    + intros [= <- <- <-]. split; [left; reflexivity|].
      split; [discriminate|]. split; [|tauto].
      intros _. exists found. split; [reflexivity|exact Hnote].
  - intros [= <- <- <-]. split; [left; reflexivity|].
    split; [discriminate|]. split.
    + intros [_ He]. discriminate He.
    + intros (x & Hx & _). discriminate Hx.
Qed.

(** X24.  An attestor without a user-owned note stops the evaluation of
    the required attestations with the error "attestor not found", and
    nothing of what was found before is returned. *)
Theorem attestor_without_note_is_not_found (client : BinauthzClient W)
    (image name : string) (names : list string)
    (attestations : list PGPAttestation) (violations : list Violation)
    (st : State W) (found : BinauthzAttestor) (w' : W) :
  ClientGetAttestor client name (world st) = (Done (Some found, None), w') →
  UserOwnedGrafeasNote found = None →
  requiredLoop image (binauthzAttestorFetcher client) attestations
    (name :: names) violations st =
    (Done ([], Some (errorString ("attestor not found: " +:+ name))),
     after st [Call_GetAttestor name] w').
Proof.
  intros Hget Hnote. cbn [requiredLoop].
  rewrite bind_run, perform_run. cbn [GetAttestor binauthzAttestorFetcher].
  unfold binauthzGetAttestor. rewrite Hget, Hnote. reflexivity.
Qed.

(** X25.  With the client as fetcher, an image that is fully qualified
    but not hosted on GCR is not evaluated: the evaluator returns the
    error of the client and no violation, and the backend is not asked. *)
Theorem evaluator_refuses_other_registries `{Backend W}
    (isp : ImageSecurityPolicy) (image : string) (af : AttestorFetcher W)
    (st : State W) :
  ¬ In image (ImageWhitelist isp) →
  FullyQualifiedImage image = true →
  Client.isValidImageOnGCR image = false →
  ValidateImageSecurityPolicy isp image Client.fetcher af st =
    (Done ([], Some (notOnGCR image)),
     after st [Call_Vulnerabilities image] (world st)).
Proof.
  intros Hnin Hq Hinvalid.
  apply (vulnerability_fetch_error_is_returned isp image Client.fetcher af
           st [] (notOnGCR image) (world st) Hnin Hq).
  cbn [Vulnerabilities Client.fetcher].
  unfold Client.Vulnerabilities, Client.fetchOccurrence.
  rewrite Hinvalid. reflexivity.
Qed.
End Collaborators.

(** X26.  The mock records an attestation it is asked to create under
    the key [image-note] with the name of the secret, leaves the other keys
    and the vulnerabilities and attestations it reports as they were, and
    panics on a nil note or secret. *)
Theorem mock_create_attestation (m : MockMetadataClient) (n : option Note)
    (image : string) (s : option PGPSigningSecret) :
  match n, s with
  | Some note, Some secret =>
    ∃ m', Mock.CreateAttestationOccurence n image s m = (Done (None, None), m')
      ∧ default ∅ (Occ m') !! (image +:+ "-" +:+ NoteName_ note)
        = Some (SecretName secret)
      ∧ (∀ k, k ≠ image +:+ "-" +:+ NoteName_ note →
           default ∅ (Occ m') !! k = default ∅ (Occ m) !! k)
      ∧ (∀ i, fst (Mock.Attestations i m') = fst (Mock.Attestations i m))
      ∧ (∀ i, fst (Mock.Vulnerabilities i m')
              = fst (Mock.Vulnerabilities i m))
  | _, _ => fst (Mock.CreateAttestationOccurence n image s m) = Panic
  end.
Proof.
  destruct n as [note|], s as [secret|]; try reflexivity.
  eexists. split; [reflexivity|]. cbn [Occ default].
  split; [apply lookup_insert_eq|].
  split; [|split; reflexivity].
  intros k Hk. apply lookup_insert_ne. congruence.
Qed.

(** ** The further properties on examples *)

(** An occurrence with two JWTs: the token returned is the parse of the
    first, and the second is never parsed. *)
Lemma verifyArkSignature_result_witness :
  let occ :=
    {| NoteName := "projects/ark/notes/ci"; Jwts := ["trusted"; "other"] |} in
  let t :=
    {| Valid := true;
       Claims :=
         Some ({[ "gcp_project" := ClaimString "trusted" ]}
               : gmap string ClaimValue) |} in
  let st' :=
    mkState Example.quiet
      [Call_KMSVerfiyKeyfunc "projects/ark/keys/signer";
       Call_jwt_Parse "trusted"] in
  @verifyArkSignature Example.imports _ Example.services occ
    (Example.start Example.quiet)
  = (Done (Some t, None), st')
  ∧ ∃ j rest w1 w2, Jwts occ = j :: rest
      ∧ @jwt_Parse _ Example.services "projects/ark/keys/signer" j w1
        = (Done (t, None), w2)
      ∧ st' =
          mkState w2
            [Call_KMSVerfiyKeyfunc "projects/ark/keys/signer";
             Call_jwt_Parse j].
Proof.
  intros occ t st'.
  assert (Hrun :
    @verifyArkSignature Example.imports _ Example.services occ
      (Example.start Example.quiet)
    = (Done (Some t, None), st')) by reflexivity.
  split; [exact Hrun|].
  destruct (@verifyArkSignature_result Example.imports _ Example.services
              occ (Example.start Example.quiet) (Some t) None st' Hrun)
    as [_ Htoken].
  destruct (Htoken t eq_refl)
    as (_ & j & rest & w1 & w2 & Hjwts & _ & Hparse & Hst).
  exists j, rest, w1, w2. split; [exact Hjwts|].
  split; [exact Hparse|exact Hst].
Defined.

(** Two occurrences under other notes. *)
Lemma occsLoop_skips_other_notes_witness :
  @occsLoop Example.imports _ Example.services
    [{| NoteName := "projects/p/notes/build"; Jwts := ["x"] |};
     {| NoteName := "projects/p/notes/scan"; Jwts := [] |}]
    [] "" (Example.start Example.quiet)
  = (Done ([], ""), Example.start Example.quiet).
Proof.
  apply (@occsLoop_skips_other_notes Example.imports _ Example.services).
  repeat constructor; discriminate.
Defined.

(** A token for [trusted] followed by a verified token without a project:
    the signed project is empty. *)
Lemma last_token_decides_signed_project_witness :
  fst (@occsLoop Example.imports _ Example.plainServices
         ([Example.arkOccurrence "trusted"]
          ++ [Example.arkOccurrence "anonymous"])
         [] "" (Example.start Example.quiet))
  = Done ([], "").
Proof.
  erewrite (@last_token_decides_signed_project Example.imports _
              Example.plainServices [Example.arkOccurrence "trusted"]
              (Example.arkOccurrence "anonymous")); cycle 1.
  - reflexivity.
  - reflexivity.
  - reflexivity.
  - reflexivity.
  - reflexivity.
Defined.

(** A policy violated in three stages: the violations come in the order
    Severity, Built-Project-ID, Required-Attestation. *)
Lemma evaluator_violations_are_staged_witness :
  ∃ vs,
    map vType vs =
      [SeverityViolation; BuildProjectIDViolation;
       RequiredAttestationViolation]
    ∧ inPhaseOrder vs.
Proof.
  edestruct (@evaluator_violations_are_staged Example.imports _
               Example.services Example.strict Example.image
               Example.fetcher Example.attestorFetcher
               (Example.start Example.troubled)) as [Hordered _].
  - lazy. reflexivity.
  - eexists. split; [|exact Hordered]. reflexivity.
Defined.

(** The calls of that evaluation. *)
Lemma evaluator_calls_witness :
  ∃ extra,
    extra =
      [Call_Vulnerabilities Example.image; Call_OccurencesV1 Example.image;
       Call_Attestations Example.image; Call_GetAttestor "build-bot"]
    ∧ Forall (evaluatorCall Example.strict Example.image) extra.
Proof.
  edestruct (@evaluator_calls Example.imports _ Example.services
               Example.strict Example.image Example.fetcher
               Example.attestorFetcher (Example.start Example.troubled))
    as (extra & Hcalls & Hall).
  - apply surjective_pairing.
  - exists extra. split; [|exact Hall].
    change (calls (Example.start Example.troubled) ++ extra) with extra
      in Hcalls.
    rewrite <- Hcalls. reflexivity.
Defined.

(** The default policy, a backend with a whitelisted-by-default severity
    and an occurrence under another note. *)
Lemma clean_image_passes_witness :
  let w :=
    {| Example.vulnz := ([Example.vuln "CVE-1" "LOW" true], None);
       Example.occs :=
         ([{| NoteName := "projects/p/notes/build"; Jwts := [] |}],
          Some (errorString "partial listing"));
       Example.atts := ([], None);
       Example.attestors := []; Example.authorities := [];
       Example.issued := [] |} in
  @ValidateImageSecurityPolicy Example.imports _ Example.services
    Example.defaultISP Example.image Example.fetcher
    Example.attestorFetcher (Example.start w)
  = (Done ([], None),
     mkState w
       [Call_Vulnerabilities Example.image;
        Call_OccurencesV1 Example.image]).
Proof.
  intros w.
  eapply (@clean_image_passes Example.imports _ Example.services
            Example.defaultISP Example.image Example.fetcher
            Example.attestorFetcher (Example.start w)).
  - simpl. tauto.
  - reflexivity.
  - reflexivity.
  - repeat constructor.
  - reflexivity.
  - repeat constructor; discriminate.
  - reflexivity.
  - reflexivity.
Defined.

(** The attestation recorded under the fingerprint of [authority1] makes
    the image attested. *)
Lemma isAttested_iff_witness :
  ∃ a,
    In a (fst (Example.atts (Example.attestedUnder "fp:key1")))
    ∧ @VerifyAttestationSignature Example.imports Example.image
        (default ""
           (@keysByFingerprint Example.imports [Example.authority1] ∅
              !! KeyID a)) (Signature a) = None.
Proof.
  edestruct (@isAttested_iff Example.imports _ (Example.reviewer true)
               Example.image [Example.authority1] None
               (Example.start (Example.attestedUnder "fp:key1")))
    as (_ & Hiff & _).
  - reflexivity.
  - lazy. reflexivity.
  - destruct Hiff as [Hex _]. destruct (Hex eq_refl) as (_ & _ & Ha).
    exact Ha.
Defined.

(** Outside webhook mode, the review of an unattested image with the
    evaluator as validator adds no issuing call. *)
Lemma review_issues_only_in_webhook_mode_witness :
  ∃ extra,
    calls (snd (@Review Example.imports _ (Example.reviewer false)
                  [Example.image] [Example.trustingAuthority1] None
                  (Example.start (Example.attestedUnder "fp:elsewhere"))))
    = [] ++ extra
    ∧ Forall (λ c, ¬ isIssuingCall c) extra.
Proof.
  eapply (@review_issues_only_in_webhook_mode Example.imports _
            (Example.reviewer false) [Example.image]
            [Example.trustingAuthority1] None
            (Example.start (Example.attestedUnder "fp:elsewhere"))).
  - reflexivity.
  - intros isp image. eapply appends_weaken;
      [|apply (@evaluator_appends Example.imports _ Example.services)].
    intros [] Hc; cbn in *; tauto.
  - apply surjective_pairing.
Defined.

(** In webhook mode, the only validation of that review is of the policy
    for the image. *)
Lemma review_validates_only_what_is_left_witness :
  ∃ extra,
    calls (snd (@Review Example.imports _ (Example.reviewer true)
                  [Example.image] [Example.trustingAuthority1] None
                  (Example.start (Example.attestedUnder "fp:elsewhere"))))
    = [] ++ extra
    ∧ ∀ isp image, In (Call_Validate isp image) extra →
        In isp [Example.trustingAuthority1]
        ∧ ∃ kept w1,
            ClusterWhitelistedImagesRemover (config (Example.reviewer true))
              (@RemoveGloballyWhitelistedImages Example.imports
                 [Example.image])
              (Example.attestedUnder "fp:elsewhere")
            = (Done (kept, None), w1)
            ∧ In image kept.
Proof.
  eapply (@review_validates_only_what_is_left Example.imports _
            (Example.reviewer true) [Example.image]
            [Example.trustingAuthority1] None
            (Example.start (Example.attestedUnder "fp:elsewhere"))).
  - intros isp image. eapply appends_weaken;
      [|apply (@evaluator_appends Example.imports _ Example.services)].
    intros [] Hc; cbn in *; tauto.
  - apply surjective_pairing.
Defined.

(** Issuing for [authority1]: one occurrence is created. *)
Lemma issueLoop_goes_through_all_witness :
  countCreateOccurrence
    (calls (snd (@issueLoop _ (Example.reviewer true)
                   Example.image Example.trustingAuthority1
                   [Example.authority1] []
                   (Example.start (Example.attestedUnder "fp:elsewhere")))))
  = 1%nat.
Proof.
  edestruct (@issueLoop_goes_through_all _
               (Example.reviewer true) Example.image
               Example.trustingAuthority1 [Example.authority1] []
               (Example.start (Example.attestedUnder "fp:elsewhere")))
    as [Hcount _].
  - lazy. reflexivity.
  - exact Hcount.
Defined.

(** One violation: the joined list has an empty entry in front of the
    summary. *)
Lemma handleViolations_message_witness :
  fst (@handleViolations Example.imports _ (Example.reviewer true)
         "nginx" None
         [{| vulnerability := None; vType := UnqualifiedImageViolation;
             reason := "nginx is not fully qualified" |}]
         (Example.start Example.quiet))
  = Done (errorString
            ("found violations in " +:+ Example.dquote +:+ "nginx" +:+
             Example.dquote +:+ " (" +:+ newline +:+ "," +:+ newline +:+
             "UnqualifiedImageViolation: nginx is not fully qualified"
             +:+ newline +:+ ")")).
Proof.
  erewrite (@handleViolations_message Example.imports _
              (Example.reviewer true)); cycle 1.
  - reflexivity.
  - reflexivity.
Defined.

(** The attestor [build-bot] has one key; the attestor [keyless] has no
    user-owned note and is not found. *)
Lemma binauthzGetAttestor_result_witness :
  ∃ attestor,
    fst (binauthzGetAttestor Example.binauthzClient "build-bot"
           (Example.registering [Example.buildBot]))
    = Done (Some attestor, None)
    ∧ AttestorName attestor = "build-bot".
Proof.
  edestruct (@binauthzGetAttestor_result _ Example.binauthzClient
               "build-bot" (Example.registering [Example.buildBot]))
    as (_ & Hattestor & _).
  - reflexivity.
  - destruct (Hattestor _ eq_refl) as [Hname _].
    eexists. split; [reflexivity|exact Hname].
Defined.

Lemma attestor_without_note_is_not_found_witness :
  fst (@requiredLoop Example.imports _ "img"
         (binauthzAttestorFetcher Example.binauthzClient) []
         ["keyless"; "build-bot"] []
         (Example.start
            (Example.registering [Example.keyless; Example.buildBot])))
  = Done ([], Some (errorString "attestor not found: keyless")).
Proof.
  erewrite (@attestor_without_note_is_not_found Example.imports _
              Example.binauthzClient); cycle 1.
  - reflexivity.
  - reflexivity.
  - reflexivity.
Defined.

(** An image with a digest on [docker.io] under the default policy. *)
Lemma evaluator_refuses_other_registries_witness :
  fst (@ValidateImageSecurityPolicy Example.imports _ Example.storeServices
         Example.defaultISP Example.elsewhere
         (@Client.fetcher Example.imports _ Example.backend)
         Example.storeAttestors
         (Example.start (Example.mixedStore None)))
  = Done ([], Some (@notOnGCR Example.imports Example.elsewhere)).
Proof.
  rewrite (@evaluator_refuses_other_registries Example.imports _
             Example.storeServices Example.backend).
  - reflexivity.
  - simpl. tauto.
  - reflexivity.
  - reflexivity.
Defined.
